(** * ZahraSnaps: retry wrapper, operation helper, session context and
      gallery actions

    A shallow embedding of
      - [src/lib/supabase.ts]        (checkOnline, withRetry, the client's
                                      custom fetch, supabaseOperation),
      - [src/contexts/AuthContext.tsx] (signOut),
      - [src/pages/Gallery.tsx]      (fetchMedia, fetchFolders,
                                      handleFileUpload, createFolder,
                                      deleteFolder, deleteMedia).

    Asynchronous functions are state-passing computations over a [World]:
    the remote service, the connectivity of the device, the React state
    cells and the list of externally visible actions performed so far.  A
    computation returns, throws a JavaScript value, or stays suspended for
    ever (an awaited promise that never settles). *)

From Stdlib Require Import ZArith List String Ascii Bool Lia DecimalString.
Import ListNotations.

Set Warnings "-register-all".
Set Implicit Arguments.

Open Scope string_scope.
Open Scope Z_scope.

(* ================================================================== *)
(** * JavaScript values *)
(* ================================================================== *)

Module JS.

(** Run-time values.  Numbers are the integers (no NaN, no fractions: the
    code computes with counts, byte sizes and millisecond delays only).
    An object is the list of its own properties in insertion order. *)
Inductive value : Type :=
| VUndefined
| VNull
| VBool (b : bool)
| VNum (n : Z)
| VStr (s : string)
| VObj (props : list (string * value))
| VArr (items : list value).

(** ToBoolean: what [if (v)], [!v] and [v || w] test. *)
Definition truthy (v : value) : bool :=
  match v with
  | VUndefined | VNull => false
  | VBool b => b
  | VNum n => negb (n =? 0)
  | VStr s => negb (s =? "")%string
  | VObj _ | VArr _ => true
  end.

(** [a || b] *)
Definition or_else (a b : value) : value := if truthy a then a else b.

Definition number_to_string (n : Z) : string :=
  NilZero.string_of_int (Z.to_int n).

(** ToString, as a template literal applies it.  Objects are plain
    objects (no [toString] of their own); numbers are below 10^21 in
    magnitude, where the decimal notation is used. *)
Fixpoint to_string (v : value) : string :=
  match v with
  | VUndefined => "undefined"
  | VNull => "null"
  | VBool true => "true"
  | VBool false => "false"
  | VNum n => number_to_string n
  | VStr s => s
  | VObj _ => "[object Object]"
  | VArr items =>
      (fix join (l : list value) : string :=
         match l with
         | [] => ""
         | x :: rest =>
             let sx := match x with
                       | VUndefined | VNull => ""
                       | _ => to_string x
                       end in
             match rest with
             | [] => sx
             | _ :: _ => sx ++ "," ++ join rest
             end
         end) items
  end.

Fixpoint lookup (k : string) (props : list (string * value)) : option value :=
  match props with
  | [] => None
  | (k', v) :: rest => if (k =? k')%string then Some v else lookup k rest
  end.

(** Assignment of one property, as in an object literal after a spread: an
    existing key keeps its place and takes the new value. *)
Fixpoint assign (k : string) (v : value) (props : list (string * value))
  : list (string * value) :=
  match props with
  | [] => [(k, v)]
  | (k', v') :: rest =>
      if (k =? k')%string then (k, v) :: rest else (k', v') :: assign k v rest
  end.

(** [new Error(msg)]: the object is seen through its [message] only. *)
Definition new_Error (msg : string) : value := VObj [("message", VStr msg)].

(** The TypeError raised by a property read on [undefined] or [null]
    (wording of V8). *)
Definition TypeError_read (v : value) (k : string) : value :=
  new_Error ("Cannot read properties of " ++ to_string v
             ++ " (reading '" ++ k ++ "')").

(** [v.k]: [inr] is the thrown TypeError. *)
Definition get (v : value) (k : string) : value + value :=
  match v with
  | VUndefined | VNull => inr (TypeError_read v k)
  | VObj props =>
      inl (match lookup k props with Some x => x | None => VUndefined end)
  | VBool _ | VNum _ | VStr _ | VArr _ => inl VUndefined
  end.

Fixpoint characters (s : string) : list value :=
  match s with
  | EmptyString => []
  | String c rest => VStr (String c "") :: characters rest
  end.

Definition indexed (items : list value) : list (string * value) :=
  combine (map (fun i => number_to_string (Z.of_nat i))
               (seq 0 (List.length items))) items.

(** The own enumerable properties an object spread [{...v}] copies. *)
Definition spread (v : value) : list (string * value) :=
  match v with
  | VObj props => props
  | VArr items => indexed items
  | VStr s => indexed (characters s)
  | VUndefined | VNull | VBool _ | VNum _ => []
  end.

(** [s.startsWith(p)] *)
Definition startsWith (s p : string) : bool := String.prefix p s.

(** [s.split('.').pop()]: the text after the last dot, the whole string
    when it has none. *)
Fixpoint last_segment (s acc : string) : string :=
  match s with
  | EmptyString => acc
  | String c rest =>
      if Ascii.eqb c "."%char then last_segment rest ""
      else last_segment rest (acc ++ String c "")
  end.

Definition split_dot_pop (s : string) : string := last_segment s "".

End JS.
Export JS.

(* ================================================================== *)
(** * The world outside the code, and asynchronous computations *)
(* ================================================================== *)

Module Runtime.

(** A browser [File]: name, MIME type and size in bytes. *)
Record File := mkFile { file_name : string; file_type : string; file_size : Z }.

(** Conditions a query builder accumulates. *)
Inductive condition : Type :=
| FEq (column : string) (v : value)               (* .eq(column, v) *)
| FOp (column operator : string) (v : value).     (* .filter(column, operator, v) *)

Inductive verb : Type :=
| VNone
| VSelect (columns : string)
| VInsert (rows : list value)
| VDelete.

(** What a chain [supabase.from(t).select(..).eq(..).order(..)] denotes. *)
Record Query := mkQuery {
  q_table : string;
  q_verb : verb;
  q_filters : list condition;
  q_order : list (string * bool)     (* column, ascending *)
}.

Definition from (table : string) : Query := mkQuery table VNone [] [].
Definition select (columns : string) (q : Query) : Query :=
  mkQuery (q_table q) (VSelect columns) (q_filters q) (q_order q).
Definition insert (rows : list value) (q : Query) : Query :=
  mkQuery (q_table q) (VInsert rows) (q_filters q) (q_order q).
Definition delete (q : Query) : Query :=
  mkQuery (q_table q) VDelete (q_filters q) (q_order q).
Definition eq_ (column : string) (v : value) (q : Query) : Query :=
  mkQuery (q_table q) (q_verb q) (q_filters q ++ [FEq column v]) (q_order q).
Definition filter_ (column operator : string) (v : value) (q : Query) : Query :=
  mkQuery (q_table q) (q_verb q) (q_filters q ++ [FOp column operator v])
          (q_order q).
Definition order (column : string) (ascending : bool) (q : Query) : Query :=
  mkQuery (q_table q) (q_verb q) (q_filters q) (q_order q ++ [(column, ascending)]).

(** Calls made through the supabase-js client. *)
Inductive Request : Type :=
| RQuery (q : Query)                                      (* awaiting a builder *)
| RStorageUpload (bucket path : string) (f : File)        (* storage.from(b).upload *)
| RStorageRemove (bucket : string) (paths : list value)   (* storage.from(b).remove *)
| RAuthSignOut.                                           (* auth.signOut() *)

(** The [{ data, error }] object such a call resolves to. *)
Record Result := mkResult { data : value; error : value }.

(** Externally visible actions, in the order they happen. *)
Inductive event : Type :=
| EvAwaitOnline                           (* suspended on the 'online' event *)
| EvTimeout (ms : Z)                      (* awaited setTimeout(resolve, ms) *)
| EvInvoke                                (* a caller-supplied thunk is called *)
| EvSent (r : Request)
| EvFetch (url : value) (init : list (string * value))   (* window.fetch *)
| EvConsoleError (args : list value)
| EvAlert (msg : string)
| EvConfirm (msg : string) (answer : bool)
| EvPrompt (msg : string) (answer : value)
| EvNavigate (path : string)
| EvStopPropagation
| EvUnhandledRejection (e : value).

(** How an awaited computation ends. *)
Inductive completion (A : Type) : Type :=
| Returned (a : A)
| Threw (e : value)
| Suspended.
Arguments Threw {A} e.
Arguments Suspended {A}.

(** The supabase-js [User] and [Session], as far as the code looks. *)
Record User := mkUser { id : string; email : string }.
Record Session := mkSession { access_token : string; session_user : User }.

(** React state cells of [AuthProvider]. *)
Record AuthState := mkAuth {
  user : option User;
  session : option Session;
  loading : bool
}.

(** React state cells of [Gallery] that the modelled handlers write. *)
Record GalleryState := mkGallery {
  media : value;
  folders : value;
  isUploading : bool;
  uploadProgress : Z;
  currentFolder : option string;
  selectedMedia : value;
  isDeletingMedia : bool;
  isMobileMenuOpen : bool
}.

Section World.
Context {R : Type}.

(** What the code cannot influence: the remote service behind supabase-js
    and behind [window.fetch] (both acting on the service's state [R]),
    the successive readings of [navigator.onLine], whether the 'online'
    event ever fires for the k-th listener, and the configured API key. *)
Record Env := mkEnv {
  serve : Request -> R -> completion Result * R;
  fetch : value -> list (string * value) -> R -> completion value * R;
  onLine : nat -> bool;
  onlineFires : nat -> bool;
  supabaseKey : string
}.

Record World := mkWorld {
  env : Env;
  remote : R;
  reads : nat;            (* readings of navigator.onLine taken so far *)
  waits : nat;            (* 'online' listeners registered so far *)
  auth : AuthState;
  gallery : GalleryState;
  trace : list event
}.

Definition M (A : Type) : Type := World -> completion A * World.

Definition ret {A} (a : A) : M A := fun w => (Returned a, w).
Definition throw {A} (e : value) : M A := fun w => (Threw e, w).

Definition bind {A B} (m : M A) (k : A -> M B) : M B :=
  fun w =>
    match m w with
    | (Returned a, w') => k a w'
    | (Threw e, w') => (Threw e, w')
    | (Suspended, w') => (Suspended, w')
    end.

(** [try { m } catch (e) { h e }] *)
Definition try_catch {A} (m : M A) (h : value -> M A) : M A :=
  fun w =>
    match m w with
    | (Threw e, w') => h e w'
    | r => r
    end.

(** [try { m } finally { f }], for an [f] that neither returns a value nor
    throws on its own account. *)
Definition try_finally {A} (m : M A) (f : M unit) : M A :=
  fun w =>
    match m w with
    | (Returned a, w') => bind f (fun _ => ret a) w'
    | (Threw e, w') => bind f (fun _ => throw e) w'
    | (Suspended, w') => (Suspended, w')
    end.

(** A call of an async function whose promise is dropped: the caller goes
    on whatever becomes of it.  The callee's actions are placed at the
    point of the call. *)
Definition spawn (m : M unit) : M unit :=
  fun w =>
    match m w with
    | (Threw e, w') =>
        (Returned tt,
         mkWorld (env w') (remote w') (reads w') (waits w') (auth w')
                 (gallery w') (trace w' ++ [EvUnhandledRejection e]))
    | (_, w') => (Returned tt, w')
    end.

(** [when c m]: [if (c) { m }] *)
Definition when (c : bool) (m : M unit) : M unit := if c then m else ret tt.

(** A property read that may raise TypeError. *)
Definition read (v : value) (k : string) : M value :=
  match get v k with
  | inl x => ret x
  | inr e => throw e
  end.

(** ** Primitive actions *)

Definition log (e : event) : M unit :=
  fun w => (Returned tt,
            mkWorld (env w) (remote w) (reads w) (waits w) (auth w)
                    (gallery w) (trace w ++ [e])).

Definition set_remote (s : R) (w : World) : World :=
  mkWorld (env w) s (reads w) (waits w) (auth w) (gallery w) (trace w).
Definition set_auth (a : AuthState) (w : World) : World :=
  mkWorld (env w) (remote w) (reads w) (waits w) a (gallery w) (trace w).
Definition set_gallery (g : GalleryState) (w : World) : World :=
  mkWorld (env w) (remote w) (reads w) (waits w) (auth w) g (trace w).

(** An action answered by the remote side: it is recorded, then the
    service's transition [f] decides the outcome. *)
Definition external {A} (e : event) (f : R -> completion A * R) : M A :=
  fun w =>
    let (c, s) := f (remote w) in
    (c, mkWorld (env w) s (reads w) (waits w) (auth w) (gallery w)
                (trace w ++ [e])).

Definition send (r : Request) : M Result :=
  fun w => external (EvSent r) (serve (env w) r) w.

Definition window_fetch (url : value) (init : list (string * value)) : M value :=
  fun w => external (EvFetch url init) (fetch (env w) url init) w.

(** [window.navigator.onLine] *)
Definition navigator_onLine : M bool :=
  fun w => (Returned (onLine (env w) (reads w)),
            mkWorld (env w) (remote w) (S (reads w)) (waits w) (auth w)
                    (gallery w) (trace w)).

(** [await new Promise(resolve => window.addEventListener('online', ...))]:
    resumes when the event fires, stays suspended if it never does. *)
Definition await_online_event : M unit :=
  fun w =>
    let w' := mkWorld (env w) (remote w) (reads w) (S (waits w)) (auth w)
                      (gallery w) (trace w ++ [EvAwaitOnline]) in
    if onlineFires (env w) (waits w) then (Returned tt, w') else (Suspended, w').

(** [await new Promise(resolve => setTimeout(resolve, ms))] *)
Definition await_timeout (ms : Z) : M unit := log (EvTimeout ms).

Definition console_error (args : list value) : M unit := log (EvConsoleError args).
Definition alert (msg : string) : M unit := log (EvAlert msg).
Definition navigate (path : string) : M unit := log (EvNavigate path).

End World.

Arguments Env R : clear implicits.
Arguments World R : clear implicits.
Arguments M R A : clear implicits.

Declare Scope js_scope.
Delimit Scope js_scope with js.
Notation "x <- m ;; k" := (bind m (fun x => k))
  (at level 61, m at next level, right associativity) : js_scope.
Notation "m ;;; k" := (bind m (fun _ => k))
  (at level 61, right associativity) : js_scope.
Notation "q |> f" := (f q) (at level 50, left associativity, only parsing).

End Runtime.
Export Runtime.
Open Scope js_scope.

(* ================================================================== *)
(** * src/lib/supabase.ts *)
(* ================================================================== *)

Module Supabase.

(** How one turn of the [for] loop of [withRetry] ends: the function
    returns, or the loop goes on with a new [lastError]. *)
Inductive turn (A : Type) : Type :=
| Return_ (a : A)
| Next (lastError : value).
Arguments Next {A} lastError.

Section Supabase.
Context {R : Type}.
Local Abbreviation M := (M R).

(** [checkOnline]: the page runs in a browser, so [typeof window] is not
    'undefined' and the answer is [window.navigator.onLine]. *)
Definition checkOnline : M bool := navigator_onLine.

(** The body of the loop at index [i]. *)
Definition attempt {A} (operation : M A) (maxRetries : nat) (baseDelay : Z)
           (i : nat) : M (turn A) :=
  try_catch
    (online <- checkOnline ;;
     when (negb online) await_online_event ;;;
     a <- operation ;;
     ret (Return_ a))
    (fun error =>
       when (Z.of_nat i <? Z.of_nat maxRetries - 1)
            (let delay := baseDelay * 2 ^ Z.of_nat i in
             await_timeout delay) ;;;
       ret (Next error)).

(** [for (let i = ...; i < maxRetries; i++) { ... } throw lastError], with
    [todo] turns left to go. *)
Fixpoint retry_loop {A} (operation : M A) (maxRetries : nat) (baseDelay : Z)
         (todo i : nat) (lastError : value) : M A :=
  match todo with
  | O => throw lastError
  | S todo' =>
      t <- attempt operation maxRetries baseDelay i ;;
      match t with
      | Return_ a => ret a
      | Next e => retry_loop operation maxRetries baseDelay todo' (S i) e
      end
  end.

Definition withRetry {A} (operation : M A) (maxRetries : nat) (baseDelay : Z)
  : M A :=
  retry_loop operation maxRetries baseDelay maxRetries 0 VUndefined.

(** The defaults of the signature: [maxRetries = 5], [baseDelay = 1000]. *)
Definition withRetry_default {A} (operation : M A) : M A :=
  withRetry operation 5 1000.

Definition api_key : M string :=
  fun w => (Returned (supabaseKey (env w)), w).

Definition connectivity_message : string :=
  "Unable to connect to the server. Please check your internet connection.".

(** The [headers] constant of the custom fetch: the caller's headers with
    the four forced entries, and the init object [{...options, headers}]. *)
Definition forced_headers (key : string) (options : list (string * value))
  : list (string * value) :=
  let options_headers :=
    match lookup "headers" options with Some h => h | None => VUndefined end in
  spread options_headers
  |> assign "apikey" (VStr key)
  |> assign "Authorization" (VStr ("Bearer " ++ key))
  |> assign "Cache-Control" (VStr "no-cache")
  |> assign "Pragma" (VStr "no-cache").

Definition request_init (key : string) (options : list (string * value))
  : list (string * value) :=
  options |> assign "headers" (VObj (forced_headers key options)).

(** The [global.fetch] handed to [createClient]. *)
Definition customFetch (url : value) (options : list (string * value))
  : M value :=
  try_catch
    (key <- api_key ;;
     withRetry_default (window_fetch url (request_init key options)))
    (fun error =>
       console_error [VStr "Supabase fetch error:"; error] ;;;
       throw (new_Error connectivity_message)).

Definition offline_message : string :=
  "You are currently offline. Please check your internet connection.".

(** [supabaseOperation(operation, errorMessage)]; [operation] is what one
    call of the thunk does. *)
Definition supabaseOperation (operation : M Result) (errorMessage : string)
  : M value :=
  online <- checkOnline ;;
  if negb online then throw (new_Error offline_message)
  else
    try_catch
      (r <- withRetry_default operation ;;
       if truthy (error r) then
         console_error [VStr (errorMessage ++ ":"); error r] ;;;
         throw (error r)
       else if negb (truthy (data r)) then
         throw (new_Error "No data returned from server")
       else ret (data r))
      (fun error =>
         m <- read error "message" ;;
         let message := or_else m (VStr "An unexpected error occurred") in
         console_error [VStr (errorMessage ++ ":"); error] ;;;
         throw (new_Error (errorMessage ++ ": " ++ to_string message))).

End Supabase.
End Supabase.
Export Supabase.

(* ================================================================== *)
(** * src/contexts/AuthContext.tsx *)
(* ================================================================== *)

Module AuthContext.
Section AuthContext.
Context {R : Type}.
Local Abbreviation M := (M R).

Definition setUser (u : option User) : M unit :=
  fun w => (Returned tt,
            set_auth (mkAuth u (session (auth w)) (loading (auth w))) w).

Definition setSession (s : option Session) : M unit :=
  fun w => (Returned tt,
            set_auth (mkAuth (user (auth w)) s (loading (auth w))) w).

Definition signOut : M unit :=
  try_catch
    (r <- send RAuthSignOut ;;
     when (truthy (error r)) (throw (error r)) ;;;
     setUser None ;;;
     setSession None)
    (fun error =>
       console_error [VStr "Error signing out:"; error] ;;;
       setUser None ;;;
       setSession None).

End AuthContext.
End AuthContext.

(* ================================================================== *)
(** * src/pages/Gallery.tsx *)
(* ================================================================== *)

Module Gallery.
Section Gallery.
Context {R : Type}.
Local Abbreviation M := (M R).

(** The values of the render that a handler closes over. *)
Record Closure := mkClosure {
  c_user : option User;                (* useAuth().user *)
  c_currentFolder : option string;
  c_isDeletingMedia : bool
}.

Definition update_gallery (f : GalleryState -> GalleryState) : M unit :=
  fun w => (Returned tt, set_gallery (f (gallery w)) w).

Definition setMedia (v : value) : M unit :=
  update_gallery (fun g =>
    mkGallery v (folders g) (isUploading g) (uploadProgress g)
              (currentFolder g) (selectedMedia g) (isDeletingMedia g)
              (isMobileMenuOpen g)).
Definition setFolders (v : value) : M unit :=
  update_gallery (fun g =>
    mkGallery (media g) v (isUploading g) (uploadProgress g)
              (currentFolder g) (selectedMedia g) (isDeletingMedia g)
              (isMobileMenuOpen g)).
Definition setIsUploading (b : bool) : M unit :=
  update_gallery (fun g =>
    mkGallery (media g) (folders g) b (uploadProgress g)
              (currentFolder g) (selectedMedia g) (isDeletingMedia g)
              (isMobileMenuOpen g)).
Definition setUploadProgress (n : Z) : M unit :=
  update_gallery (fun g =>
    mkGallery (media g) (folders g) (isUploading g) n
              (currentFolder g) (selectedMedia g) (isDeletingMedia g)
              (isMobileMenuOpen g)).
Definition setCurrentFolder (f : option string) : M unit :=
  update_gallery (fun g =>
    mkGallery (media g) (folders g) (isUploading g) (uploadProgress g)
              f (selectedMedia g) (isDeletingMedia g)
              (isMobileMenuOpen g)).
Definition setSelectedMedia (v : value) : M unit :=
  update_gallery (fun g =>
    mkGallery (media g) (folders g) (isUploading g) (uploadProgress g)
              (currentFolder g) v (isDeletingMedia g)
              (isMobileMenuOpen g)).
Definition setIsDeletingMedia (b : bool) : M unit :=
  update_gallery (fun g =>
    mkGallery (media g) (folders g) (isUploading g) (uploadProgress g)
              (currentFolder g) (selectedMedia g) b
              (isMobileMenuOpen g)).
Definition setIsMobileMenuOpen (b : bool) : M unit :=
  update_gallery (fun g =>
    mkGallery (media g) (folders g) (isUploading g) (uploadProgress g)
              (currentFolder g) (selectedMedia g) (isDeletingMedia g) b).

(** [confirm(msg)] and [prompt(msg)], with the answer the user gives. *)
Definition confirm (msg : string) (answer : bool) : M bool :=
  log (EvConfirm msg answer) ;;; ret answer.
Definition prompt (msg : string) (answer : value) : M value :=
  log (EvPrompt msg answer) ;;; ret answer.

(** A [string | null] state cell as a value, and its truthiness. *)
Definition nullable (s : option string) : value :=
  match s with Some x => VStr x | None => VNull end.

Definition fetchMedia (c : Closure) : M unit :=
  match c_user c with
  | None => ret tt
  | Some user =>
      try_catch
        (let query :=
           from "photos"
           |> select "*"
           |> eq_ "uploaded_by" (VStr (id user))
           |> order "created_at" false in
         let query :=
           if truthy (nullable (c_currentFolder c)) then
             query |> eq_ "folder_id" (nullable (c_currentFolder c))
           else
             query |> filter_ "folder_id" "is" VNull in
         data <- supabaseOperation (send (RQuery query)) "Error fetching media" ;;
         setMedia data)
        (fun error =>
           console_error [VStr "Error fetching media:"; error] ;;;
           throw error)
  end.

Definition fetchFolders (c : Closure) : M unit :=
  match c_user c with
  | None => ret tt
  | Some user =>
      try_catch
        (data <- supabaseOperation
                   (send (RQuery (from "folders"
                                  |> select "*"
                                  |> eq_ "user_id" (VStr (id user))
                                  |> order "created_at" false)))
                   "Error fetching folders" ;;
         setFolders data)
        (fun error =>
           console_error [VStr "Error fetching folders:"; error] ;;;
           throw error)
  end.

(** [handleFileUpload]: [file] is [event.target.files?.[0]], [random] the
    text of the [Math.random()] draw.  The [onUploadProgress] option is a
    callback for the storage client to call; the handler itself never
    runs it, and the [finally] block resets the progress in any case. *)
Definition handleFileUpload (c : Closure) (file : option File) (random : string)
  : M unit :=
  match file, c_user c with
  | None, None | Some _, None => navigate "/login"
  | None, Some _ => ret tt
  | Some file, Some user =>
      let isVideo := startsWith (file_type file) "video/" in
      let maxSize := if isVideo then 50 * 1024 * 1024 else 5 * 1024 * 1024 in
      if maxSize <? file_size file then
        alert ("File too large. Maximum size is "
               ++ number_to_string (maxSize / (1024 * 1024)) ++ "MB")
      else
        setIsUploading true ;;;
        setUploadProgress 0 ;;;
        try_finally
          (try_catch
             (let fileExt := split_dot_pop (file_name file) in
              let fileName := random ++ "." ++ fileExt in
              let filePath := id user ++ "/" ++ fileName in
              up <- send (RStorageUpload "photos" filePath file) ;;
              when (truthy (error up)) (throw (error up)) ;;;
              path <- read (data up) "path" ;;
              ins <- send (RQuery
                       (from "photos"
                        |> insert [VObj [("url", path);
                                         ("folder_id", nullable (c_currentFolder c));
                                         ("uploaded_by", VStr (id user));
                                         ("media_type",
                                          VStr (if isVideo then "video" else "image"))]])) ;;
              when (truthy (error ins)) (throw (error ins)) ;;;
              spawn (fetchMedia c))
             (fun error =>
                console_error [VStr "Error uploading file:"; error] ;;;
                alert "Error uploading file"))
          (setIsUploading false ;;;
           setUploadProgress 0 ;;;
           setIsMobileMenuOpen false)
  end.

Definition createFolder (c : Closure) (answer : value) : M unit :=
  match c_user c with
  | None => navigate "/login"
  | Some user =>
      name <- prompt "Enter folder name:" answer ;;
      if negb (truthy name) then ret tt
      else
        try_catch
          (r <- send (RQuery
                   (from "folders"
                    |> insert [VObj [("name", name);
                                     ("user_id", VStr (id user))]])) ;;
           when (truthy (error r)) (throw (error r)) ;;;
           spawn (fetchFolders c) ;;;
           setIsMobileMenuOpen false)
          (fun error =>
             console_error [VStr "Error creating folder:"; error] ;;;
             alert "Error creating folder")
  end.

Definition deleteFolder (c : Closure) (folderId : string) (answer : bool)
  : M unit :=
  match c_user c with
  | None => ret tt
  | Some user =>
      ok <- confirm "Are you sure you want to delete this folder and all its contents?"
                    answer ;;
      if negb ok then ret tt
      else
        try_catch
          (photos <- send (RQuery (from "photos"
                                   |> delete
                                   |> eq_ "folder_id" (VStr folderId))) ;;
           when (truthy (error photos)) (throw (error photos)) ;;;
           folder <- send (RQuery (from "folders"
                                   |> delete
                                   |> eq_ "id" (VStr folderId))) ;;
           when (truthy (error folder)) (throw (error folder)) ;;;
           spawn (fetchFolders c) ;;;
           when (match c_currentFolder c with
                 | Some f => (f =? folderId)%string
                 | None => false
                 end)
                (setCurrentFolder None))
          (fun error =>
             console_error [VStr "Error deleting folder:"; error] ;;;
             alert "Error deleting folder")
  end.

Definition deleteMedia (c : Closure) (item : value) (answer : bool) : M unit :=
  log EvStopPropagation ;;;
  match c_user c with
  | None => ret tt
  | Some user =>
      if c_isDeletingMedia c then ret tt
      else
        ok <- confirm "Are you sure you want to delete this media item?" answer ;;
        if negb ok then ret tt
        else
          setIsDeletingMedia true ;;;
          try_finally
            (try_catch
               (url <- read item "url" ;;
                st <- send (RStorageRemove "photos" [url]) ;;
                when (truthy (error st)) (throw (error st)) ;;;
                item_id <- read item "id" ;;
                db <- send (RQuery (from "photos"
                                    |> delete
                                    |> eq_ "id" item_id)) ;;
                when (truthy (error db)) (throw (error db)) ;;;
                setSelectedMedia VNull ;;;
                fetchMedia c)
               (fun error =>
                  console_error [VStr "Error deleting media:"; error] ;;;
                  alert "Error deleting media"))
            (setIsDeletingMedia false)
  end.

End Gallery.
End Gallery.

Open Scope list_scope.

(* ================================================================== *)
(** * Vocabulary of the statements *)
(* ================================================================== *)

Module Behaviour.

(** The calls and timers of a run with N failures from loop index [i]:
    call, wait, call, wait, ..., call. *)
Fixpoint schedule_of (call : event) (baseDelay : Z) (i N : nat) : list event :=
  match N with
  | O => [call]
  | S n => call :: EvTimeout (baseDelay * 2 ^ Z.of_nat i)
             :: schedule_of call baseDelay (S i) n
  end.

Definition schedule : Z -> nat -> nat -> list event := schedule_of EvInvoke.

Definition is_offline_wait (e : event) : bool :=
  match e with EvAwaitOnline => true | _ => false end.

(** A run without the suspensions on the 'online' event. *)
Definition calls_and_timers (tr : list event) : list event :=
  filter (fun e => negb (is_offline_wait e)) tr.

Definition invocations (tr : list event) : nat :=
  List.length (filter (fun e => match e with EvInvoke => true | _ => false end) tr).

Fixpoint delays (tr : list event) : list Z :=
  match tr with
  | [] => []
  | EvTimeout ms :: rest => ms :: delays rest
  | _ :: rest => delays rest
  end.

Section Thunks.
Context {R A : Type}.

(** A caller-supplied thunk whose outcome is decided by the remote side:
    each call is one transition [f] of the service's state. *)
Definition thunk (f : R -> completion A * R) : M R A := external EvInvoke f.

(** [rejections f s es s']: called again and again from state [s], the
    operation rejects with the errors [es] in turn and leaves state [s']. *)
Inductive rejections (f : R -> completion A * R) : R -> list value -> R -> Prop :=
| rej_nil s : rejections f s [] s
| rej_cons s e s1 es s' :
    f s = (Threw e, s1) -> rejections f s1 es s' ->
    rejections f s (e :: es) s'.

(** N transient failures, then a success with [v]. *)
Definition fails_then_succeeds (f : R -> completion A * R)
           (N : nat) (s : R) (v : A) (s' : R) : Prop :=
  exists es s1,
    rejections f s es s1 /\ List.length es = N /\ f s1 = (Returned v, s').

(** Every wait for the 'online' event is answered. *)
Definition comes_back_online (E : Env R) : Prop :=
  forall k, onlineFires E k = true.

End Thunks.

(** [part] occurs somewhere inside [whole]. *)
Definition occurs_in (part whole : string) : Prop :=
  exists pre post, whole = (pre ++ part ++ post)%string.

(** The world right after one reading of [navigator.onLine]. *)
Definition after_online_check {R} (w : World R) : World R :=
  snd (checkOnline w).

(** The text under which [supabaseOperation] reports a caught error
    whose [message] property is [m]. *)
Definition reported (label : string) (m : value) : string :=
  (label ++ ": " ++ to_string (or_else m (VStr "An unexpected error occurred")))%string.

(** The actions a computation adds to the trace when run in [w]. *)
Definition performed {R A} (m : M R A) (w : World R) : list event :=
  skipn (List.length (trace w)) (trace (snd (m w))).

(** A condition on the requests among the actions; other actions are
    left free. *)
Definition on_requests (Q : Request -> Prop) (e : event) : Prop :=
  match e with EvSent r => Q r | _ => True end.

(** Every request that [m] sends, in any world, satisfies [Q]. *)
Definition requests_satisfy {R A} (Q : Request -> Prop) (m : M R A) : Prop :=
  forall w, exists tr,
    trace (snd (m w)) = trace w ++ tr /\ Forall (on_requests Q) tr.

(** Anything [m] does is added at the end of the trace. *)
Definition appends {R A} (m : M R A) : Prop := requests_satisfy (fun _ => True) m.

(** The conditions a query puts on one column. *)
Definition conditions_on (column : string) (q : Query) : list condition :=
  filter (fun c => match c with
                   | FEq col _ | FOp col _ _ => (col =? column)%string
                   end) (q_filters q).

(** The column that holds the owner of a row: [uploaded_by] in [photos],
    [user_id] in [folders] (the inserts of [handleFileUpload] and
    [createFolder] fill them with [user.id]). *)
Definition owner_column (table : string) : string :=
  if (table =? "photos")%string then "uploaded_by" else "user_id".

(** The query carries an equality of the owner column with [uid]. *)
Definition filters_on_user (uid : string) (q : Query) : bool :=
  existsb (fun c => match c with
                    | FEq col (VStr v) =>
                        (col =? owner_column (q_table q))%string && (v =? uid)%string
                    | _ => false
                    end) (q_filters q).

(** Numbers of storage uploads, of row inserts and of row deletes on a
    table among the actions. *)
Definition uploads (tr : list event) : nat :=
  List.length (filter (fun e => match e with
                                | EvSent (RStorageUpload _ _ _) => true
                                | _ => false end) tr).
Definition inserts (tr : list event) : nat :=
  List.length (filter (fun e => match e with
                                | EvSent (RQuery q) =>
                                    match q_verb q with VInsert _ => true | _ => false end
                                | _ => false end) tr).
Definition deletes_on (table : string) (tr : list event) : nat :=
  List.length (filter (fun e => match e with
                                | EvSent (RQuery q) =>
                                    match q_verb q with
                                    | VDelete => (q_table q =? table)%string
                                    | _ => false
                                    end
                                | _ => false end) tr).
Definition requests (tr : list event) : list Request :=
  flat_map (fun e => match e with EvSent r => [r] | _ => [] end) tr.

(** The requests of the gallery, written out. *)
Definition folder_condition (cf : option string) : condition :=
  match cf with
  | Some f => if (f =? "")%string then FOp "folder_id" "is" VNull
              else FEq "folder_id" (VStr f)
  | None => FOp "folder_id" "is" VNull
  end.

Definition media_listing (uid : string) (cf : option string) : Request :=
  RQuery (mkQuery "photos" (VSelect "*")
                  [FEq "uploaded_by" (VStr uid); folder_condition cf]
                  [("created_at", false)]).

Definition folder_listing (uid : string) : Request :=
  RQuery (mkQuery "folders" (VSelect "*") [FEq "user_id" (VStr uid)]
                  [("created_at", false)]).

Definition delete_children (folderId : string) : Request :=
  RQuery (mkQuery "photos" VDelete [FEq "folder_id" (VStr folderId)] []).

Definition delete_folder_row (folderId : string) : Request :=
  RQuery (mkQuery "folders" VDelete [FEq "id" (VStr folderId)] []).

Definition delete_media_row (item_id : value) : Request :=
  RQuery (mkQuery "photos" VDelete [FEq "id" item_id] []).

(** The cause with which an awaited client call makes the enclosing [try]
    block fail: the exception it raised, or the [error] of its result
    when that is set. *)
Definition failed_with (c : completion Result) : option value :=
  match c with
  | Returned r => if truthy (error r) then Some (error r) else None
  | Threw e => Some e
  | Suspended => None
  end.

(** The size limit [handleFileUpload] applies to a file, in bytes. *)
Definition size_limit (f : File) : Z :=
  if startsWith (file_type f) "video/" then 50 * 1024 * 1024
  else 5 * 1024 * 1024.

(** The two requests of an upload by [u] in the render [cf]: the object
    under [<user id>/<random>.<extension>], then the row that points to
    the stored [path]. *)
Definition upload_request (u : User) (file : File) (random : string) : Request :=
  RStorageUpload "photos"
    (id u ++ "/" ++ random ++ "." ++ split_dot_pop (file_name file))%string file.

Definition insert_request (u : User) (cf : option string) (file : File)
           (path : value) : Request :=
  RQuery (mkQuery "photos"
            (VInsert [VObj [("url", path);
                            ("folder_id", match cf with
                                          | Some f => VStr f
                                          | None => VNull
                                          end);
                            ("uploaded_by", VStr (id u));
                            ("media_type",
                             VStr (if startsWith (file_type file) "video/"
                                   then "video" else "image"))]])
            [] []).

Definition too_large_message (file : File) : string :=
  ("File too large. Maximum size is "
   ++ number_to_string (size_limit file / (1024 * 1024)) ++ "MB")%string.

Definition confirm_delete_folder : string :=
  "Are you sure you want to delete this folder and all its contents?".

(** [m], run in [w], ends as [c] in world [w'] after the actions [tr]. *)
Definition runs {R A} (m : M R A) (w : World R) (c : completion A)
           (w' : World R) (tr : list event) : Prop :=
  m w = (c, w') /\ trace w' = trace w ++ tr.

(** [m], run in [w], begins with the action [e]. *)
Definition starts_with {R A} (e : event) (m : M R A) (w : World R) : Prop :=
  exists tr, performed m w = e :: tr.

(** [null] or [undefined]. *)
Definition nullish (v : value) : bool :=
  match v with VUndefined | VNull => true | _ => false end.

End Behaviour.
Export Behaviour.

(* ================================================================== *)
(** * Concrete services and worlds *)
(* ================================================================== *)

Module Scenarios.

Definition auth0 : AuthState := mkAuth None None false.
Definition gallery0 : GalleryState :=
  mkGallery (VArr []) (VArr []) false 0 None VNull false false.

(** A service whose state counts the calls it has answered; supabase-js
    calls and fetches succeed with empty payloads. *)
Definition counting_serve (r : Request) (n : nat) : completion Result * nat :=
  (Returned (mkResult (VArr []) VNull), S n).
Definition counting_fetch (url : value) (init : list (string * value)) (n : nat)
  : completion value * nat :=
  (Returned (VObj [("ok", VBool true)]), S n).

(** A device that is offline at the second reading of [navigator.onLine]
    only, and comes back. *)
Definition env_flicker : Env nat :=
  mkEnv counting_serve counting_fetch
        (fun k => negb (k =? 1)%nat) (fun _ => true) "anon-key".

Definition world_flicker : World nat := mkWorld env_flicker 0%nat 0 0 auth0 gallery0 [].

(** A thunk that rejects its first [k] calls and then resolves. *)
Definition flaky (k : nat) (n : nat) : completion value * nat :=
  if (n <? k)%nat
  then (Threw (new_Error ("timeout " ++ number_to_string (Z.of_nat n))), S n)
  else (Returned (VStr "done"), S n).

(** A network on which every fetch is refused. *)
Definition refusing_fetch (url : value) (init : list (string * value)) (n : nat)
  : completion value * nat :=
  (Threw (new_Error ("Failed to fetch #" ++ number_to_string (Z.of_nat n))), S n).

Definition env_down : Env nat :=
  mkEnv counting_serve refusing_fetch (fun _ => true) (fun _ => true) "anon-key".

Definition world_down : World nat := mkWorld env_down 0%nat 0 0 auth0 gallery0 [].

(** A device that is online throughout, and one that is offline. *)
Definition env_online : Env nat :=
  mkEnv counting_serve counting_fetch (fun _ => true) (fun _ => true) "anon-key".
Definition world_online : World nat := mkWorld env_online 0%nat 0 0 auth0 gallery0 [].

Definition env_offline : Env nat :=
  mkEnv counting_serve counting_fetch (fun _ => false) (fun _ => false) "anon-key".
Definition world_offline : World nat := mkWorld env_offline 0%nat 0 0 auth0 gallery0 [].

(** A signed-in tab whose service refuses every call with a thrown
    network error, and one whose service answers with an error object. *)
Definition alice : User := mkUser "u1" "alice@example.com".
Definition auth_alice : AuthState :=
  mkAuth (Some alice) (Some (mkSession "token-1" alice)) false.

Definition throwing_serve (r : Request) (n : nat) : completion Result * nat :=
  (Threw (new_Error "Failed to fetch"), S n).
Definition erring_serve (r : Request) (n : nat) : completion Result * nat :=
  (Returned (mkResult VNull (new_Error "session_not_found")), S n).

Definition world_throwing : World nat :=
  mkWorld (mkEnv throwing_serve counting_fetch (fun _ => true) (fun _ => true)
                 "anon-key")
          0%nat 0 0 auth_alice gallery0 [].
Definition world_erring : World nat :=
  mkWorld (mkEnv erring_serve counting_fetch (fun _ => true) (fun _ => true)
                 "anon-key")
          0%nat 0 0 auth_alice gallery0 [].
Definition world_alice : World nat :=
  mkWorld env_online 0%nat 0 0 auth_alice gallery0 [].

(** The render of the gallery for alice, at the root and inside folder
    "f1". *)
Definition at_root : Gallery.Closure := Gallery.mkClosure (Some alice) None false.
Definition in_f1 : Gallery.Closure := Gallery.mkClosure (Some alice) (Some "f1") false.

(** A row store with three media rows in folder "f1", in the middle of
    an outage: every delete is answered with an error and changes
    nothing. *)
Record Store := mkStore {
  photo_rows : list (string * string);     (* id, folder_id *)
  folder_rows : list string;               (* id *)
  outage : bool
}.

Definition store_serve (r : Request) (s : Store) : completion Result * Store :=
  match r with
  | RQuery (mkQuery table VDelete [FEq column (VStr key)] _) =>
      if outage s then
        (Returned (mkResult VNull (new_Error "upstream request timeout")), s)
      else if (table =? "photos")%string && (column =? "folder_id")%string then
        (Returned (mkResult VNull VNull),
         mkStore (filter (fun row => negb (snd row =? key)%string) (photo_rows s))
                 (folder_rows s) (outage s))
      else if (table =? "folders")%string && (column =? "id")%string then
        (Returned (mkResult VNull VNull),
         mkStore (photo_rows s)
                 (filter (fun f => negb (f =? key)%string) (folder_rows s))
                 (outage s))
      else (Returned (mkResult VNull VNull), s)
  | _ => (Returned (mkResult (VArr []) VNull), s)
  end.

Definition store_fetch (url : value) (init : list (string * value)) (s : Store)
  : completion value * Store :=
  (Returned (VObj [("ok", VBool true)]), s).

Definition store_f1 (down : bool) : Store :=
  mkStore [("m1", "f1"); ("m2", "f1"); ("m3", "f1"); ("m4", "f2")] ["f1"; "f2"] down.

Definition world_store (down : bool) : World Store :=
  mkWorld (mkEnv store_serve store_fetch (fun _ => true) (fun _ => true) "anon-key")
          (store_f1 down) 0 0 auth_alice gallery0 [].

(** A service whose object store answers an upload with the stored
    path, a forty-megabyte video and a six-megabyte image. *)
Definition storing_serve (r : Request) (n : nat) : completion Result * nat :=
  match r with
  | RStorageUpload _ path _ =>
      (Returned (mkResult (VObj [("path", VStr path)]) VNull), S n)
  | _ => (Returned (mkResult (VArr []) VNull), S n)
  end.

Definition world_storing : World nat :=
  mkWorld (mkEnv storing_serve counting_fetch (fun _ => true) (fun _ => true)
                 "anon-key")
          0%nat 0 0 auth_alice gallery0 [].

Definition video_40MB : File := mkFile "holiday.final.mp4" "video/mp4" (40 * 1024 * 1024).
Definition image_6MB : File := mkFile "cover.png" "image/png" (6 * 1024 * 1024).

(** Thunks that resolve at once: a count of zero rows, a list of rows, a
    backend error, and nothing at all. *)
Definition resolves (r : Result) : M nat Result := thunk (fun n => (Returned r, S n)).
Definition zero_count : Result := mkResult (VNum 0) VNull.
Definition two_rows : Result :=
  mkResult (VArr [VObj [("id", VStr "m1")]; VObj [("id", VStr "m2")]]) VNull.
Definition denied : Result :=
  mkResult VNull (VObj [("message", VStr "permission denied for table photos");
                        ("code", VStr "42501")]).
Definition nothing : Result := mkResult VNull VNull.

End Scenarios.

(* ================================================================== *)
(** * src/contexts/AuthContext.tsx: the effect of [AuthProvider] *)
(* ================================================================== *)

Module AuthProvider.
Import AuthContext.
Section AuthProvider.
Context {R : Type}.
Local Abbreviation M := (M R).

Definition setLoading (b : bool) : M unit :=
  fun w => (Returned tt,
            set_auth (mkAuth (user (auth w)) (session (auth w)) b) w).

(** [session?.user ?? null] *)
Definition user_of (session : option Session) : option User :=
  match session with
  | Some s => Some (session_user s)
  | None => None
  end.

(** The callback given to [getSession().then]; [session] is
    [data.session] of the value the promise resolved to. *)
Definition onInitialSession (session : option Session) : M unit :=
  setSession session ;;;
  setUser (user_of session) ;;;
  setLoading false.

(** The callback given to [supabase.auth.onAuthStateChange]. *)
Definition onAuthStateChange (_event : string) (session : option Session)
  : M unit :=
  setSession session ;;;
  setUser (user_of session) ;;;
  setLoading false.

(** What the provider renders: the spinner while [loading], the children
    otherwise. *)
Definition renders_children (a : AuthState) : bool := negb (loading a).

End AuthProvider.
End AuthProvider.

(* ================================================================== *)
(** * Vocabulary of the further statements *)
(* ================================================================== *)

Module Laws.
Import AuthContext AuthProvider.

(** [m] takes every world to one related to it by [I]. *)
Definition respects {R A} (I : World R -> World R -> Prop) (m : M R A) : Prop :=
  forall w, I w (snd (m w)).

(** The second world has the trace of the first, followed by actions that
    all satisfy [P]. *)
Definition extends_by {R} (P : event -> Prop) (w w' : World R) : Prop :=
  exists tr, trace w' = trace w ++ tr /\ Forall P tr.

Definition same_gallery {R} (w w' : World R) : Prop := gallery w' = gallery w.
Definition same_cell {R X} (cell : GalleryState -> X) (w w' : World R) : Prop :=
  cell (gallery w') = cell (gallery w).

(** Number of actions of a kind. *)
Definition count_of (p : event -> bool) (tr : list event) : nat :=
  List.length (filter p tr).

Definition is_invoke (e : event) : bool :=
  match e with EvInvoke => true | _ => false end.
Definition is_fetch (e : event) : bool :=
  match e with EvFetch _ _ => true | _ => false end.
Definition is_console_error (e : event) : bool :=
  match e with EvConsoleError _ => true | _ => false end.
Definition is_timer (e : event) : bool :=
  match e with EvTimeout _ => true | _ => false end.

Definition total (ds : list Z) : Z := fold_right Z.add 0 ds.

(** The policies whose delays the code computes exactly.  The code works
    in doubles: an integer [baseDelay] up to 2^53 in magnitude is a double,
    [Math.pow(2, i)] is the double 2^i as long as i <= 1023, and their
    product is the double of the integer [baseDelay * 2^i] as long as it
    stays finite.  With at most 970 turns the largest exponent the loop
    reaches is 968 and the largest delay is below 2^1022.  Beyond such
    policies [Math.pow(2, i)] becomes [Infinity] and the integers of
    [attempt] are no longer the numbers of the code. *)
Definition exact_policy (maxRetries : nat) (baseDelay : Z) : Prop :=
  (maxRetries <= 970)%nat /\ - 2 ^ 53 <= baseDelay <= 2 ^ 53.

(** The back-off delays [baseDelay * 2^k] for [k = i, ..., i+n-1]. *)
Definition backoff (baseDelay : Z) (i n : nat) : list Z :=
  map (fun k => baseDelay * 2 ^ Z.of_nat k) (seq i n).

Fixpoint has_dot (s : string) : bool :=
  match s with
  | EmptyString => false
  | String c rest => Ascii.eqb c "."%char || has_dot rest
  end.

Definition is_delete (r : Request) : bool :=
  match r with
  | RQuery q => match q_verb q with VDelete => true | _ => false end
  | RStorageRemove _ _ => true
  | _ => false
  end.

(** The cached user is the user of the cached session. *)
Definition consistent (a : AuthState) : Prop := user a = user_of (session a).

(** What can happen to the session context: the initial session arrives,
    the auth state changes, or [signOut] is called. *)
Inductive AuthEvent : Type :=
| InitialSession (session : option Session)
| StateChange (name : string) (session : option Session)
| SignOutCalled.

Definition handle {R} (e : AuthEvent) : M R unit :=
  match e with
  | InitialSession s => onInitialSession s
  | StateChange name s => onAuthStateChange name s
  | SignOutCalled => signOut
  end.

(** The world after the handlers of [es] have run one after the other. *)
Fixpoint play {R} (es : list AuthEvent) (w : World R) : World R :=
  match es with
  | [] => w
  | e :: rest => play rest (snd (handle e w))
  end.

Definition carries_session (e : AuthEvent) : bool :=
  match e with SignOutCalled => false | _ => true end.

Definition create_folder_request (u : User) (name : value) : Request :=
  RQuery (mkQuery "folders"
            (VInsert [VObj [("name", name); ("user_id", VStr (id u))]])
            [] []).

Definition remove_object (url : value) : Request := RStorageRemove "photos" [url].

Definition confirm_delete_media : string :=
  "Are you sure you want to delete this media item?".

(** The actions of a retried [window.fetch]: fetches of [url] with
    [init], waits for the 'online' event and timers. *)
Definition fetch_action (url : value) (init : list (string * value))
           (e : event) : Prop :=
  match e with
  | EvFetch u i => u = url /\ i = init
  | EvAwaitOnline | EvTimeout _ => True
  | _ => False
  end.

(** The actions of a retried thunk: calls, waits for the 'online' event
    and timers. *)
Definition thunk_action (e : event) : Prop :=
  match e with
  | EvInvoke | EvAwaitOnline | EvTimeout _ => True
  | _ => False
  end.

Definition is_sent (e : event) : bool :=
  match e with EvSent _ => true | _ => false end.

(** In any world, [m] sends at most [n] requests through the client. *)
Definition sends_at_most {R A} (n : nat) (m : M R A) : Prop :=
  forall w, exists tr,
    trace (snd (m w)) = trace w ++ tr /\ (count_of is_sent tr <= n)%nat.

(** [m] never ends by throwing. *)
Definition never_rejects {R A} (m : M R A) : Prop :=
  forall w e, fst (m w) <> Threw e.

(** Run in [w], [m] first performs [done]; the requests it sends after
    that all satisfy [Q], and the gallery it leaves satisfies [P]. *)
Definition ends_with {R A} (Q : Request -> Prop) (P : GalleryState -> Prop)
           (m : M R A) (w : World R) (done : list event) : Prop :=
  exists c w' tr,
    runs m w c w' (done ++ tr) /\ Forall (on_requests Q) tr /\ P (gallery w').

(** The four headers the custom fetch forces. *)
Definition forced_names : list string :=
  ["apikey"; "Authorization"; "Cache-Control"; "Pragma"]%string.

Definition is_forced (k : string) : bool :=
  existsb (fun n => (k =? n)%string) forced_names.

(** [options.headers], [undefined] when the options have none. *)
Definition headers_of (options : list (string * value)) : value :=
  match lookup "headers" options with Some h => h | None => VUndefined end.

End Laws.
Export Laws.

(* ================================================================== *)
(** * Further services and worlds *)
(* ================================================================== *)

Module MoreScenarios.
Import Scenarios.

(** A device that is offline and stays so. *)
Definition world_cut_off : World nat :=
  mkWorld (mkEnv counting_serve counting_fetch (fun _ => false) (fun _ => false)
                 "anon-key")
          0%nat 0 0 auth_alice gallery0 [].

(** A thunk that never settles. *)
Definition hanging (n : nat) : completion value * nat := (Suspended, S n).

(** A thunk that rejects with [undefined] every time. *)
Definition rejecting_undefined (n : nat) : completion Result * nat :=
  (Threw VUndefined, S n).

(** A thunk that rejects with an [Error] every time. *)
Definition rejecting (n : nat) : completion Result * nat :=
  (Threw (new_Error "Failed to fetch"), S n).

(** A network that refuses the first two fetches. *)
Definition shaky_fetch (url : value) (init : list (string * value)) (n : nat)
  : completion value * nat :=
  if (n <? 2)%nat then (Threw (new_Error "Failed to fetch"), S n)
  else (Returned (VObj [("status", VNum 200)]), S n).

Definition world_shaky : World nat :=
  mkWorld (mkEnv counting_serve shaky_fetch (fun _ => true) (fun _ => true)
                 "anon-key")
          0%nat 0 0 auth_alice gallery0 [].

(** Options of a request that come with headers of their own. *)
Definition caller_options : list (string * value) :=
  [("method", VStr "POST");
   ("headers", VObj [("apikey", VStr "stale"); ("Prefer", VStr "return=minimal")])].

(** Options whose headers are a [Headers] instance: it keeps its entries
    in an internal list and has no own enumerable property, which is all
    that an object spread looks at. *)
Definition instance_options : list (string * value) :=
  [("method", VStr "POST"); ("headers", VObj [])].

(** Options whose headers are an array of name-value pairs. *)
Definition pairs_options : list (string * value) :=
  [("headers", VArr [VArr [VStr "Prefer"; VStr "return=minimal"]])].

(** A gallery that already shows one item and one folder, inside "f1". *)
Definition gallery_shown : GalleryState :=
  mkGallery (VArr [VObj [("id", VStr "m1")]]) (VArr [VObj [("id", VStr "f1")]])
            false 0 (Some "f1"%string) VNull false true.

Definition world_shown_offline : World nat :=
  mkWorld (mkEnv counting_serve counting_fetch (fun _ => false) (fun _ => false)
                 "anon-key")
          0%nat 0 0 auth_alice gallery_shown [].

Definition item_m1 : value := VObj [("id", VStr "m1"); ("url", VStr "u1/0.1.png")].

(** A service that refuses to delete rows of [folders] and accepts
    everything else. *)
Definition locked_serve (r : Request) (n : nat) : completion Result * nat :=
  match r with
  | RQuery (mkQuery "folders" VDelete _ _) =>
      (Returned (mkResult VNull (new_Error "permission denied for table folders")),
       S n)
  | _ => (Returned (mkResult (VArr []) VNull), S n)
  end.

Definition world_locked : World nat :=
  mkWorld (mkEnv locked_serve counting_fetch (fun _ => true) (fun _ => true)
                 "anon-key")
          0%nat 0 0 auth_alice gallery_shown [].

(** A service on which every call stays pending. *)
Definition pending_serve (r : Request) (n : nat) : completion Result * nat :=
  (Suspended, S n).

Definition world_pending : World nat :=
  mkWorld (mkEnv pending_serve counting_fetch (fun _ => true) (fun _ => true)
                 "anon-key")
          0%nat 0 0 auth_alice gallery_shown [].

End MoreScenarios.

(* ================================================================== *)
(** * Properties of the retry wrapper *)
(* ================================================================== *)

Module RetryFacts.

Lemma invocations_schedule baseDelay N : forall i,
  invocations (schedule baseDelay i N) = S N.
Proof.
  induction N as [|n IH]; intro i; [reflexivity|].
  unfold invocations in *. simpl. now rewrite IH.
Qed.

Lemma delays_schedule baseDelay N : forall i,
  delays (schedule baseDelay i N)
  = map (fun k => baseDelay * 2 ^ Z.of_nat k) (seq i N).
Proof.
  induction N as [|n IH]; intro i; [reflexivity|].
  simpl. now rewrite IH.
Qed.

Lemma invocations_filter tr :
  invocations (calls_and_timers tr) = invocations tr.
Proof.
  unfold invocations, calls_and_timers.
  induction tr as [|e tr IH]; [reflexivity|].
  destruct e; simpl; auto; now rewrite IH.
Qed.

Lemma delays_filter tr : delays (calls_and_timers tr) = delays tr.
Proof.
  unfold calls_and_timers.
  induction tr as [|e tr IH]; [reflexivity|].
  destruct e; simpl; auto; now rewrite IH.
Qed.

Lemma calls_and_timers_app tr1 tr2 :
  calls_and_timers (tr1 ++ tr2) = calls_and_timers tr1 ++ calls_and_timers tr2.
Proof. apply filter_app. Qed.

Section Loop.
Context {R A : Type}.

(** The operation retried: in every world of environment [E0] it is the
    external action [ev] answered by the transition [f]. *)
Variable E0 : Env R.
Variable ev : event.
Variable f : R -> completion A * R.
Variable operation : M R A.
Hypothesis operation_is_external :
  forall w, env w = E0 -> operation w = external ev f w.
Hypothesis online_again : comes_back_online E0.

(** One turn of the loop, whatever the connectivity reading. *)
Lemma attempt_external maxRetries baseDelay i (w : World R) c s :
  env w = E0 ->
  f (remote w) = (c, s) ->
  exists w1 pre,
    (pre = [] \/ pre = [EvAwaitOnline]) /\
    match c with
    | Returned a =>
        attempt operation maxRetries baseDelay i w = (Returned (Return_ a), w1) /\
        trace w1 = trace w ++ pre ++ [ev]
    | Threw e =>
        attempt operation maxRetries baseDelay i w = (Returned (Next e), w1) /\
        trace w1 = trace w ++ pre ++ [ev]
                   ++ (if Z.of_nat i <? Z.of_nat maxRetries - 1
                       then [EvTimeout (baseDelay * 2 ^ Z.of_nat i)] else [])
    | Suspended =>
        attempt operation maxRetries baseDelay i w = (Suspended, w1) /\
        trace w1 = trace w ++ pre ++ [ev]
    end /\
    env w1 = E0 /\ remote w1 = s /\
    auth w1 = auth w /\ gallery w1 = gallery w.
Proof.
  intros HE Hf.
  unfold attempt, try_catch, bind, checkOnline, navigator_onLine, when,
    await_online_event, ret, await_timeout, log.
  destruct (onLine (env w) (reads w)) eqn:Eon; simpl.
  - rewrite operation_is_external by exact HE.
    unfold external; simpl. rewrite Hf.
    destruct c as [a|e|]; simpl;
      try destruct (Z.of_nat i <? Z.of_nat maxRetries - 1); simpl;
      (eexists; exists []; split; [now left|]);
      repeat split; simpl; rewrite <- ?app_assoc; auto.
  - rewrite HE, (online_again (waits w)); simpl.
    rewrite operation_is_external by reflexivity.
    unfold external; simpl. rewrite Hf.
    destruct c as [a|e|]; simpl;
      try destruct (Z.of_nat i <? Z.of_nat maxRetries - 1); simpl;
      (eexists; exists [EvAwaitOnline]; split; [now right|]);
      repeat split; simpl; rewrite <- ?app_assoc; auto.
Qed.

Hypothesis ev_is_no_wait : is_offline_wait ev = false.

Lemma calls_and_timers_turn pre (rest : list event) :
  pre = [] \/ pre = [EvAwaitOnline] ->
  calls_and_timers (pre ++ ev :: rest) = ev :: calls_and_timers rest.
Proof.
  intros [-> | ->]; unfold calls_and_timers; simpl;
    now rewrite ev_is_no_wait.
Qed.

(** After the rejections [es], a success ends the loop, provided the
    loop still has a turn for it. *)
Lemma retry_loop_succeeds s es s1 :
  rejections f s es s1 ->
  forall v s' maxRetries baseDelay todo i lastError (w : World R),
    env w = E0 -> remote w = s ->
    f s1 = (Returned v, s') ->
    (List.length es < todo)%nat ->
    (i + List.length es < maxRetries)%nat ->
    exists w' tr,
      retry_loop operation maxRetries baseDelay todo i lastError w
      = (Returned v, w') /\
      trace w' = trace w ++ tr /\
      calls_and_timers tr = schedule_of ev baseDelay i (List.length es) /\
      (exists tr0, tr = tr0 ++ [ev]) /\
      env w' = E0 /\ remote w' = s' /\
      auth w' = auth w /\ gallery w' = gallery w.
Proof.
  induction 1 as [s | s e s1 es s2 Hf Hrej IH];
    intros v s' maxRetries baseDelay todo i lastError w HE Hs Hok Htodo Hi;
    (destruct todo as [|todo]; [simpl in Htodo; lia|]);
    rewrite <- Hs in *.
  - destruct (attempt_external maxRetries baseDelay i w HE Hok)
      as (w1 & pre & Hpre & (Hrun & Htr) & HE1 & Hs1 & Ha & Hg).
    exists w1, (pre ++ [ev]). simpl. unfold bind. rewrite Hrun.
    repeat split; auto.
    + now rewrite calls_and_timers_turn.
    + now exists pre.
  - destruct (attempt_external maxRetries baseDelay i w HE Hf)
      as (w1 & pre & Hpre & (Hrun & Htr) & HE1 & Hs1 & Ha & Hg).
    simpl in Htodo, Hi.
    replace (Z.of_nat i <? Z.of_nat maxRetries - 1) with true in Htr
      by (symmetry; apply Z.ltb_lt; lia).
    destruct (IH v s' maxRetries baseDelay todo (S i) e w1 HE1 Hs1 Hok)
      as (w' & tr & Hloop & Htr' & Hsched & (tr0 & Hlast) & HE' & Hs' & Ha' & Hg');
      [lia | lia |].
    exists w', (pre ++ ev :: EvTimeout (baseDelay * 2 ^ Z.of_nat i) :: tr).
    simpl. unfold bind. rewrite Hrun. unfold ret. rewrite Hloop.
    repeat split; auto; try congruence.
    + rewrite Htr', Htr. now rewrite <- !app_assoc.
    + rewrite calls_and_timers_turn by exact Hpre.
      change (EvTimeout (baseDelay * 2 ^ Z.of_nat i) :: tr)
        with ([EvTimeout (baseDelay * 2 ^ Z.of_nat i)] ++ tr).
      rewrite calls_and_timers_app, Hsched. reflexivity.
    + exists (pre ++ ev :: EvTimeout (baseDelay * 2 ^ Z.of_nat i) :: tr0).
      rewrite Hlast, <- app_assoc. reflexivity.
Qed.

Lemma last_default_irrelevant (es : list value) : forall x d d',
  last (x :: es) d = last (x :: es) d'.
Proof.
  induction es as [|y es IH]; intros x d d'; [reflexivity|].
  change (last (y :: es) d = last (y :: es) d'). apply IH.
Qed.

Lemma last_cons_default (e : value) es d : last (e :: es) d = last es e.
Proof.
  destruct es as [|x es]; [reflexivity|].
  change (last (x :: es) d = last (x :: es) e).
  apply last_default_irrelevant.
Qed.

(** When every turn is used up by a rejection, the loop throws the last
    of them. *)
Lemma retry_loop_exhausted s es s' :
  rejections f s es s' ->
  forall maxRetries baseDelay i lastError (w : World R),
    env w = E0 -> remote w = s ->
    exists w' tr,
      retry_loop operation maxRetries baseDelay (List.length es) i lastError w
      = (Threw (last es lastError), w') /\
      trace w' = trace w ++ tr /\
      env w' = E0 /\ remote w' = s' /\
      auth w' = auth w /\ gallery w' = gallery w.
Proof.
  induction 1 as [s | s e s1 es s2 Hf Hrej IH];
    intros maxRetries baseDelay i lastError w HE Hs; rewrite <- Hs in *.
  - exists w, []. simpl. unfold throw. rewrite app_nil_r. repeat split; auto.
  - destruct (attempt_external maxRetries baseDelay i w HE Hf)
      as (w1 & pre & Hpre & (Hrun & Htr) & HE1 & Hs1 & Ha & Hg).
    destruct (IH maxRetries baseDelay (S i) e w1 HE1 Hs1)
      as (w' & tr & Hloop & Htr' & HE' & Hs' & Ha' & Hg').
    eexists w', _.
    simpl List.length. cbn [retry_loop]. unfold bind. rewrite Hrun, Hloop.
    rewrite last_cons_default.
    repeat split; auto; try congruence.
    rewrite Htr', Htr. rewrite <- !app_assoc. reflexivity.
Qed.

End Loop.

Lemma last_of_five (es : list value) d :
  List.length es = 5%nat -> last es d = nth 4 es d.
Proof.
  do 5 (destruct es as [|? es]; [discriminate|]).
  destruct es; [reflexivity | discriminate].
Qed.

(** C1.  With the default policy, an operation that rejects N <= 4 times
    and then resolves makes [withRetry] return that value: the thunk is
    called exactly N+1 times, the timers awaited are 1000*2^0, ...,
    1000*2^(N-1) in this order, one after each failed call, and the last
    action of the run is the successful call. *)
Theorem withRetry_transient_failures {R A : Type}
        (f : R -> completion A * R) (N : nat) (w : World R) (v : A) (s' : R) :
  (N <= 4)%nat ->
  comes_back_online (env w) ->
  fails_then_succeeds f N (remote w) v s' ->
  exists w' tr,
    withRetry_default (thunk f) w = (Returned v, w') /\
    trace w' = trace w ++ tr /\
    invocations tr = S N /\
    delays tr = map (fun k => 1000 * 2 ^ Z.of_nat k) (seq 0 N) /\
    calls_and_timers tr = schedule 1000 0 N /\
    (exists tr0, tr = tr0 ++ [EvInvoke]) /\
    remote w' = s'.
Proof.
  intros HN Hon (es & s1 & Hrej & Hlen & Hok).
  destruct (@retry_loop_succeeds R A (env w) EvInvoke f (thunk f)
              (fun _ _ => eq_refl) Hon eq_refl _ _ _ Hrej
              v s' 5%nat 1000 5%nat 0%nat VUndefined w eq_refl eq_refl Hok)
    as (w' & tr & Hrun & Htr & Hsched & Hlast & _ & Hs' & _); [lia | lia |].
  rewrite Hlen in Hsched.
  exists w', tr. repeat split; auto.
  - rewrite <- invocations_filter, Hsched. apply invocations_schedule.
  - rewrite <- delays_filter, Hsched. apply delays_schedule.
Qed.

Lemma withRetry_transient_failures_witness :
  exists w' tr,
    withRetry_default (thunk (Scenarios.flaky 2)) Scenarios.world_flicker
    = (Returned (VStr "done"), w') /\
    trace w' = trace Scenarios.world_flicker ++ tr /\
    invocations tr = 3%nat /\
    delays tr = [1000; 2000] /\
    calls_and_timers tr = [EvInvoke; EvTimeout 1000; EvInvoke; EvTimeout 2000; EvInvoke] /\
    (exists tr0, tr = tr0 ++ [EvInvoke]) /\
    remote w' = 3%nat.
Proof.
  apply (@withRetry_transient_failures nat value (Scenarios.flaky 2) 2
           Scenarios.world_flicker (VStr "done") 3%nat).
  - lia.
  - intro k; reflexivity.
  - exists [new_Error "timeout 0"; new_Error "timeout 1"], 2%nat.
    repeat split.
    repeat (eapply rej_cons; [reflexivity|]). apply rej_nil.
Defined.

(** C2.  With the default policy, an operation that rejects five times in
    a row makes [withRetry] throw the error of the fifth call, as it is;
    the client's custom fetch, in the same situation, logs that error and
    throws the generic connectivity error instead. *)
Theorem retries_exhausted {R : Type} :
  (forall (A : Type) (f : R -> completion A * R) (w : World R) es s',
      comes_back_online (env w) ->
      rejections f (remote w) es s' ->
      List.length es = 5%nat ->
      exists w' tr,
        withRetry_default (thunk f) w = (Threw (nth 4 es VUndefined), w') /\
        trace w' = trace w ++ tr /\ remote w' = s') /\
  (forall url options (w : World R) es s',
      comes_back_online (env w) ->
      rejections (fetch (env w) url (request_init (supabaseKey (env w)) options))
                 (remote w) es s' ->
      List.length es = 5%nat ->
      exists w' tr,
        customFetch url options w = (Threw (new_Error connectivity_message), w') /\
        trace w' = trace w ++ tr
                   ++ [EvConsoleError [VStr "Supabase fetch error:";
                                       nth 4 es VUndefined]] /\
        remote w' = s').
Proof.
  split.
  - intros A f w es s' Hon Hrej Hlen.
    destruct (@retry_loop_exhausted R A (env w) EvInvoke f (thunk f)
                (fun _ _ => eq_refl) Hon _ _ _ Hrej
                5%nat 1000 0%nat VUndefined w eq_refl eq_refl)
      as (w' & tr & Hrun & Htr & _ & Hs' & _).
    rewrite Hlen in Hrun. rewrite (last_of_five _ _ Hlen) in Hrun.
    exists w', tr. auto.
  - intros url options w es s' Hon Hrej Hlen.
    set (init := request_init (supabaseKey (env w)) options) in *.
    destruct (@retry_loop_exhausted R value (env w) (EvFetch url init)
                (fetch (env w) url init) (window_fetch url init))
      with (maxRetries := 5%nat) (baseDelay := 1000) (i := 0%nat)
           (lastError := VUndefined) (w := w) (s := remote w) (es := es) (s' := s')
      as (w' & tr & Hrun & Htr & HE' & Hs' & _); auto.
    { intros w0 H0. unfold window_fetch. now rewrite H0. }
    rewrite Hlen in Hrun. rewrite (last_of_five _ _ Hlen) in Hrun.
    unfold customFetch, try_catch, bind, api_key, withRetry_default, withRetry.
    fold init. rewrite Hrun.
    unfold console_error, log, throw. simpl.
    eexists; exists tr. repeat split; simpl; auto.
    now rewrite Htr, <- app_assoc.
Qed.

Lemma retries_exhausted_witness :
  (exists w' tr,
      withRetry_default (thunk (Scenarios.flaky 9)) Scenarios.world_flicker
      = (Threw (new_Error "timeout 4"), w') /\
      trace w' = trace Scenarios.world_flicker ++ tr /\ remote w' = 5%nat) /\
  (exists w' tr,
      customFetch (VStr "https://db.example/rest/v1/photos") [] Scenarios.world_down
      = (Threw (new_Error connectivity_message), w') /\
      trace w' = trace Scenarios.world_down ++ tr
                 ++ [EvConsoleError [VStr "Supabase fetch error:";
                                     new_Error "Failed to fetch #4"]] /\
      remote w' = 5%nat).
Proof.
  split.
  - apply (proj1 (@retries_exhausted nat) value (Scenarios.flaky 9)
             Scenarios.world_flicker
             (map (fun n => new_Error ("timeout " ++ number_to_string (Z.of_nat n)))
                  (seq 0 5)) 5%nat).
    + intro k; reflexivity.
    + repeat (eapply rej_cons; [reflexivity|]). apply rej_nil.
    + reflexivity.
  - apply (proj2 (@retries_exhausted nat) (VStr "https://db.example/rest/v1/photos")
             [] Scenarios.world_down
             (map (fun n => new_Error ("Failed to fetch #"
                                       ++ number_to_string (Z.of_nat n)))
                  (seq 0 5)) 5%nat).
    + intro k; reflexivity.
    + repeat (eapply rej_cons; [reflexivity|]). apply rej_nil.
    + reflexivity.
Defined.

End RetryFacts.

(* ================================================================== *)
(** * Properties of the operation helper *)
(* ================================================================== *)

Module OperationFacts.

Lemma prefix_append (a b : string) : String.prefix a (a ++ b) = true.
Proof.
  induction a as [|c a IH]; simpl.
  - now destruct b.
  - destruct (Ascii.ascii_dec c c) as [_|n]; [exact IH | now elim n].
Qed.

Lemma truthy_message (e : value) :
  truthy e = true -> exists m, get e "message" = inl m.
Proof. destruct e; simpl; try discriminate; eauto. Qed.

Lemma not_nullish_message (e : value) :
  nullish e = false -> exists m, get e "message" = inl m.
Proof. destruct e; simpl; try discriminate; eauto. Qed.

Lemma append_assoc (a b c : string) :
  ((a ++ b) ++ c = a ++ (b ++ c))%string.
Proof. induction a as [|x a IH]; simpl; [reflexivity | now rewrite IH]. Qed.

Lemma append_empty_r (a : string) : (a ++ "" = a)%string.
Proof. induction a as [|x a IH]; simpl; [reflexivity | now rewrite IH]. Qed.

Lemma occurs_in_suffix (a b : string) : occurs_in b (a ++ b).
Proof. exists a, ""%string. now rewrite append_empty_r. Qed.

Lemma occurs_in_empty (s : string) : occurs_in "" s.
Proof. now exists ""%string, s. Qed.

Lemma reported_contains (label msg : string) :
  occurs_in msg (reported label (VStr msg)).
Proof.
  unfold reported, or_else. cbn [truthy].
  destruct (msg =? "")%string eqn:E; cbn [negb to_string].
  - apply String.eqb_eq in E. subst. apply occurs_in_empty.
  - rewrite <- append_assoc. apply occurs_in_suffix.
Qed.

Section Helper.
Context {R : Type}.
Variable operation : M R Result.
Variable label : string.

Ltac enter_helper Hon :=
  unfold supabaseOperation, bind at 1, checkOnline, navigator_onLine;
  rewrite Hon; cbn [negb].

Ltac open_check H :=
  unfold after_online_check, checkOnline, navigator_onLine in H; cbn [snd] in H.

(** The three ways the helper ends once the retried thunk has resolved
    to [r]. *)
Lemma resolved_run (w w2 : World R) (r : Result) :
  onLine (env w) (reads w) = true ->
  withRetry_default operation (after_online_check w) = (Returned r, w2) ->
  supabaseOperation operation label w
  = if truthy (error r) then
      match get (error r) "message" with
      | inl m =>
          (Threw (new_Error (reported label m)),
           snd (console_error [VStr (label ++ ":")%string; error r]
                  (snd (console_error [VStr (label ++ ":")%string; error r] w2))))
      | inr t =>
          (Threw t, snd (console_error [VStr (label ++ ":")%string; error r] w2))
      end
    else if negb (truthy (data r)) then
      (Threw (new_Error (label ++ ": No data returned from server")),
       snd (console_error
              [VStr (label ++ ":")%string; new_Error "No data returned from server"] w2))
    else (Returned (data r), w2).
Proof.
  intros Hon Hrun. open_check Hrun. enter_helper Hon.
  unfold try_catch, bind at 1. rewrite Hrun.
  destruct (truthy (error r)) eqn:Eerr.
  - unfold bind at 1. cbn [console_error log throw].
    destruct (truthy_message _ Eerr) as (m & Hm). rewrite Hm.
    unfold bind, read. rewrite Hm. reflexivity.
  - destruct (truthy (data r)); cbn [negb]; reflexivity.
Qed.

(** What happens when the retried thunk has used up its turns with [x]. *)
Lemma rejected_run (w w2 : World R) (x : value) :
  onLine (env w) (reads w) = true ->
  withRetry_default operation (after_online_check w) = (Threw x, w2) ->
  supabaseOperation operation label w
  = match get x "message" with
    | inl m =>
        (Threw (new_Error (reported label m)),
         snd (console_error [VStr (label ++ ":")%string; x] w2))
    | inr t => (Threw t, w2)
    end.
Proof.
  intros Hon Hrun. open_check Hrun. enter_helper Hon.
  unfold try_catch, bind at 1. rewrite Hrun.
  unfold bind, read. destruct (get x "message"); reflexivity.
Qed.

Lemma suspended_run (w w2 : World R) :
  onLine (env w) (reads w) = true ->
  withRetry_default operation (after_online_check w) = (Suspended, w2) ->
  supabaseOperation operation label w = (Suspended, w2).
Proof.
  intros Hon Hrun. open_check Hrun. enter_helper Hon.
  unfold try_catch, bind at 1. now rewrite Hrun.
Qed.

Lemma offline_run (w : World R) :
  onLine (env w) (reads w) = false ->
  supabaseOperation operation label w
  = (Threw (new_Error offline_message), after_online_check w).
Proof. intro Hoff. enter_helper Hoff. reflexivity. Qed.

End Helper.

(** C4, as the code has it.  Offline, the helper throws the offline error
    at once and leaves the thunk alone.  Online, once the retried thunk
    has resolved to [r]: a set [error] is thrown again as
    [label: message], the message being the error's own when it has one
    and a stock text otherwise; with no error, falsy [data] (null,
    undefined, false, 0, the empty string) gives the no-data error under
    the same label; any other [data] is returned. *)
Theorem supabaseOperation_outcomes {R : Type}
        (operation : M R Result) (label : string) (w : World R) :
  (onLine (env w) (reads w) = false ->
   supabaseOperation operation label w
   = (Threw (new_Error offline_message), after_online_check w) /\
   trace (after_online_check w) = trace w /\
   remote (after_online_check w) = remote w) /\
  (onLine (env w) (reads w) = true ->
   forall r w2,
     withRetry_default operation (after_online_check w) = (Returned r, w2) ->
     (truthy (error r) = true ->
      exists m w3,
        get (error r) "message" = inl m /\
        supabaseOperation operation label w
        = (Threw (new_Error (reported label m)), w3) /\
        String.prefix label (reported label m) = true /\
        (forall msg, m = VStr msg -> occurs_in msg (reported label m))) /\
     (truthy (error r) = false -> truthy (data r) = false ->
      exists w3,
        supabaseOperation operation label w
        = (Threw (new_Error (label ++ ": No data returned from server")), w3)) /\
     (truthy (error r) = false -> truthy (data r) = true ->
      supabaseOperation operation label w = (Returned (data r), w2))).
Proof.
  split.
  - intro Hoff. split; [now apply offline_run | split; reflexivity].
  - intros Hon r w2 Hrun.
    pose proof (resolved_run operation label w Hon Hrun) as Hres.
    repeat split.
    + intro Herr. rewrite Herr in Hres.
      destruct (truthy_message _ Herr) as (m & Hm). rewrite Hm in Hres.
      exists m. eexists. repeat split; [exact Hm | exact Hres | | ].
      * apply prefix_append.
      * intros msg ->. apply reported_contains.
    + intros Herr Hdata. rewrite Herr, Hdata in Hres. eexists. exact Hres.
    + intros Herr Hdata. now rewrite Herr, Hdata in Hres.
Qed.

Lemma supabaseOperation_outcomes_witness :
  (supabaseOperation (Scenarios.resolves Scenarios.two_rows) "Error fetching media"
                     Scenarios.world_offline
   = (Threw (new_Error offline_message),
      after_online_check Scenarios.world_offline) /\
   trace (after_online_check Scenarios.world_offline) = [] /\
   remote (after_online_check Scenarios.world_offline) = 0%nat) /\
  (exists m w3,
      get (error Scenarios.denied) "message" = inl m /\
      supabaseOperation (Scenarios.resolves Scenarios.denied) "Error fetching media"
                        Scenarios.world_online
      = (Threw (new_Error (reported "Error fetching media" m)), w3) /\
      String.prefix "Error fetching media" (reported "Error fetching media" m) = true /\
      (forall msg, m = VStr msg -> occurs_in msg (reported "Error fetching media" m))) /\
  (exists w3,
      supabaseOperation (Scenarios.resolves Scenarios.nothing) "Error fetching media"
                        Scenarios.world_online
      = (Threw (new_Error "Error fetching media: No data returned from server"), w3)) /\
  (exists w2,
      supabaseOperation (Scenarios.resolves Scenarios.two_rows) "Error fetching media"
                        Scenarios.world_online
      = (Returned (data Scenarios.two_rows), w2)).
Proof.
  split; [|split; [|split]].
  - apply (proj1 (supabaseOperation_outcomes (Scenarios.resolves Scenarios.two_rows)
                    "Error fetching media" Scenarios.world_offline)).
    reflexivity.
  - refine (proj1 (proj2 (supabaseOperation_outcomes
                            (Scenarios.resolves Scenarios.denied)
                            "Error fetching media" Scenarios.world_online)
                         eq_refl Scenarios.denied _ eq_refl) eq_refl).
  - refine (proj1 (proj2 (proj2 (supabaseOperation_outcomes
                            (Scenarios.resolves Scenarios.nothing)
                            "Error fetching media" Scenarios.world_online)
                         eq_refl Scenarios.nothing _ eq_refl)) eq_refl eq_refl).
  - eexists.
    refine (proj2 (proj2 (proj2 (supabaseOperation_outcomes
                            (Scenarios.resolves Scenarios.two_rows)
                            "Error fetching media" Scenarios.world_online)
                         eq_refl Scenarios.two_rows _ eq_refl)) eq_refl eq_refl).
Defined.

(** C4 as stated fails on data that is present but falsy: a thunk that
    resolves to [{ data: 0, error: null }] on a device that is online
    does not get its data back, the helper throws the no-data error. *)
Lemma supabaseOperation_zero_data_counterexample :
  onLine (env Scenarios.world_online) (reads Scenarios.world_online) = true /\
  truthy (error Scenarios.zero_count) = false /\
  data Scenarios.zero_count <> VNull /\
  data Scenarios.zero_count <> VUndefined /\
  fst (supabaseOperation (Scenarios.resolves Scenarios.zero_count)
                         "Error counting media" Scenarios.world_online)
  = Threw (new_Error "Error counting media: No data returned from server") /\
  fst (supabaseOperation (Scenarios.resolves Scenarios.zero_count)
                         "Error counting media" Scenarios.world_online)
  <> Returned (data Scenarios.zero_count).
Proof.
  repeat split; try reflexivity; try discriminate.
Qed.

(** C5, as the code has it.  Offline, the error thrown carries the fixed
    offline text.  Online, every error thrown carries a message that
    starts with the label, as long as the thunk did not use up its turns
    rejecting with null or undefined. *)
Theorem supabaseOperation_errors_labelled {R : Type}
        (operation : M R Result) (label : string) (w : World R) (e : value)
        (w' : World R) :
  supabaseOperation operation label w = (Threw e, w') ->
  (onLine (env w) (reads w) = false -> e = new_Error offline_message) /\
  (onLine (env w) (reads w) = true ->
   (forall x w2,
       withRetry_default operation (after_online_check w) = (Threw x, w2) ->
       nullish x = false) ->
   exists cause,
     e = new_Error (label ++ ": " ++ cause) /\
     String.prefix label (label ++ ": " ++ cause) = true).
Proof.
  intro Hthrow. split.
  - intro Hoff. rewrite (offline_run operation label w Hoff) in Hthrow.
    congruence.
  - intros Hon Hnn.
    destruct (withRetry_default operation (after_online_check w))
      as [[r | x |] w2] eqn:Hrun.
    + rewrite (resolved_run operation label w Hon Hrun) in Hthrow.
      destruct (truthy (error r)) eqn:Herr.
      * destruct (truthy_message _ Herr) as (m & Hm). rewrite Hm in Hthrow.
        eexists. split; [|apply prefix_append].
        unfold reported in Hthrow. injection Hthrow as <- _. reflexivity.
      * destruct (truthy (data r)); cbn [negb] in Hthrow; [discriminate|].
        eexists. split; [|apply prefix_append].
        injection Hthrow as <- _. reflexivity.
    + rewrite (rejected_run operation label w Hon Hrun) in Hthrow.
      destruct (not_nullish_message _ (Hnn _ _ eq_refl)) as (m & Hm).
      rewrite Hm in Hthrow.
      eexists. split; [|apply prefix_append].
      unfold reported in Hthrow. injection Hthrow as <- _. reflexivity.
    + rewrite (suspended_run operation label w Hon Hrun) in Hthrow.
      discriminate.
Qed.

Lemma supabaseOperation_errors_labelled_witness :
  (onLine (env Scenarios.world_online) (reads Scenarios.world_online) = false ->
   new_Error "Error fetching media: permission denied for table photos"
   = new_Error offline_message) /\
  (onLine (env Scenarios.world_online) (reads Scenarios.world_online) = true ->
   (forall x w2,
       withRetry_default (Scenarios.resolves Scenarios.denied)
                         (after_online_check Scenarios.world_online)
       = (Threw x, w2) ->
       nullish x = false) ->
   exists cause,
     new_Error "Error fetching media: permission denied for table photos"
     = new_Error ("Error fetching media" ++ ": " ++ cause) /\
     String.prefix "Error fetching media" ("Error fetching media" ++ ": " ++ cause)
     = true).
Proof.
  apply (@supabaseOperation_errors_labelled nat
           (Scenarios.resolves Scenarios.denied) "Error fetching media"
           Scenarios.world_online
           (new_Error "Error fetching media: permission denied for table photos")
           (snd (supabaseOperation (Scenarios.resolves Scenarios.denied)
                                   "Error fetching media" Scenarios.world_online))).
  reflexivity.
Defined.

(** C5 as stated fails on the offline path: the error thrown there does
    not start with the label. *)
Lemma offline_error_unlabelled_counterexample :
  onLine (env Scenarios.world_offline) (reads Scenarios.world_offline) = false /\
  fst (supabaseOperation (Scenarios.resolves Scenarios.two_rows)
                         "Error fetching media" Scenarios.world_offline)
  = Threw (new_Error "You are currently offline. Please check your internet connection.") /\
  String.prefix "Error fetching media"
    "You are currently offline. Please check your internet connection." = false.
Proof. repeat split. Qed.

End OperationFacts.

(* ================================================================== *)
(** * What a computation can send *)
(* ================================================================== *)

Module TraceFacts.
Section TraceFacts.
Context {R : Type}.
Variable Q : Request -> Prop.

Lemma performed_eq {A} (m : M R A) (w : World R) tr :
  trace (snd (m w)) = trace w ++ tr -> performed m w = tr.
Proof.
  intro H. unfold performed. rewrite H.
  rewrite skipn_app, skipn_all, Nat.sub_diag. reflexivity.
Qed.

Lemma rs_ret {A} (a : A) : requests_satisfy Q (@ret R A a).
Proof. intro w; exists []. simpl. now rewrite app_nil_r. Qed.

Lemma rs_throw {A} (e : value) : requests_satisfy Q (@throw R A e).
Proof. intro w; exists []. simpl. now rewrite app_nil_r. Qed.

Lemma rs_bind {A B} (m : M R A) (k : A -> M R B) :
  requests_satisfy Q m -> (forall a, requests_satisfy Q (k a)) ->
  requests_satisfy Q (bind m k).
Proof.
  intros Hm Hk w. destruct (Hm w) as (tr1 & E1 & F1).
  unfold bind. destruct (m w) as [[a | e |] w1]; simpl in *.
  - destruct (Hk a w1) as (tr2 & E2 & F2).
    exists (tr1 ++ tr2). rewrite E2, E1, app_assoc. split; auto.
    apply Forall_app; auto.
  - now exists tr1.
  - now exists tr1.
Qed.

Lemma rs_try_catch {A} (m : M R A) (h : value -> M R A) :
  requests_satisfy Q m -> (forall e, requests_satisfy Q (h e)) ->
  requests_satisfy Q (try_catch m h).
Proof.
  intros Hm Hh w. destruct (Hm w) as (tr1 & E1 & F1).
  unfold try_catch. destruct (m w) as [[a | e |] w1]; simpl in *.
  - now exists tr1.
  - destruct (Hh e w1) as (tr2 & E2 & F2).
    exists (tr1 ++ tr2). rewrite E2, E1, app_assoc. split; auto.
    apply Forall_app; auto.
  - now exists tr1.
Qed.

Lemma rs_try_finally {A} (m : M R A) (f : M R unit) :
  requests_satisfy Q m -> requests_satisfy Q f ->
  requests_satisfy Q (try_finally m f).
Proof.
  intros Hm Hf w. destruct (Hm w) as (tr1 & E1 & F1).
  unfold try_finally. destruct (m w) as [[a | e |] w1]; simpl in *.
  - destruct (@rs_bind unit A f (fun _ => ret a) Hf (fun _ => rs_ret a) w1)
      as (tr2 & E2 & F2).
    exists (tr1 ++ tr2). rewrite E2, E1, app_assoc. split; auto.
    apply Forall_app; auto.
  - destruct (@rs_bind unit A f (fun _ => throw e) Hf (fun _ => rs_throw e) w1)
      as (tr2 & E2 & F2).
    exists (tr1 ++ tr2). rewrite E2, E1, app_assoc. split; auto.
    apply Forall_app; auto.
  - now exists tr1.
Qed.

Lemma rs_spawn (m : M R unit) :
  requests_satisfy Q m -> requests_satisfy Q (spawn m).
Proof.
  intros Hm w. destruct (Hm w) as (tr1 & E1 & F1).
  unfold spawn. destruct (m w) as [[a | e |] w1]; simpl in *.
  - now exists tr1.
  - exists (tr1 ++ [EvUnhandledRejection e]). rewrite E1, app_assoc.
    split; auto. apply Forall_app; split; auto. repeat constructor.
  - now exists tr1.
Qed.

Lemma rs_when (c : bool) (m : M R unit) :
  requests_satisfy Q m -> requests_satisfy Q (when c m).
Proof. destruct c; simpl; auto using rs_ret. Qed.

Lemma rs_log (e : event) : on_requests Q e -> requests_satisfy Q (@log R e).
Proof. intros He w. exists [e]. simpl. split; auto. Qed.

Lemma rs_silent {A} (m : M R A) :
  (forall w, trace (snd (m w)) = trace w) -> requests_satisfy Q m.
Proof. intros H w. exists []. rewrite app_nil_r. auto. Qed.

Lemma rs_read (v : value) (k : string) : requests_satisfy Q (@read R v k).
Proof. unfold read. destruct (get v k); [apply rs_ret | apply rs_throw]. Qed.

Lemma rs_send (r : Request) : Q r -> requests_satisfy Q (@send R r).
Proof.
  intros Hr w. exists [EvSent r]. unfold send, external.
  destruct (serve (env w) r (remote w)); simpl. split; auto.
Qed.

Lemma rs_external {A} (e : event) (f : R -> completion A * R) :
  on_requests Q e -> requests_satisfy Q (external e f).
Proof.
  intros He w. exists [e]. unfold external.
  destruct (f (remote w)); simpl. split; auto.
Qed.

Lemma rs_checkOnline : requests_satisfy Q (@checkOnline R).
Proof. apply rs_silent. reflexivity. Qed.

Lemma rs_await_online : requests_satisfy Q (@await_online_event R).
Proof.
  intro w. exists [EvAwaitOnline]. unfold await_online_event.
  destruct (onlineFires (env w) (waits w)); simpl; split; auto;
    repeat constructor.
Qed.

Lemma rs_attempt {A} (operation : M R A) maxRetries baseDelay i :
  requests_satisfy Q operation ->
  requests_satisfy Q (attempt operation maxRetries baseDelay i).
Proof.
  intro Hop. unfold attempt. apply rs_try_catch.
  - apply rs_bind; [apply rs_checkOnline | intro online].
    apply rs_bind; [apply rs_when, rs_await_online | intros _].
    apply rs_bind; [exact Hop | intro a; apply rs_ret].
  - intro e. apply rs_bind; [|intros _; apply rs_ret].
    apply rs_when. now apply rs_log.
Qed.

Lemma rs_retry_loop {A} (operation : M R A) maxRetries baseDelay todo :
  requests_satisfy Q operation ->
  forall i lastError,
    requests_satisfy Q (retry_loop operation maxRetries baseDelay todo i lastError).
Proof.
  intro Hop. induction todo as [|todo IH]; intros i lastError; simpl.
  - apply rs_throw.
  - apply rs_bind; [now apply rs_attempt | intros [a | e]];
      [apply rs_ret | apply IH].
Qed.

Lemma rs_withRetry {A} (operation : M R A) maxRetries baseDelay :
  requests_satisfy Q operation ->
  requests_satisfy Q (withRetry operation maxRetries baseDelay).
Proof. intro Hop. now apply rs_retry_loop. Qed.

Lemma rs_supabaseOperation (operation : M R Result) (label : string) :
  requests_satisfy Q operation ->
  requests_satisfy Q (supabaseOperation operation label).
Proof.
  intro Hop. unfold supabaseOperation.
  apply rs_bind; [apply rs_checkOnline | intro online].
  destruct (negb online); [apply rs_throw|].
  apply rs_try_catch.
  - apply rs_bind; [now apply rs_withRetry | intro r].
    destruct (truthy (error r)).
    + apply rs_bind; [now apply rs_log | intros _; apply rs_throw].
    + destruct (negb (truthy (data r))); [apply rs_throw | apply rs_ret].
  - intro e. apply rs_bind; [apply rs_read | intro m].
    apply rs_bind; [now apply rs_log | intros _; apply rs_throw].
Qed.

End TraceFacts.
End TraceFacts.

(* ================================================================== *)
(** * Properties of the session context *)
(* ================================================================== *)

Module AuthFacts.
Import AuthContext.

(** The run of [signOut], by the answer of the remote sign-out. *)
Lemma signOut_run {R : Type} (w : World R) :
  let cleared := mkAuth None None (loading (auth w)) in
  let answer := serve (env w) RAuthSignOut (remote w) in
  signOut w =
  match fst answer with
  | Returned r =>
      (Returned tt,
       mkWorld (env w) (snd answer) (reads w) (waits w) cleared (gallery w)
               (trace w ++ [EvSent RAuthSignOut]
                ++ if truthy (error r)
                   then [EvConsoleError [VStr "Error signing out:"; error r]]
                   else []))
  | Threw e =>
      (Returned tt,
       mkWorld (env w) (snd answer) (reads w) (waits w) cleared (gallery w)
               (trace w ++ [EvSent RAuthSignOut;
                            EvConsoleError [VStr "Error signing out:"; e]]))
  | Suspended =>
      (Suspended,
       mkWorld (env w) (snd answer) (reads w) (waits w) (auth w) (gallery w)
               (trace w ++ [EvSent RAuthSignOut]))
  end.
Proof.
  unfold signOut, try_catch, bind, send, external. simpl.
  destruct (serve (env w) RAuthSignOut (remote w)) as [[r | e |] s]; simpl.
  - destruct (truthy (error r)); simpl; rewrite <- ?app_assoc; reflexivity.
  - rewrite <- app_assoc. reflexivity.
  - reflexivity.
Qed.

(** C6.  Whenever a call of [signOut] completes, the cached user and
    session are both null, whether the remote sign-out succeeded, answered
    with an error or threw. *)
Theorem signOut_clears_local_state {R : Type} (w w' : World R)
        (c : completion unit) :
  signOut w = (c, w') ->
  c <> Suspended ->
  user (auth w') = None /\ session (auth w') = None.
Proof.
  rewrite signOut_run. cbv zeta.
  destruct (fst (serve (env w) RAuthSignOut (remote w))) as [r | e |];
    intros H Hc; inversion H; subst; simpl; auto.
  now elim Hc.
Qed.

Lemma signOut_clears_local_state_witness :
  (user (auth Scenarios.world_throwing) = Some Scenarios.alice /\
   user (auth (snd (signOut Scenarios.world_throwing))) = None /\
   session (auth (snd (signOut Scenarios.world_throwing))) = None) /\
  (user (auth (snd (signOut Scenarios.world_erring))) = None /\
   session (auth (snd (signOut Scenarios.world_erring))) = None) /\
  (user (auth (snd (signOut Scenarios.world_alice))) = None /\
   session (auth (snd (signOut Scenarios.world_alice))) = None).
Proof.
  split; [split; [reflexivity|] | split].
  - apply (@signOut_clears_local_state nat Scenarios.world_throwing _ (Returned tt)).
    + reflexivity.
    + discriminate.
  - apply (@signOut_clears_local_state nat Scenarios.world_erring _ (Returned tt)).
    + reflexivity.
    + discriminate.
  - apply (@signOut_clears_local_state nat Scenarios.world_alice _ (Returned tt)).
    + reflexivity.
    + discriminate.
Defined.

(** C10.  [signOut] never throws; it returns as soon as the remote
    sign-out settles, be it with a result, an error object or an
    exception. *)
Theorem signOut_never_rejects {R : Type} (w : World R) :
  (forall e w', signOut w <> (Threw e, w')) /\
  (fst (serve (env w) RAuthSignOut (remote w)) <> Suspended ->
   exists w', signOut w = (Returned tt, w')).
Proof.
  rewrite signOut_run. cbv zeta.
  destruct (fst (serve (env w) RAuthSignOut (remote w))) as [r | e |];
    split; try discriminate; intro H; eauto.
  now elim H.
Qed.

Lemma signOut_never_rejects_witness :
  exists w', signOut Scenarios.world_throwing = (Returned tt, w').
Proof.
  apply (proj2 (signOut_never_rejects Scenarios.world_throwing)).
  discriminate.
Defined.

End AuthFacts.

(* ================================================================== *)
(** * Properties of the gallery *)
(* ================================================================== *)

Module GalleryFacts.
Import Gallery TraceFacts.

Section Listings.
Context {R : Type}.

Lemma retry_loop_step {A} (operation : M R A) maxRetries baseDelay todo i e :
  retry_loop operation maxRetries baseDelay (S todo) i e
  = (t <- attempt operation maxRetries baseDelay i ;;
     match t with
     | Return_ a => ret a
     | Next e' => retry_loop operation maxRetries baseDelay todo (S i) e'
     end).
Proof. reflexivity. Qed.

Lemma rs_update_gallery (Q : Request -> Prop) f :
  requests_satisfy Q (@update_gallery R f).
Proof. apply rs_silent. reflexivity. Qed.

Lemma rs_weaken {A} (Q : Request -> Prop) (m : M R A) :
  requests_satisfy Q m -> appends m.
Proof.
  intros H w. destruct (H w) as (tr & E & F). exists tr. split; auto.
  clear E. induction F as [|e tr He _ IH]; constructor; auto.
  now destruct e.
Qed.

Lemma performed_in {A} (Q : Request -> Prop) (m : M R A) (w : World R) r :
  requests_satisfy Q m -> In (EvSent r) (performed m w) -> Q r.
Proof.
  intros H Hin. destruct (H w) as (tr & E & F).
  rewrite (@performed_eq _ _ m w tr E) in Hin.
  rewrite Forall_forall in F. exact (F _ Hin).
Qed.

Lemma starts_bind {A B} e (m : M R A) (k : A -> M R B) w :
  starts_with e m w -> (forall a, appends (k a)) -> starts_with e (bind m k) w.
Proof.
  intros (tr & Hm) Hk. unfold starts_with, performed, bind in *.
  destruct (m w) as [[a | x |] w1]; simpl in *; eauto.
  destruct (Hk a w1) as (tr2 & E2 & _). rewrite E2.
  assert (Hlen : (List.length (trace w) <= List.length (trace w1))%nat).
  { destruct (Nat.le_gt_cases (List.length (trace w)) (List.length (trace w1)));
      auto. rewrite skipn_all2 in Hm by lia. discriminate. }
  rewrite skipn_app, Hm.
  replace (List.length (trace w) - List.length (trace w1))%nat with 0%nat by lia.
  simpl. eauto.
Qed.

Lemma starts_try_catch {A} e (m : M R A) (h : value -> M R A) w :
  starts_with e m w -> (forall x, appends (h x)) ->
  starts_with e (try_catch m h) w.
Proof.
  intros (tr & Hm) Hh. unfold starts_with, performed, try_catch in *.
  destruct (m w) as [[a | x |] w1]; simpl in *; eauto.
  destruct (Hh x w1) as (tr2 & E2 & _). rewrite E2.
  assert (Hlen : (List.length (trace w) <= List.length (trace w1))%nat).
  { destruct (Nat.le_gt_cases (List.length (trace w)) (List.length (trace w1)));
      auto. rewrite skipn_all2 in Hm by lia. discriminate. }
  rewrite skipn_app, Hm.
  replace (List.length (trace w) - List.length (trace w1))%nat with 0%nat by lia.
  simpl. eauto.
Qed.

Lemma starts_after {A B} e (m : M R A) (k : A -> M R B) w a w1 :
  m w = (Returned a, w1) -> trace w1 = trace w ->
  starts_with e (k a) w1 -> starts_with e (bind m k) w.
Proof.
  intros Hm Htr (tr & Hk). exists tr.
  unfold performed, bind in *. rewrite Hm. now rewrite <- Htr.
Qed.

Lemma starts_send (r : Request) (w : World R) : starts_with (EvSent r) (send r) w.
Proof.
  exists []. apply @performed_eq. unfold send, external.
  now destruct (serve (env w) r (remote w)).
Qed.

(** [fetchMedia] sends nothing but its listing of [photos]. *)
Lemma rs_fetchMedia (c : Closure) (u : User) :
  c_user c = Some u ->
  requests_satisfy (fun r => r = media_listing (id u) (c_currentFolder c))
                   (@fetchMedia R c).
Proof.
  intro Hu. unfold fetchMedia. rewrite Hu.
  apply rs_try_catch.
  - apply rs_bind; [|intro d; apply rs_update_gallery].
    apply rs_supabaseOperation, rs_send.
    unfold media_listing, folder_condition.
    destruct (c_currentFolder c) as [f|]; simpl; [|reflexivity].
    destruct (f =? "")%string; reflexivity.
  - intro e. apply rs_bind; [now apply rs_log | intros _; apply rs_throw].
Qed.

Lemma rs_fetchMedia_any (Q : Request -> Prop) (c : Closure) :
  (forall u, c_user c = Some u -> Q (media_listing (id u) (c_currentFolder c))) ->
  requests_satisfy Q (@fetchMedia R c).
Proof.
  intro HQ. destruct (c_user c) as [u|] eqn:Hu.
  - intro w. destruct (rs_fetchMedia c Hu w) as (tr & E & F).
    exists tr. split; auto.
    clear E. induction F as [|e tr He _ IH]; constructor; auto.
    destruct e; simpl in *; auto. subst. now apply HQ.
  - unfold fetchMedia. rewrite Hu. apply rs_ret.
Qed.

(** [fetchFolders] sends nothing but its listing of [folders]. *)
Lemma rs_fetchFolders (c : Closure) (u : User) :
  c_user c = Some u ->
  requests_satisfy (fun r => r = folder_listing (id u)) (@fetchFolders R c).
Proof.
  intro Hu. unfold fetchFolders. rewrite Hu.
  apply rs_try_catch.
  - apply rs_bind; [|intro d; apply rs_update_gallery].
    apply rs_supabaseOperation, rs_send. reflexivity.
  - intro e. apply rs_bind; [now apply rs_log | intros _; apply rs_throw].
Qed.

Lemma rs_fetchFolders_any (Q : Request -> Prop) (c : Closure) :
  (forall u, c_user c = Some u -> Q (folder_listing (id u))) ->
  requests_satisfy Q (@fetchFolders R c).
Proof.
  intro HQ. destruct (c_user c) as [u|] eqn:Hu.
  - intro w. destruct (rs_fetchFolders c Hu w) as (tr & E & F).
    exists tr. split; auto.
    clear E. induction F as [|e tr He _ IH]; constructor; auto.
    destruct e; simpl in *; auto. subst. now apply HQ.
  - unfold fetchFolders. rewrite Hu. apply rs_ret.
Qed.

(** On a device that is online, the listing is the first thing
    [fetchMedia] does. *)
Lemma fetchMedia_starts (c : Closure) (u : User) (w : World R) :
  c_user c = Some u ->
  onLine (env w) (reads w) = true ->
  onLine (env w) (S (reads w)) = true ->
  starts_with (EvSent (media_listing (id u) (c_currentFolder c)))
              (fetchMedia c) w.
Proof.
  intros Hu H0 H1. unfold fetchMedia. rewrite Hu.
  apply starts_try_catch;
    [|intro e; apply rs_bind; [now apply rs_log | intros _; apply rs_throw]].
  apply starts_bind; [|intro d; apply rs_update_gallery].
  unfold supabaseOperation.
  eapply starts_after; [reflexivity | reflexivity |].
  rewrite H0. cbn [negb].
  apply starts_try_catch;
    [|intro e; apply rs_bind; [apply rs_read | intro m];
      apply rs_bind; [now apply rs_log | intros _; apply rs_throw]].
  apply starts_bind.
  2:{ intro r. destruct (truthy (error r)).
      - apply rs_bind; [now apply rs_log | intros _; apply rs_throw].
      - destruct (negb (truthy (data r))); [apply rs_throw | apply rs_ret]. }
  unfold withRetry_default, withRetry. rewrite retry_loop_step.
  apply starts_bind.
  2:{ intros [a | e]; [apply rs_ret|].
      apply rs_retry_loop, rs_send. exact I. }
  unfold attempt.
  apply starts_try_catch.
  2:{ intro e. apply rs_bind; [|intros _; apply rs_ret].
      apply rs_when. now apply rs_log. }
  eapply starts_after; [reflexivity | reflexivity |].
  cbn [env reads]. rewrite H1. cbn [negb when].
  eapply starts_after; [reflexivity | reflexivity |].
  apply starts_bind; [|intro a; apply rs_ret].
  replace (media_listing (id u) (c_currentFolder c))
    with (RQuery
            (if truthy (nullable (c_currentFolder c))
             then from "photos" |> select "*" |> eq_ "uploaded_by" (VStr (id u))
                  |> order "created_at" false
                  |> eq_ "folder_id" (nullable (c_currentFolder c))
             else from "photos" |> select "*" |> eq_ "uploaded_by" (VStr (id u))
                  |> order "created_at" false
                  |> filter_ "folder_id" "is" VNull)).
  - apply starts_send.
  - unfold media_listing, folder_condition.
    destruct (c_currentFolder c) as [f|]; simpl; [|reflexivity].
    destruct (f =? "")%string; reflexivity.
Qed.

Lemma rs_bind_read {A} (Q : Request -> Prop) (v : value) (k : string)
      (kont : value -> M R A) :
  (forall x, get v k = inl x -> requests_satisfy Q (kont x)) ->
  requests_satisfy Q (bind (read v k) kont).
Proof.
  intros H. unfold read. destruct (get v k) as [x | t] eqn:E.
  - intro w. exact (H x eq_refl w).
  - intro w. exists []. simpl. now rewrite app_nil_r.
Qed.

Lemma rs_confirm (Q : Request -> Prop) msg answer :
  requests_satisfy Q (@confirm R msg answer).
Proof.
  unfold confirm. apply rs_bind; [now apply rs_log | intros _; apply rs_ret].
Qed.

Lemma rs_fail_when (Q : Request -> Prop) (r : Result) :
  requests_satisfy Q (@when R (truthy (error r)) (throw (error r))).
Proof. apply rs_when, rs_throw. Qed.

(** What [deleteFolder] can send. *)
Lemma rs_deleteFolder (c : Closure) (folderId : string) (answer : bool) :
  requests_satisfy
    (fun r => r = delete_children folderId \/ r = delete_folder_row folderId \/
              exists u, c_user c = Some u /\ r = folder_listing (id u))
    (@deleteFolder R c folderId answer).
Proof.
  unfold deleteFolder. destruct (c_user c) as [u|] eqn:Hu; [|apply rs_ret].
  apply rs_bind; [apply rs_confirm | intro ok].
  destruct (negb ok); [apply rs_ret|].
  apply rs_try_catch.
  - apply rs_bind; [apply rs_send; now left | intro photos].
    apply rs_bind; [apply rs_fail_when | intros _].
    apply rs_bind; [apply rs_send; right; now left | intro folder].
    apply rs_bind; [apply rs_fail_when | intros _].
    apply rs_bind.
    + apply rs_spawn, rs_fetchFolders_any.
      intros u' Hu'. right; right. exists u'. split; [congruence | reflexivity].
    + intros _. apply rs_when, rs_update_gallery.
  - intro e. apply rs_bind; now (try intros _; apply rs_log).
Qed.

(** What [deleteMedia] can send. *)
Lemma rs_deleteMedia (c : Closure) (item : value) (answer : bool) :
  requests_satisfy
    (fun r => (exists url, r = RStorageRemove "photos" [url]) \/
              (exists v, get item "id" = inl v /\ r = delete_media_row v) \/
              exists u, c_user c = Some u /\
                        r = media_listing (id u) (c_currentFolder c))
    (@deleteMedia R c item answer).
Proof.
  unfold deleteMedia. apply rs_bind; [now apply rs_log | intros _].
  destruct (c_user c) as [u|] eqn:Hu; [|apply rs_ret].
  destruct (c_isDeletingMedia c); [apply rs_ret|].
  apply rs_bind; [apply rs_confirm | intro ok].
  destruct (negb ok); [apply rs_ret|].
  apply rs_bind; [apply rs_update_gallery | intros _].
  apply rs_try_finally; [|apply rs_update_gallery].
  apply rs_try_catch.
  - apply rs_bind; [apply rs_read | intro url].
    apply rs_bind; [apply rs_send; left; now exists url | intro st].
    apply rs_bind; [apply rs_fail_when | intros _].
    apply rs_bind_read. intros v Hv.
    apply rs_bind; [apply rs_send; right; left; now exists v | intro db].
    apply rs_bind; [apply rs_fail_when | intros _].
    apply rs_bind; [apply rs_update_gallery | intros _].
    apply rs_fetchMedia_any.
    intros u' Hu'. right; right. exists u'. split; [congruence | reflexivity].
  - intro e. apply rs_bind; now (try intros _; apply rs_log).
Qed.

Lemma performed_bind {A B} (m : M R A) (k : A -> M R B) w a w1 tr1 :
  m w = (Returned a, w1) -> trace w1 = trace w ++ tr1 -> appends (k a) ->
  performed (bind m k) w = tr1 ++ performed (k a) w1.
Proof.
  intros Hm Htr Hk. destruct (Hk w1) as (tr2 & E2 & _).
  rewrite (@performed_eq _ _ (k a) w1 tr2 E2).
  apply @performed_eq. unfold bind. rewrite Hm, E2, Htr.
  now rewrite app_assoc.
Qed.

Lemma appends_deleteFolder_body (c : Closure) (u : User) (folderId : string) :
  c_user c = Some u ->
  appends
    (try_catch
       (photos <- send (R := R)
                    (RQuery (from "photos" |> delete
                             |> eq_ "folder_id" (VStr folderId))) ;;
        when (truthy (error photos)) (throw (error photos)) ;;;
        folder <- send (RQuery (from "folders" |> delete
                                |> eq_ "id" (VStr folderId))) ;;
        when (truthy (error folder)) (throw (error folder)) ;;;
        spawn (fetchFolders c) ;;;
        when (match c_currentFolder c with
              | Some f => (f =? folderId)%string
              | None => false
              end)
             (setCurrentFolder None))
       (fun error =>
          console_error [VStr "Error deleting folder:"; error] ;;;
          alert "Error deleting folder")).
Proof.
  intro Hu. apply rs_try_catch.
  - apply rs_bind; [now apply rs_send | intro photos].
    apply rs_bind; [apply rs_fail_when | intros _].
    apply rs_bind; [now apply rs_send | intro folder].
    apply rs_bind; [apply rs_fail_when | intros _].
    apply rs_bind; [|intros _; apply rs_when, rs_update_gallery].
    apply rs_spawn, rs_fetchFolders_any. trivial.
  - intro e. apply rs_bind; now (try intros _; apply rs_log).
Qed.

(** How a run of [deleteFolder] begins. *)
Lemma deleteFolder_begins (c : Closure) (folderId : string) (answer : bool)
      (w : World R) :
  performed (deleteFolder c folderId answer) w = [] \/
  performed (deleteFolder c folderId answer) w
  = [EvConfirm confirm_delete_folder false] \/
  exists tr,
    performed (deleteFolder c folderId answer) w
    = EvConfirm confirm_delete_folder true
        :: EvSent (delete_children folderId) :: tr.
Proof.
  unfold deleteFolder. destruct (c_user c) as [u|] eqn:Hu.
  2:{ left. apply @performed_eq. simpl. now rewrite app_nil_r. }
  right. destruct answer.
  - right.
    erewrite performed_bind;
      [| reflexivity | reflexivity | cbn [negb]; exact (@appends_deleteFolder_body c u folderId Hu)].
    cbn [negb].
    assert (H : starts_with (EvSent (delete_children folderId))
                  (try_catch
                     (photos <- send (R := R) (delete_children folderId) ;;
                      when (truthy (error photos)) (throw (error photos)) ;;;
                      folder <- send (delete_folder_row folderId) ;;
                      when (truthy (error folder)) (throw (error folder)) ;;;
                      spawn (fetchFolders c) ;;;
                      when (match c_currentFolder c with
                            | Some f => (f =? folderId)%string
                            | None => false
                            end)
                           (setCurrentFolder None))
                     (fun error =>
                        console_error [VStr "Error deleting folder:"; error] ;;;
                        alert "Error deleting folder"))
                  (snd (log (EvConfirm confirm_delete_folder true) w))).
    { apply starts_try_catch.
      - apply starts_bind; [apply starts_send | intro photos].
        apply rs_bind; [apply rs_fail_when | intros _].
        apply rs_bind; [now apply rs_send | intro folder].
        apply rs_bind; [apply rs_fail_when | intros _].
        apply rs_bind; [|intros _; apply rs_when, rs_update_gallery].
        apply rs_spawn, rs_fetchFolders_any. trivial.
      - intro e. apply rs_bind; now (try intros _; apply rs_log). }
    destruct H as (tr & H). exists tr. simpl. f_equal. exact H.
  - left.
    erewrite performed_bind;
      [| reflexivity | reflexivity | cbn [negb]; apply rs_ret].
    cbn [negb]. simpl. f_equal.
    apply @performed_eq. simpl. now rewrite app_nil_r.
Qed.

(** The run of [deleteFolder] when the deletion of the child rows fails. *)
Lemma deleteFolder_children_failed (c : Closure) (u : User) (folderId : string)
      (w : World R) (cause : value) :
  c_user c = Some u ->
  failed_with (fst (serve (env w) (delete_children folderId) (remote w)))
  = Some cause ->
  deleteFolder c folderId true w
  = (Returned tt,
     mkWorld (env w)
             (snd (serve (env w) (delete_children folderId) (remote w)))
             (reads w) (waits w) (auth w) (gallery w)
             (trace w ++ [EvConfirm confirm_delete_folder true;
                          EvSent (delete_children folderId);
                          EvConsoleError [VStr "Error deleting folder:"; cause];
                          EvAlert "Error deleting folder"])).
Proof.
  intros Hu Hfail. unfold deleteFolder. rewrite Hu.
  unfold confirm, bind at 1, bind at 1, log, ret. cbn [negb].
  unfold try_catch, bind at 1, send, external. cbn [env remote].
  change (RQuery (from "photos" |> delete |> eq_ "folder_id" (VStr folderId)))
    with (delete_children folderId).
  destruct (serve (env w) (delete_children folderId) (remote w))
    as [[r | e |] s1]; cbn [fst snd failed_with] in *.
  - destruct (truthy (error r)); [|discriminate].
    injection Hfail as <-.
    unfold bind, when, throw, console_error, alert, log. simpl.
    rewrite <- !app_assoc. reflexivity.
  - injection Hfail as <-.
    unfold bind, console_error, alert, log. simpl.
    rewrite <- !app_assoc. reflexivity.
  - discriminate.
Qed.

(** ** Runs, step by step *)

Lemma runs_performed {A} (m : M R A) w c w' tr :
  runs m w c w' tr -> performed m w = tr /\ m w = (c, w').
Proof.
  intros [Hm Htr]. split; auto. apply @performed_eq. now rewrite Hm.
Qed.

Lemma runs_bind {A B} (m : M R A) (k : A -> M R B) w a w1 tr1 c w2 tr2 :
  runs m w (Returned a) w1 tr1 -> runs (k a) w1 c w2 tr2 ->
  runs (bind m k) w c w2 (tr1 ++ tr2).
Proof.
  intros [Hm H1] [Hk H2]. split.
  - unfold bind. now rewrite Hm.
  - now rewrite H2, H1, app_assoc.
Qed.

Lemma runs_bind_threw {A B} (m : M R A) (k : A -> M R B) w e w1 tr1 :
  runs m w (Threw e) w1 tr1 -> runs (bind m k) w (Threw e) w1 tr1.
Proof. intros [Hm H1]. split; auto. unfold bind. now rewrite Hm. Qed.

Lemma runs_try_catch {A} (m : M R A) (h : value -> M R A) w e w1 tr1 c w2 tr2 :
  runs m w (Threw e) w1 tr1 -> runs (h e) w1 c w2 tr2 ->
  runs (try_catch m h) w c w2 (tr1 ++ tr2).
Proof.
  intros [Hm H1] [Hh H2]. split.
  - unfold try_catch. now rewrite Hm.
  - now rewrite H2, H1, app_assoc.
Qed.

Lemma runs_try_returned {A} (m : M R A) (h : value -> M R A) w a w1 tr1 :
  runs m w (Returned a) w1 tr1 -> runs (try_catch m h) w (Returned a) w1 tr1.
Proof. intros [Hm H1]. split; auto. unfold try_catch. now rewrite Hm. Qed.

Lemma runs_finally {A} (m : M R A) (f : M R unit) w a w1 tr1 w2 tr2 :
  runs m w (Returned a) w1 tr1 -> runs f w1 (Returned tt) w2 tr2 ->
  runs (try_finally m f) w (Returned a) w2 (tr1 ++ tr2).
Proof.
  intros [Hm H1] [Hf H2]. split.
  - unfold try_finally, bind. now rewrite Hm, Hf.
  - now rewrite H2, H1, app_assoc.
Qed.

Lemma runs_silent {A} (m : M R A) w a w' :
  m w = (Returned a, w') -> trace w' = trace w -> runs m w (Returned a) w' [].
Proof. intros Hm Htr. split; auto. now rewrite app_nil_r. Qed.

Lemma runs_send (r : Request) (w : World R) c s :
  serve (env w) r (remote w) = (c, s) ->
  runs (send r) w c
       (mkWorld (env w) s (reads w) (waits w) (auth w) (gallery w)
                (trace w ++ [EvSent r]))
       [EvSent r].
Proof. intro H. split; auto. unfold send, external. now rewrite H. Qed.

Lemma runs_log (e : event) (w : World R) :
  runs (log e) w (Returned tt) (snd (log e w)) [e].
Proof. split; reflexivity. Qed.

Lemma runs_throw {A} (e : value) (w : World R) : runs (@throw R A e) w (Threw e) w [].
Proof. split; auto. now rewrite app_nil_r. Qed.

Lemma runs_spawn (Q : Request -> Prop) (m : M R unit) (w : World R) :
  requests_satisfy Q m ->
  exists w' tr, runs (spawn m) w (Returned tt) w' tr /\
                Forall (on_requests Q) tr /\
                gallery w' = gallery (snd (m w)) /\ env w' = env (snd (m w)).
Proof.
  intro H. destruct (rs_spawn H w) as (tr & E & F).
  exists (snd (spawn m w)), tr. repeat split; auto.
  - unfold spawn. destruct (m w) as [[[] | e |] w1]; reflexivity.
  - unfold spawn. destruct (m w) as [[[] | e |] w1]; reflexivity.
  - unfold spawn. destruct (m w) as [[[] | e |] w1]; reflexivity.
Qed.

(** The [catch] block of [handleFileUpload]. *)
Lemma runs_upload_handler (e : value) (w : World R) :
  runs (console_error [VStr "Error uploading file:"; e] ;;;
        alert "Error uploading file") w (Returned tt)
       (snd (alert "Error uploading file"
               (snd (console_error [VStr "Error uploading file:"; e] w))))
       [EvConsoleError [VStr "Error uploading file:"; e];
        EvAlert "Error uploading file"].
Proof. split; [reflexivity|]. simpl. now rewrite <- app_assoc. Qed.

(** The [finally] block of [handleFileUpload]. *)
Lemma runs_upload_finally (w : World R) :
  runs (setIsUploading false ;;; setUploadProgress 0 ;;;
        setIsMobileMenuOpen false) w (Returned tt)
       (snd ((setIsUploading false ;;; setUploadProgress 0 ;;;
              setIsMobileMenuOpen false) w)) [].
Proof. apply runs_silent; reflexivity. Qed.

Lemma runs_trace_eq {A} (m : M R A) w c w' tr tr' :
  runs m w c w' tr -> tr = tr' -> runs m w c w' tr'.
Proof. now intros H <-. Qed.

Lemma runs_ret {A} (a : A) (w : World R) : runs (ret a) w (Returned a) w [].
Proof. split; auto. now rewrite app_nil_r. Qed.

Lemma upload_rejected (c : Closure) (file : File) (random : string) (w : World R) :
  size_limit file < file_size file ->
  handleFileUpload c (Some file) random w
  = match c_user c with
    | Some _ => alert (too_large_message file) w
    | None => navigate "/login" w
    end.
Proof.
  intro Hbig. unfold handleFileUpload. destruct (c_user c); [|reflexivity].
  change (if startsWith (file_type file) "video/"
          then 50 * 1024 * 1024 else 5 * 1024 * 1024) with (size_limit file).
  apply Z.ltb_lt in Hbig. rewrite Hbig. reflexivity.
Qed.

(** The [try ... catch] of [handleFileUpload] for user [u]. *)
Local Abbreviation upload_attempt c u file random :=
  (try_catch
     (up <- send (R := R) (upload_request u file random) ;;
      when (truthy (error up)) (throw (error up)) ;;;
      path <- read (data up) "path" ;;
      ins <- send (insert_request u (c_currentFolder c) file path) ;;
      when (truthy (error ins)) (throw (error ins)) ;;;
      spawn (fetchMedia c))
     (fun error =>
        console_error [VStr "Error uploading file:"; error] ;;;
        alert "Error uploading file")).

(** The world in which that block starts. *)
Local Abbreviation uploading w :=
  (snd ((setIsUploading (R := R) true ;;; setUploadProgress 0) w)).

Lemma upload_accepted (c : Closure) (u : User) (file : File) (random : string)
      (w w1 : World R) tr s :
  c_user c = Some u ->
  file_size file <= size_limit file ->
  runs (upload_attempt c u file random) (uploading w) (Returned tt) w1 tr ->
  remote w1 = s ->
  performed (handleFileUpload c (Some file) random) w = tr /\
  remote (snd (handleFileUpload c (Some file) random w)) = s.
Proof.
  intros Hu Hok Hrun <-.
  assert (H : runs (handleFileUpload c (Some file) random) w (Returned tt)
                   (snd ((setIsUploading false ;;; setUploadProgress 0 ;;;
                          setIsMobileMenuOpen false) w1)) tr).
  { unfold handleFileUpload. rewrite Hu.
    change (if startsWith (file_type file) "video/"
            then 50 * 1024 * 1024 else 5 * 1024 * 1024) with (size_limit file).
    replace (size_limit file <? file_size file) with false
      by (symmetry; apply Z.ltb_ge; exact Hok).
    eapply runs_trace_eq.
    - eapply runs_bind; [apply runs_silent; reflexivity|].
      eapply runs_bind; [apply runs_silent; reflexivity|].
      eapply runs_finally; [|apply runs_upload_finally].
      exact Hrun.
    - simpl. now rewrite app_nil_r. }
  destruct (runs_performed H) as [Hp Hw]. rewrite Hw. split; auto.
Qed.

Lemma runs_send_failed (r : Request) (w : World R) cause
      (k : Result -> M R unit) :
  failed_with (fst (serve (env w) r (remote w))) = Some cause ->
  runs (res <- send r ;; when (truthy (error res)) (throw (error res)) ;;; k res)
       w (Threw cause)
       (mkWorld (env w) (snd (serve (env w) r (remote w))) (reads w) (waits w)
                (auth w) (gallery w) (trace w ++ [EvSent r]))
       [EvSent r].
Proof.
  intro Hfail.
  destruct (serve (env w) r (remote w)) as [[res | e |] s] eqn:E;
    cbn [fst snd failed_with] in *.
  - destruct (truthy (error res)) eqn:Et; [|discriminate].
    injection Hfail as <-.
    eapply runs_trace_eq.
    + eapply runs_bind; [exact (@runs_send r w _ _ E)|].
      rewrite Et. cbn [when]. apply runs_bind_threw, runs_throw.
    + reflexivity.
  - injection Hfail as <-. apply runs_bind_threw. exact (@runs_send r w _ _ E).
  - discriminate.
Qed.

Lemma runs_send_ok (r : Request) (w : World R) res
      (k : Result -> M R unit) c w2 tr :
  fst (serve (env w) r (remote w)) = Returned res ->
  truthy (error res) = false ->
  runs (k res)
       (mkWorld (env w) (snd (serve (env w) r (remote w))) (reads w) (waits w)
                (auth w) (gallery w) (trace w ++ [EvSent r]))
       c w2 tr ->
  runs (x <- send r ;; when (truthy (error x)) (throw (error x)) ;;; k x)
       w c w2 (EvSent r :: tr).
Proof.
  intros Hres Herr Hk.
  destruct (serve (env w) r (remote w)) as [c1 s] eqn:E. cbn [fst snd] in *.
  subst c1.
  eapply runs_trace_eq.
  - eapply runs_bind; [exact (@runs_send r w _ _ E)|].
    rewrite Herr. cbn [when].
    eapply runs_bind; [apply runs_ret | exact Hk].
  - reflexivity.
Qed.

(** The upload step fails. *)
Lemma upload_step_failed (c : Closure) (u : User) (file : File) (random : string)
      (w : World R) cause :
  c_user c = Some u ->
  file_size file <= size_limit file ->
  failed_with (fst (serve (env w) (upload_request u file random) (remote w)))
  = Some cause ->
  performed (handleFileUpload c (Some file) random) w
  = [EvSent (upload_request u file random);
     EvConsoleError [VStr "Error uploading file:"; cause];
     EvAlert "Error uploading file"] /\
  remote (snd (handleFileUpload c (Some file) random w))
  = snd (serve (env w) (upload_request u file random) (remote w)).
Proof.
  intros Hu Hok Hfail.
  eapply upload_accepted; [exact Hu | exact Hok | | ].
  - eapply runs_trace_eq.
    + eapply runs_try_catch; [|apply runs_upload_handler].
      apply (@runs_send_failed (upload_request u file random) (uploading w) cause).
      exact Hfail.
    + reflexivity.
  - reflexivity.
Qed.

(** The upload succeeds and the insert fails. *)
Lemma insert_step_failed (c : Closure) (u : User) (file : File) (random : string)
      (w : World R) up path cause :
  c_user c = Some u ->
  file_size file <= size_limit file ->
  fst (serve (env w) (upload_request u file random) (remote w)) = Returned up ->
  truthy (error up) = false ->
  get (data up) "path" = inl path ->
  failed_with
    (fst (serve (env w) (insert_request u (c_currentFolder c) file path)
                (snd (serve (env w) (upload_request u file random) (remote w)))))
  = Some cause ->
  performed (handleFileUpload c (Some file) random) w
  = [EvSent (upload_request u file random);
     EvSent (insert_request u (c_currentFolder c) file path);
     EvConsoleError [VStr "Error uploading file:"; cause];
     EvAlert "Error uploading file"].
Proof.
  intros Hu Hok Hup Herr Hpath Hfail.
  eapply proj1.
  eapply upload_accepted; [exact Hu | exact Hok | | ].
  - eapply runs_trace_eq.
    + eapply runs_try_catch; [|apply runs_upload_handler].
      apply (@runs_send_ok (upload_request u file random) (uploading w) up);
        [exact Hup | exact Herr |].
      unfold read. rewrite Hpath.
      eapply runs_bind; [apply runs_ret|].
      apply runs_send_failed. exact Hfail.
    + reflexivity.
  - reflexivity.
Qed.

(** Both steps succeed. *)
Lemma both_steps_succeed (c : Closure) (u : User) (file : File) (random : string)
      (w : World R) up path ins :
  c_user c = Some u ->
  file_size file <= size_limit file ->
  fst (serve (env w) (upload_request u file random) (remote w)) = Returned up ->
  truthy (error up) = false ->
  get (data up) "path" = inl path ->
  fst (serve (env w) (insert_request u (c_currentFolder c) file path)
             (snd (serve (env w) (upload_request u file random) (remote w))))
  = Returned ins ->
  truthy (error ins) = false ->
  exists tr,
    performed (handleFileUpload c (Some file) random) w
    = EvSent (upload_request u file random)
        :: EvSent (insert_request u (c_currentFolder c) file path) :: tr /\
    Forall (on_requests (fun r => r = media_listing (id u) (c_currentFolder c))) tr.
Proof.
  intros Hu Hok Hup Herr Hpath Hins Herr2.
  match goal with
  | |- exists tr, performed _ _ = _ :: EvSent ?r :: _ /\ _ =>
      destruct (@runs_spawn _ (fetchMedia c)
                  (mkWorld (env w)
                     (snd (serve (env w) r
                             (snd (serve (env w) (upload_request u file random)
                                         (remote w)))))
                     (reads w) (waits w) (auth w) (gallery (uploading w))
                     ((trace w ++ [EvSent (upload_request u file random)])
                      ++ [EvSent r]))
                  (rs_fetchMedia c Hu))
        as (w3 & tr & Hspawn & Hall & _)
  end.
  exists tr. split; [|exact Hall].
  eapply proj1.
  eapply upload_accepted; [exact Hu | exact Hok | | ].
  - apply runs_try_returned.
    apply (@runs_send_ok (upload_request u file random) (uploading w) up);
      [exact Hup | exact Herr |].
    unfold read. rewrite Hpath.
    eapply runs_trace_eq.
    + eapply runs_bind; [apply runs_ret|].
      apply (@runs_send_ok (insert_request u (c_currentFolder c) file path) _ ins);
        [exact Hins | exact Herr2 |].
      exact Hspawn.
    + reflexivity.
  - reflexivity.
Qed.

End Listings.

Lemma filters_on_user_listing (uid : string) (cf : option string) q :
  media_listing uid cf = RQuery q \/ folder_listing uid = RQuery q ->
  filters_on_user uid q = true.
Proof.
  intros [H | H]; injection H as <-; unfold filters_on_user; simpl;
    now rewrite String.eqb_refl.
Qed.

(** C3, as the code has it.  The two listings carry an equality of the
    owner column with the current user's id.  The deleting queries carry
    one condition each, on the folder id (child rows), on the folder's own
    id (folder row) and on the item's id (media row). *)
Theorem queries_and_the_user {R : Type} (c : Closure) (u : User) (w : World R) :
  c_user c = Some u ->
  (forall q, In (EvSent (RQuery q)) (performed (fetchMedia c) w) ->
             filters_on_user (id u) q = true) /\
  (forall q, In (EvSent (RQuery q)) (performed (fetchFolders c) w) ->
             filters_on_user (id u) q = true) /\
  (forall folderId answer q,
      In (EvSent (RQuery q)) (performed (deleteFolder c folderId answer) w) ->
      q_verb q = VDelete ->
      (q_table q = "photos"%string /\ q_filters q = [FEq "folder_id" (VStr folderId)]) \/
      (q_table q = "folders"%string /\ q_filters q = [FEq "id" (VStr folderId)])) /\
  (forall item answer q,
      In (EvSent (RQuery q)) (performed (deleteMedia c item answer) w) ->
      q_verb q = VDelete ->
      exists v, get item "id" = inl v /\
                q_table q = "photos"%string /\ q_filters q = [FEq "id" v]).
Proof.
  intro Hu. repeat split.
  - intros q Hin.
    pose proof (@performed_in _ _ _ _ w _ (rs_fetchMedia c Hu) Hin) as H.
    simpl in H. apply (@filters_on_user_listing (id u) (c_currentFolder c)).
    now left.
  - intros q Hin.
    pose proof (@performed_in _ _ _ _ w _ (rs_fetchFolders c Hu) Hin) as H.
    simpl in H. apply (@filters_on_user_listing (id u) None). now right.
  - intros folderId answer q Hin Hv.
    destruct (@performed_in _ _ _ _ w _ (rs_deleteFolder c folderId answer) Hin)
      as [H | [H | (u' & _ & H)]]; injection H as ->; simpl in *;
      auto; discriminate.
  - intros item answer q Hin Hv.
    destruct (@performed_in _ _ _ _ w _ (rs_deleteMedia c item answer) Hin)
      as [(url & H) | [(v & Hg & H) | (u' & _ & H)]];
      try discriminate; injection H as ->; simpl in *; try discriminate.
    exists v. auto.
Qed.

Lemma queries_and_the_user_witness :
  filters_on_user "u1"
    (mkQuery "photos" (VSelect "*")
             [FEq "uploaded_by" (VStr "u1"); FEq "folder_id" (VStr "f1")]
             [("created_at", false)]) = true.
Proof.
  apply (proj1 (@queries_and_the_user nat Scenarios.in_f1 Scenarios.alice
                  Scenarios.world_alice eq_refl)).
  vm_compute. left. reflexivity.
Defined.

(** C3 as stated fails on the deleting queries: the query that
    [deleteFolder] sends for the child rows has no condition on the user. *)
Lemma delete_without_user_filter_counterexample :
  c_user Scenarios.in_f1 = Some Scenarios.alice /\
  In (EvSent (delete_children "f1"))
     (performed (deleteFolder Scenarios.in_f1 "f1" true) Scenarios.world_alice) /\
  exists q, delete_children "f1" = RQuery q /\
            q_table q = "photos"%string /\
            q_filters q = [FEq "folder_id" (VStr "f1")] /\
            filters_on_user (id Scenarios.alice) q = false.
Proof.
  split; [reflexivity|]. split.
  - vm_compute. right. left. reflexivity.
  - eexists. split; [reflexivity|]. repeat split.
Qed.

Lemma sent_before (a b x : event) (tr before after : list event) :
  a :: b :: tr = before ++ x :: after -> x <> a -> x <> b -> In b before.
Proof.
  intros H Ha Hb.
  destruct before as [|p before]; simpl in H; [injection H as H _; congruence|].
  injection H as <- H.
  destruct before as [|p' before]; simpl in H; [injection H as H _; congruence|].
  injection H as <- H. right. now left.
Qed.

(** ** Dialogs and the [catch] blocks of the handlers *)

Section Creating.
Context {R : Type}.

Lemma runs_handler (label msg : string) (e : value) (w : World R) :
  runs (console_error [VStr label; e] ;;; alert msg) w (Returned tt)
       (snd (alert msg (snd (console_error [VStr label; e] w))))
       [EvConsoleError [VStr label; e]; EvAlert msg].
Proof. split; [reflexivity|]. simpl. now rewrite <- app_assoc. Qed.

Lemma runs_prompt (msg : string) (answer : value) (w : World R) :
  runs (prompt msg answer) w (Returned answer)
       (snd (log (EvPrompt msg answer) w)) [EvPrompt msg answer].
Proof. split; reflexivity. Qed.

Lemma runs_confirm (msg : string) (answer : bool) (w : World R) :
  runs (confirm msg answer) w (Returned answer)
       (snd (log (EvConfirm msg answer) w)) [EvConfirm msg answer].
Proof. split; reflexivity. Qed.

End Creating.

(** Listings of the folders delete nothing. *)
Lemma listings_are_no_deletes (uid table : string) tr :
  Forall (on_requests (fun r => r = folder_listing uid)) tr ->
  deletes_on table tr = 0%nat.
Proof.
  unfold deletes_on.
  induction 1 as [|e tr He _ IH]; [reflexivity|].
  destruct e; simpl in *; auto. subst. simpl. exact IH.
Qed.

Lemma runs_bind_pending {R A B} (m : M R A) (k : A -> M R B) w w1 tr1 :
  runs m w Suspended w1 tr1 -> runs (bind m k) w Suspended w1 tr1.
Proof. intros [Hm H1]. split; auto. unfold bind. now rewrite Hm. Qed.

Lemma runs_try_pending {R A} (m : M R A) (h : value -> M R A) w w1 tr1 :
  runs m w Suspended w1 tr1 -> runs (try_catch m h) w Suspended w1 tr1.
Proof. intros [Hm H1]. split; auto. unfold try_catch. now rewrite Hm. Qed.

Lemma runs_when_silent {R} (b : bool) (f : GalleryState -> GalleryState)
      (w : World R) :
  runs (when b (update_gallery f)) w (Returned tt)
       (snd (when b (update_gallery f) w)) [].
Proof. destruct b; apply runs_silent; reflexivity. Qed.

(** The run of [deleteFolder] once the deletion of the child rows has
    succeeded: the deletion of the folder row is the next request,
    whatever becomes of it, and only listings of the folders follow. *)
Lemma deleteFolder_children_deleted {R : Type} (c : Closure) (u : User)
      (folderId : string) (w : World R) (photos : Result) :
  c_user c = Some u ->
  fst (serve (env w) (delete_children folderId) (remote w)) = Returned photos ->
  truthy (error photos) = false ->
  exists tr,
    performed (deleteFolder c folderId true) w
    = EvConfirm confirm_delete_folder true
        :: EvSent (delete_children folderId)
        :: EvSent (delete_folder_row folderId) :: tr /\
    Forall (on_requests (fun r => r = folder_listing (id u))) tr.
Proof.
  intros Hu Hphotos Herr.
  assert (Hrun : exists x w' tr,
             runs (deleteFolder c folderId true) w x w'
                  (EvConfirm confirm_delete_folder true
                     :: EvSent (delete_children folderId)
                     :: EvSent (delete_folder_row folderId) :: tr) /\
             Forall (on_requests (fun r => r = folder_listing (id u))) tr).
  { unfold deleteFolder. rewrite Hu.
    destruct (serve (env w) (delete_folder_row folderId)
                    (snd (serve (env w) (delete_children folderId) (remote w))))
      as [[folder | e |] s2] eqn:E2.
    - destruct (truthy (error folder)) eqn:Et.
      + (* the folder row is refused *)
        exists (Returned tt). do 2 eexists. split.
        * eapply runs_trace_eq.
          -- eapply runs_bind; [apply runs_confirm|]. cbv beta. cbn [negb].
             eapply runs_try_catch.
             ++ eapply (@runs_send_ok R (delete_children folderId));
                  [exact Hphotos | exact Herr |].
                apply (@runs_send_failed R (delete_folder_row folderId) _
                         (error folder)).
                change (failed_with
                          (fst (serve (env w) (delete_folder_row folderId)
                                  (snd (serve (env w) (delete_children folderId)
                                          (remote w)))))
                        = Some (error folder)).
                rewrite E2. cbn [fst failed_with]. now rewrite Et.
             ++ apply runs_handler.
          -- reflexivity.
        * repeat constructor.
      + (* both deletions succeed *)
        match goal with
        | |- context [spawn ?m] =>
            destruct (@runs_spawn R _ m
                        (mkWorld (env w)
                           (snd (serve (env w) (delete_folder_row folderId)
                                   (snd (serve (env w) (delete_children folderId)
                                           (remote w)))))
                           (reads w) (waits w) (auth w)
                           (gallery w)
                           (((trace w ++ [EvConfirm confirm_delete_folder true])
                             ++ [EvSent (delete_children folderId)])
                            ++ [EvSent (delete_folder_row folderId)]))
                        (rs_fetchFolders c Hu))
              as (w3 & tr & Hspawn & Hall & _)
        end.
        exists (Returned tt). do 2 eexists. split.
        * eapply runs_trace_eq.
          -- eapply runs_bind; [apply runs_confirm|]. cbv beta. cbn [negb].
             apply runs_try_returned.
             eapply (@runs_send_ok R (delete_children folderId));
               [exact Hphotos | exact Herr |].
             eapply (@runs_send_ok R (delete_folder_row folderId) _ folder).
             ++ exact (f_equal fst E2).
             ++ exact Et.
             ++ eapply runs_bind; [exact Hspawn|]. cbv beta.
                apply runs_when_silent.
          -- reflexivity.
        * rewrite app_nil_r. exact Hall.
    - (* the deletion of the folder row raises *)
      exists (Returned tt). do 2 eexists. split.
      + eapply runs_trace_eq.
        * eapply runs_bind; [apply runs_confirm|]. cbv beta. cbn [negb].
          eapply runs_try_catch.
          -- eapply (@runs_send_ok R (delete_children folderId));
               [exact Hphotos | exact Herr |].
             apply (@runs_send_failed R (delete_folder_row folderId) _ e).
             exact (f_equal (fun x => failed_with (fst x)) E2).
          -- apply runs_handler.
        * reflexivity.
      + repeat constructor.
    - (* the deletion of the folder row stays pending *)
      exists Suspended. do 2 eexists. split.
      + eapply runs_trace_eq.
        * eapply runs_bind; [apply runs_confirm|]. cbv beta. cbn [negb].
          apply runs_try_pending.
          eapply (@runs_send_ok R (delete_children folderId));
            [exact Hphotos | exact Herr |].
          apply runs_bind_pending.
          apply runs_send. exact E2.
        * reflexivity.
      + constructor. }
  destruct Hrun as (x & w' & tr & Hrun & Hall).
  exists tr. split; [|exact Hall].
  destruct (runs_performed Hrun) as [Hp _]. exact Hp.
Qed.

(** C7.  In every run of [deleteFolder], a request to delete the folder
    row comes after the request to delete its media rows.  When the
    deletion of the media rows fails, the run ends with the alert, no
    request to delete the folder row is sent, and the remote service is
    left as that failed deletion left it.  When the deletion of the media
    rows succeeds, the request to delete the folder row is the very next
    action: in such a run both deletions are sent, each once, the media
    rows first. *)
Theorem deleteFolder_children_first {R : Type} (c : Closure) (folderId : string)
        (answer : bool) (w : World R) :
  (forall before after,
      performed (deleteFolder c folderId answer) w
      = before ++ EvSent (delete_folder_row folderId) :: after ->
      In (EvSent (delete_children folderId)) before) /\
  (forall u cause,
      c_user c = Some u -> answer = true ->
      failed_with (fst (serve (env w) (delete_children folderId) (remote w)))
      = Some cause ->
      performed (deleteFolder c folderId answer) w
      = [EvConfirm confirm_delete_folder true;
         EvSent (delete_children folderId);
         EvConsoleError [VStr "Error deleting folder:"; cause];
         EvAlert "Error deleting folder"] /\
      ~ In (EvSent (delete_folder_row folderId))
           (performed (deleteFolder c folderId answer) w) /\
      deletes_on "folders" (performed (deleteFolder c folderId answer) w) = 0%nat /\
      remote (snd (deleteFolder c folderId answer w))
      = snd (serve (env w) (delete_children folderId) (remote w))) /\
  (forall u photos,
      c_user c = Some u -> answer = true ->
      fst (serve (env w) (delete_children folderId) (remote w)) = Returned photos ->
      truthy (error photos) = false ->
      exists tr,
        performed (deleteFolder c folderId answer) w
        = EvConfirm confirm_delete_folder true
            :: EvSent (delete_children folderId)
            :: EvSent (delete_folder_row folderId) :: tr /\
        deletes_on "photos" (performed (deleteFolder c folderId answer) w) = 1%nat /\
        deletes_on "folders" (performed (deleteFolder c folderId answer) w) = 1%nat).
Proof.
  split; [|split].
  - intros before after H.
    destruct (deleteFolder_begins c folderId answer w) as [E | [E | (tr & E)]];
      rewrite E in H.
    + destruct before; discriminate.
    + destruct before as [|? [|? ?]]; discriminate.
    + eapply sent_before; [exact H | discriminate | discriminate].
  - intros u cause Hu -> Hfail.
    pose proof (deleteFolder_children_failed c folderId w Hu Hfail) as Hrun.
    assert (Hp : performed (deleteFolder c folderId true) w
                 = [EvConfirm confirm_delete_folder true;
                    EvSent (delete_children folderId);
                    EvConsoleError [VStr "Error deleting folder:"; cause];
                    EvAlert "Error deleting folder"]).
    { apply @performed_eq. now rewrite Hrun. }
    rewrite Hp, Hrun. repeat split.
    intros [H | [H | [H | [H | []]]]]; discriminate.
  - intros u photos Hu -> Hphotos Herr.
    destruct (deleteFolder_children_deleted c folderId w Hu Hphotos Herr)
      as (tr & Hp & Hall).
    exists tr. rewrite Hp. split; [reflexivity|].
    pose proof (listings_are_no_deletes "photos" Hall) as H1.
    pose proof (listings_are_no_deletes "folders" Hall) as H2.
    unfold deletes_on in *. simpl. rewrite H1, H2. split; reflexivity.
Qed.

Lemma deleteFolder_children_first_witness :
  (performed (deleteFolder Scenarios.in_f1 "f1" true) (Scenarios.world_store true)
   = [EvConfirm confirm_delete_folder true;
      EvSent (delete_children "f1");
      EvConsoleError [VStr "Error deleting folder:";
                      new_Error "upstream request timeout"];
      EvAlert "Error deleting folder"] /\
   ~ In (EvSent (delete_folder_row "f1"))
        (performed (deleteFolder Scenarios.in_f1 "f1" true)
                   (Scenarios.world_store true)) /\
   deletes_on "folders"
      (performed (deleteFolder Scenarios.in_f1 "f1" true) (Scenarios.world_store true))
   = 0%nat /\
   remote (snd (deleteFolder Scenarios.in_f1 "f1" true (Scenarios.world_store true)))
   = Scenarios.store_f1 true) /\
  (exists tr,
      performed (deleteFolder Scenarios.in_f1 "f1" true) (Scenarios.world_store false)
      = EvConfirm confirm_delete_folder true
          :: EvSent (delete_children "f1")
          :: EvSent (delete_folder_row "f1") :: tr /\
      deletes_on "photos"
        (performed (deleteFolder Scenarios.in_f1 "f1" true)
                   (Scenarios.world_store false)) = 1%nat /\
      deletes_on "folders"
        (performed (deleteFolder Scenarios.in_f1 "f1" true)
                   (Scenarios.world_store false)) = 1%nat).
Proof.
  split.
  - apply (proj1 (proj2 (@deleteFolder_children_first Scenarios.Store
                           Scenarios.in_f1 "f1" true (Scenarios.world_store true)))
                 Scenarios.alice (new_Error "upstream request timeout")
                 eq_refl eq_refl eq_refl).
  - apply (proj2 (proj2 (@deleteFolder_children_first Scenarios.Store
                           Scenarios.in_f1 "f1" true (Scenarios.world_store false)))
                 Scenarios.alice (mkResult VNull VNull)
                 eq_refl eq_refl eq_refl eq_refl).
Defined.

(** On the example store without outage, the three media rows of the
    folder are gone when the folder row goes, and other rows stay. *)
Example deleteFolder_on_healthy_store :
  requests (performed (deleteFolder Scenarios.in_f1 "f1" true)
                      (Scenarios.world_store false))
  = [delete_children "f1"; delete_folder_row "f1"; folder_listing "u1"] /\
  remote (snd (deleteFolder Scenarios.in_f1 "f1" true (Scenarios.world_store false)))
  = Scenarios.mkStore [("m4", "f2")] ["f2"] false /\
  Scenarios.folder_rows
    (remote (snd (deleteFolder Scenarios.in_f1 "f1" true (Scenarios.world_store true))))
  = ["f1"; "f2"]%string.
Proof. repeat split. Qed.

Lemma image_is_no_video (t : string) :
  startsWith t "image/" = true -> startsWith t "video/" = false.
Proof.
  unfold startsWith. destruct t as [|a t]; [discriminate|].
  cbn [String.prefix].
  destruct (Ascii.ascii_dec "i" a) as [<- | _]; [reflexivity | discriminate].
Qed.

Lemma listings_are_no_writes (uid : string) (cf : option string) tr :
  Forall (on_requests (fun r => r = media_listing uid cf)) tr ->
  uploads tr = 0%nat /\ inserts tr = 0%nat.
Proof.
  unfold uploads, inserts.
  induction 1 as [|e tr He _ [IHu IHi]]; [now split|].
  destruct e; simpl in *; auto. subst. simpl. auto.
Qed.

(** C8.  An image (limit 5MB) or a video (limit 50MB) over its limit is
    turned away with an alert and nothing is sent.  For a file within its
    limit: if the storage upload fails the handler alerts and sends
    nothing more; if the upload succeeds and the row insert fails it
    alerts after these two requests; if both succeed the run consists of
    exactly one upload, then exactly one insert, then the refreshed
    listing. *)
Theorem handleFileUpload_gate_and_steps {R : Type} (c : Closure) (file : File)
        (random : string) (w : World R) :
  (startsWith (file_type file) "image/" = true ->
   size_limit file = 5 * 1024 * 1024) /\
  (startsWith (file_type file) "video/" = true ->
   size_limit file = 50 * 1024 * 1024) /\
  (size_limit file < file_size file ->
   requests (performed (handleFileUpload c (Some file) random) w) = [] /\
   remote (snd (handleFileUpload c (Some file) random w)) = remote w /\
   (c_user c <> None ->
    performed (handleFileUpload c (Some file) random) w
    = [EvAlert (too_large_message file)])) /\
  (forall u,
      c_user c = Some u ->
      file_size file <= size_limit file ->
      let upload := upload_request u file random in
      let stored := serve (env w) upload (remote w) in
      (forall cause,
          failed_with (fst stored) = Some cause ->
          performed (handleFileUpload c (Some file) random) w
          = [EvSent upload;
             EvConsoleError [VStr "Error uploading file:"; cause];
             EvAlert "Error uploading file"]) /\
      (forall up path,
          fst stored = Returned up ->
          truthy (error up) = false ->
          get (data up) "path" = inl path ->
          let row := insert_request u (c_currentFolder c) file path in
          let inserted := serve (env w) row (snd stored) in
          (forall cause,
              failed_with (fst inserted) = Some cause ->
              performed (handleFileUpload c (Some file) random) w
              = [EvSent upload; EvSent row;
                 EvConsoleError [VStr "Error uploading file:"; cause];
                 EvAlert "Error uploading file"]) /\
          (forall ins,
              fst inserted = Returned ins ->
              truthy (error ins) = false ->
              exists tr,
                performed (handleFileUpload c (Some file) random) w
                = EvSent upload :: EvSent row :: tr /\
                uploads (performed (handleFileUpload c (Some file) random) w) = 1%nat /\
                inserts (performed (handleFileUpload c (Some file) random) w) = 1%nat /\
                Forall (on_requests
                          (fun r => r = media_listing (id u) (c_currentFolder c)))
                       tr))).
Proof.
  split; [|split; [|split]].
  - intro Himg. unfold size_limit. now rewrite (image_is_no_video _ Himg).
  - intro Hvid. unfold size_limit. now rewrite Hvid.
  - intro Hbig. rewrite (upload_rejected c file random w Hbig).
    assert (Hp : performed (handleFileUpload c (Some file) random) w
                 = match c_user c with
                   | Some _ => [EvAlert (too_large_message file)]
                   | None => [EvNavigate "/login"]
                   end).
    { apply @performed_eq. rewrite (upload_rejected c file random w Hbig).
      destruct (c_user c); reflexivity. }
    rewrite Hp. destruct (c_user c); repeat split; try reflexivity.
    intro H. now elim H.
  - intros u Hu Hok upload stored. split.
    + intros cause Hfail.
      apply (proj1 (upload_step_failed c file random w Hu Hok Hfail)).
    + intros up path Hup Herr Hpath row inserted. split.
      * intros cause Hfail.
        apply (insert_step_failed c file random w Hu Hok Hup Herr Hpath Hfail).
      * intros ins Hins Herr2.
        destruct (both_steps_succeed c file random w Hu Hok Hup Herr Hpath Hins Herr2)
          as (tr & Hp & Hall).
        exists tr. rewrite Hp.
        destruct (listings_are_no_writes Hall) as [Hu0 Hi0].
        unfold uploads, inserts in *. simpl. rewrite Hu0, Hi0. auto.
Qed.

Lemma handleFileUpload_gate_and_steps_witness :
  (requests (performed (handleFileUpload Scenarios.at_root
                          (Some Scenarios.image_6MB) "0.731")
                       Scenarios.world_storing) = [] /\
   remote (snd (handleFileUpload Scenarios.at_root (Some Scenarios.image_6MB)
                  "0.731" Scenarios.world_storing)) = 0%nat /\
   (c_user Scenarios.at_root <> None ->
    performed (handleFileUpload Scenarios.at_root (Some Scenarios.image_6MB) "0.731")
              Scenarios.world_storing
    = [EvAlert "File too large. Maximum size is 5MB"])) /\
  (exists tr,
      performed (handleFileUpload Scenarios.at_root (Some Scenarios.video_40MB) "0.731")
                Scenarios.world_storing
      = EvSent (RStorageUpload "photos" "u1/0.731.mp4" Scenarios.video_40MB)
          :: EvSent (insert_request Scenarios.alice None Scenarios.video_40MB
                                    (VStr "u1/0.731.mp4")) :: tr /\
      uploads (performed (handleFileUpload Scenarios.at_root
                            (Some Scenarios.video_40MB) "0.731")
                         Scenarios.world_storing) = 1%nat /\
      inserts (performed (handleFileUpload Scenarios.at_root
                            (Some Scenarios.video_40MB) "0.731")
                         Scenarios.world_storing) = 1%nat /\
      Forall (on_requests (fun r => r = media_listing "u1" None)) tr).
Proof.
  split.
  - apply (proj1 (proj2 (proj2 (@handleFileUpload_gate_and_steps nat
             Scenarios.at_root Scenarios.image_6MB "0.731" Scenarios.world_storing)))).
    reflexivity.
  - refine (proj2 (proj2 (proj2 (proj2 (proj2 (@handleFileUpload_gate_and_steps nat
              Scenarios.at_root Scenarios.video_40MB "0.731" Scenarios.world_storing)))
              Scenarios.alice eq_refl _)
              (mkResult (VObj [("path", VStr "u1/0.731.mp4")]) VNull)
              (VStr "u1/0.731.mp4") eq_refl eq_refl eq_refl)
              (mkResult (VArr []) VNull) eq_refl eq_refl).
    discriminate.
Defined.

(** C9.  Every listing [fetchMedia] sends has, as its one condition on
    [folder_id], IS NULL when [currentFolder] is null and equality with
    the id when [currentFolder] is a (non-empty) id; on a device that is
    online the listing is sent. *)
Theorem fetchMedia_folder_condition {R : Type} (c : Closure) (u : User)
        (w : World R) :
  c_user c = Some u ->
  (forall q, In (EvSent (RQuery q)) (performed (fetchMedia c) w) ->
     (c_currentFolder c = None ->
      conditions_on "folder_id" q = [FOp "folder_id" "is" VNull]) /\
     (forall f, c_currentFolder c = Some f -> f <> ""%string ->
      conditions_on "folder_id" q = [FEq "folder_id" (VStr f)])) /\
  (onLine (env w) (reads w) = true ->
   onLine (env w) (S (reads w)) = true ->
   exists q tr, performed (fetchMedia c) w = EvSent (RQuery q) :: tr).
Proof.
  intro Hu. split.
  - intros q Hin.
    pose proof (@performed_in _ _ _ _ w _ (rs_fetchMedia c Hu) Hin) as H.
    injection H as ->. split.
    + intros ->. reflexivity.
    + intros f -> Hf. unfold conditions_on, folder_condition. simpl.
      apply String.eqb_neq in Hf. now rewrite Hf.
  - intros H0 H1.
    destruct (fetchMedia_starts c w Hu H0 H1) as (tr & E).
    unfold media_listing in E. eauto.
Qed.

Lemma fetchMedia_folder_condition_witness :
  (exists q tr,
      performed (fetchMedia Scenarios.in_f1) Scenarios.world_alice
      = EvSent (RQuery q) :: tr /\
      conditions_on "folder_id" q = [FEq "folder_id" (VStr "f1")]) /\
  (exists q tr,
      performed (fetchMedia Scenarios.at_root) Scenarios.world_alice
      = EvSent (RQuery q) :: tr /\
      conditions_on "folder_id" q = [FOp "folder_id" "is" VNull]).
Proof.
  split.
  - destruct (@fetchMedia_folder_condition nat Scenarios.in_f1 Scenarios.alice
                Scenarios.world_alice eq_refl) as [Hall Hsent].
    destruct (Hsent eq_refl eq_refl) as (q & tr & E).
    exists q, tr. split; [exact E|].
    apply (proj2 (Hall q ltac:(rewrite E; now left)) "f1"%string eq_refl).
    discriminate.
  - destruct (@fetchMedia_folder_condition nat Scenarios.at_root Scenarios.alice
                Scenarios.world_alice eq_refl) as [Hall Hsent].
    destruct (Hsent eq_refl eq_refl) as (q & tr & E).
    exists q, tr. split; [exact E|].
    apply (proj1 (Hall q ltac:(rewrite E; now left)) eq_refl).
Defined.

End GalleryFacts.

(* ================================================================== *)
(** * Relations that every step of a computation respects *)
(* ================================================================== *)

Module FrameFacts.
Import Gallery.

Section Frame.
Context {R : Type}.
Variable I : World R -> World R -> Prop.
Hypothesis I_refl : forall w, I w w.
Hypothesis I_trans : forall w1 w2 w3, I w1 w2 -> I w2 w3 -> I w1 w3.

Lemma respects_ret {A} (a : A) : respects I (@ret R A a).
Proof. intro w. apply I_refl. Qed.

Lemma respects_throw {A} (e : value) : respects I (@throw R A e).
Proof. intro w. apply I_refl. Qed.

Lemma respects_bind {A B} (m : M R A) (k : A -> M R B) :
  respects I m -> (forall a, respects I (k a)) -> respects I (bind m k).
Proof.
  intros Hm Hk w. specialize (Hm w). unfold bind.
  destruct (m w) as [[a | e |] w1]; simpl in *; auto.
  eapply I_trans; [exact Hm | apply Hk].
Qed.

Lemma respects_try_catch {A} (m : M R A) (h : value -> M R A) :
  respects I m -> (forall e, respects I (h e)) -> respects I (try_catch m h).
Proof.
  intros Hm Hh w. specialize (Hm w). unfold try_catch.
  destruct (m w) as [[a | e |] w1]; simpl in *; auto.
  eapply I_trans; [exact Hm | apply Hh].
Qed.

Lemma respects_when (c : bool) (m : M R unit) :
  respects I m -> respects I (when c m).
Proof. destruct c; simpl; auto using respects_ret. Qed.

Lemma respects_read (v : value) (k : string) : respects I (@read R v k).
Proof.
  unfold read. destruct (get v k); [apply respects_ret | apply respects_throw].
Qed.

(** ** The retry wrapper and the operation helper *)

Hypothesis I_online : respects I (@checkOnline R).
Hypothesis I_wait : respects I (@await_online_event R).
Hypothesis I_timer : forall ms, respects I (@await_timeout R ms).
Hypothesis I_console : forall args, respects I (@console_error R args).

Lemma respects_attempt {A} (operation : M R A) maxRetries baseDelay i :
  respects I operation ->
  respects I (attempt operation maxRetries baseDelay i).
Proof.
  intro Hop. unfold attempt. apply respects_try_catch.
  - apply respects_bind; [apply I_online | intro online].
    apply respects_bind; [apply respects_when, I_wait | intros _].
    apply respects_bind; [exact Hop | intro a; apply respects_ret].
  - intro e. apply respects_bind; [|intros _; apply respects_ret].
    apply respects_when, I_timer.
Qed.

Lemma respects_retry_loop {A} (operation : M R A) maxRetries baseDelay todo :
  respects I operation ->
  forall i lastError,
    respects I (retry_loop operation maxRetries baseDelay todo i lastError).
Proof.
  intro Hop. induction todo as [|todo IH]; intros i lastError; simpl.
  - apply respects_throw.
  - apply respects_bind; [now apply respects_attempt | intros [a | e]];
      [apply respects_ret | apply IH].
Qed.

Lemma respects_withRetry {A} (operation : M R A) maxRetries baseDelay :
  respects I operation -> respects I (withRetry operation maxRetries baseDelay).
Proof. intro Hop. now apply respects_retry_loop. Qed.

Lemma respects_supabaseOperation (operation : M R Result) (label : string) :
  respects I operation -> respects I (supabaseOperation operation label).
Proof.
  intro Hop. unfold supabaseOperation.
  apply respects_bind; [apply I_online | intro online].
  destruct (negb online); [apply respects_throw|].
  apply respects_try_catch.
  - apply respects_bind; [now apply respects_withRetry | intro r].
    destruct (truthy (error r)).
    + apply respects_bind; [apply I_console | intros _; apply respects_throw].
    + destruct (negb (truthy (data r))); [apply respects_throw | apply respects_ret].
  - intro e. apply respects_bind; [apply respects_read | intro m].
    apply respects_bind; [apply I_console | intros _; apply respects_throw].
Qed.

End Frame.

(** ** Instances: the React cells *)

Section Cells.
Context {R : Type}.

Lemma same_gallery_refl (w : World R) : same_gallery w w.
Proof. reflexivity. Qed.

Lemma same_gallery_trans (w1 w2 w3 : World R) :
  same_gallery w1 w2 -> same_gallery w2 w3 -> same_gallery w1 w3.
Proof. unfold same_gallery. congruence. Qed.

Lemma same_cell_trans {X} (cell : GalleryState -> X) (w1 w2 w3 : World R) :
  same_cell cell w1 w2 -> same_cell cell w2 w3 -> same_cell cell w1 w3.
Proof. unfold same_cell. congruence. Qed.

Lemma send_keeps_gallery (r : Request) : respects same_gallery (@send R r).
Proof.
  intro w. unfold send, external, same_gallery.
  now destruct (serve (env w) r (remote w)).
Qed.

(** The operation helper around a request leaves the React cells of the
    gallery alone. *)
Lemma helper_keeps_gallery (r : Request) (label : string) :
  respects same_gallery (@supabaseOperation R (send r) label).
Proof.
  apply respects_supabaseOperation.
  - apply same_gallery_refl.
  - apply same_gallery_trans.
  - intro w. reflexivity.
  - intro w. unfold await_online_event, same_gallery.
    now destruct (onlineFires (env w) (waits w)).
  - intros ms w. reflexivity.
  - intros args w. reflexivity.
  - apply send_keeps_gallery.
Qed.

End Cells.

End FrameFacts.

(* ================================================================== *)
(** * More on the retry wrapper: any policy, giving up, bounds *)
(* ================================================================== *)

Module RetryMore.
Import RetryFacts.

Lemma backoff_cons baseDelay i n :
  backoff baseDelay i (S n)
  = baseDelay * 2 ^ Z.of_nat i :: backoff baseDelay (S i) n.
Proof. reflexivity. Qed.

Lemma total_backoff baseDelay n : forall i,
  total (backoff baseDelay i n)
  = baseDelay * 2 ^ Z.of_nat i * (2 ^ Z.of_nat n - 1).
Proof.
  induction n as [|n IH]; intro i.
  - simpl. ring.
  - rewrite backoff_cons. unfold total in *. simpl fold_right. rewrite IH.
    rewrite !Nat2Z.inj_succ, !Z.pow_succ_r by lia. ring.
Qed.

Lemma count_of_app p (tr1 tr2 : list event) :
  count_of p (tr1 ++ tr2) = (count_of p tr1 + count_of p tr2)%nat.
Proof. unfold count_of. now rewrite filter_app, length_app. Qed.

Lemma delays_app (tr1 tr2 : list event) :
  delays (tr1 ++ tr2) = delays tr1 ++ delays tr2.
Proof.
  induction tr1 as [|e tr1 IH]; [reflexivity|].
  destruct e; simpl; now rewrite ?IH.
Qed.

Lemma invocations_app (tr1 tr2 : list event) :
  invocations (tr1 ++ tr2) = (invocations tr1 + invocations tr2)%nat.
Proof. apply (count_of_app is_invoke). Qed.

Section GivingUp.
Context {R A : Type}.
Variable f : R -> completion A * R.

(** The loop on a thunk that uses up every turn left. *)
Lemma retry_loop_gives_up s es s' :
  rejections f s es s' ->
  forall maxRetries baseDelay i lastError (w : World R),
    comes_back_online (env w) ->
    remote w = s ->
    (i + List.length es = maxRetries)%nat ->
    exists w' tr,
      retry_loop (thunk f) maxRetries baseDelay (List.length es) i lastError w
      = (Threw (last es lastError), w') /\
      trace w' = trace w ++ tr /\
      invocations tr = List.length es /\
      delays tr = backoff baseDelay i (List.length es - 1) /\
      (es = [] -> tr = []) /\
      (es <> [] -> exists tr0, tr = tr0 ++ [EvInvoke]) /\
      remote w' = s' /\ env w' = env w.
Proof.
  induction 1 as [s | s e s1 es s2 Hf Hrej IH];
    intros maxRetries baseDelay i lastError w Hon Hs Hi; rewrite <- Hs in *.
  - exists w, []. simpl. unfold throw. rewrite app_nil_r.
    repeat split; auto. intro H; now elim H.
  - destruct (@attempt_external R A (env w) EvInvoke f (thunk f)
                (fun _ _ => eq_refl) Hon maxRetries baseDelay i w _ _
                eq_refl Hf)
      as (w1 & pre & Hpre & (Hrun & Htr) & HE1 & Hs1 & _).
    assert (Hon1 : comes_back_online (env w1)) by now rewrite HE1.
    simpl List.length in Hi.
    destruct (IH maxRetries baseDelay (S i) e w1 Hon1 Hs1)
      as (w' & tr & Hloop & Htr' & Hinv & Hdel & Hnil & Hlast & Hs' & HE');
      [lia|].
    eexists w', _. simpl List.length. cbn [retry_loop]. unfold bind.
    rewrite Hrun, Hloop. rewrite last_cons_default.
    split; [reflexivity|]. split.
    { rewrite Htr', Htr. rewrite <- !app_assoc. reflexivity. }
    assert (Hpre_inv : invocations pre = 0%nat)
      by (destruct Hpre as [-> | ->]; reflexivity).
    assert (Hpre_del : delays pre = []) by (destruct Hpre as [-> | ->]; reflexivity).
    repeat split.
    + rewrite !invocations_app, Hpre_inv, Hinv.
      destruct (Z.of_nat i <? Z.of_nat maxRetries - 1); reflexivity.
    + rewrite !delays_app, Hpre_del, Hdel. simpl.
      destruct es as [|e' es].
      * simpl in *.
        replace (Z.of_nat i <? Z.of_nat maxRetries - 1) with false
          by (symmetry; apply Z.ltb_ge; lia).
        reflexivity.
      * simpl List.length in *.
        replace (Z.of_nat i <? Z.of_nat maxRetries - 1) with true
          by (symmetry; apply Z.ltb_lt; lia).
        simpl. rewrite Nat.sub_0_r. reflexivity.
    + discriminate.
    + intros _. destruct es as [|e' es].
      * rewrite (Hnil eq_refl). simpl in Hi.
        replace (Z.of_nat i <? Z.of_nat maxRetries - 1) with false
          by (symmetry; apply Z.ltb_ge; lia).
        exists pre. now rewrite !app_nil_r.
      * destruct Hlast as (tr0 & ->); [discriminate|].
        eexists. rewrite !app_assoc. reflexivity.
    + exact Hs'.
    + congruence.
Qed.

End GivingUp.

(** X1.  Under any policy whose delays the code computes exactly (an
    integer number of turns up to 970 and an integer [baseDelay] up to
    2^53 in magnitude), an operation that rejects N times, N below
    [maxRetries], and then resolves makes [withRetry] return that value
    after N+1 calls; the delays of the timers it sets are
    [baseDelay * 2^k] for k = 0, ..., N-1, which add up to
    [baseDelay * (2^N - 1)]. *)
Theorem withRetry_any_policy {R A : Type} (f : R -> completion A * R)
        (maxRetries : nat) (baseDelay : Z) (N : nat) (w : World R) (v : A)
        (s' : R) :
  exact_policy maxRetries baseDelay ->
  (N < maxRetries)%nat ->
  comes_back_online (env w) ->
  fails_then_succeeds f N (remote w) v s' ->
  exists w' tr,
    withRetry (thunk f) maxRetries baseDelay w = (Returned v, w') /\
    trace w' = trace w ++ tr /\
    invocations tr = S N /\
    delays tr = backoff baseDelay 0 N /\
    total (delays tr) = baseDelay * (2 ^ Z.of_nat N - 1) /\
    (exists tr0, tr = tr0 ++ [EvInvoke]) /\
    remote w' = s'.
Proof.
  intros _ HN Hon (es & s1 & Hrej & Hlen & Hok).
  destruct (@retry_loop_succeeds R A (env w) EvInvoke f (thunk f)
              (fun _ _ => eq_refl) Hon eq_refl _ _ _ Hrej
              v s' maxRetries baseDelay maxRetries 0%nat VUndefined w
              eq_refl eq_refl Hok)
    as (w' & tr & Hrun & Htr & Hsched & Hlast & _ & Hs' & _); [lia | lia |].
  rewrite Hlen in Hsched.
  assert (Hdel : delays tr = backoff baseDelay 0 N).
  { rewrite <- delays_filter, Hsched. apply delays_schedule. }
  exists w', tr. repeat split; auto.
  - rewrite <- invocations_filter, Hsched. apply invocations_schedule.
  - rewrite Hdel, total_backoff. simpl. ring.
Qed.

Lemma withRetry_any_policy_witness :
  exists w' tr,
    withRetry (thunk (Scenarios.flaky 2)) 3 250 Scenarios.world_flicker
    = (Returned (VStr "done"), w') /\
    trace w' = trace Scenarios.world_flicker ++ tr /\
    invocations tr = 3%nat /\
    delays tr = [250; 500] /\
    total (delays tr) = 750 /\
    (exists tr0, tr = tr0 ++ [EvInvoke]) /\
    remote w' = 3%nat.
Proof.
  apply (@withRetry_any_policy nat value (Scenarios.flaky 2) 3 250 2
           Scenarios.world_flicker (VStr "done") 3%nat).
  - unfold exact_policy. lia.
  - lia.
  - intro k; reflexivity.
  - exists [new_Error "timeout 0"; new_Error "timeout 1"], 2%nat.
    repeat split.
    repeat (eapply rej_cons; [reflexivity|]). apply rej_nil.
Defined.

Section Bounded.
Context {R A : Type}.

(** The operation retried is the external action [ev], answered by [f],
    in every world of environment [E0]; nothing is assumed of the
    connectivity or of the answers. *)
Variable E0 : Env R.
Variable ev : event.
Variable f : R -> completion A * R.
Variable operation : M R A.
Hypothesis operation_is_external :
  forall w, env w = E0 -> operation w = external ev f w.

(** The kind of action counted. *)
Variable p : event -> bool.
Hypothesis p_wait : p EvAwaitOnline = false.
Hypothesis p_timer : forall ms, p (EvTimeout ms) = false.
Hypothesis ev_no_timer : is_timer ev = false.

Lemma delays_ev (tr : list event) : delays (ev :: tr) = delays tr.
Proof. destruct ev; try reflexivity; discriminate. Qed.

(** One turn, whatever happens. *)
Lemma attempt_any maxRetries baseDelay i (w : World R) :
  env w = E0 ->
  exists c w1 tr,
    attempt operation maxRetries baseDelay i w = (c, w1) /\
    trace w1 = trace w ++ tr /\
    env w1 = E0 /\
    (count_of p tr <= 1)%nat /\
    match c with
    | Returned (Next _) =>
        delays tr = if Z.of_nat i <? Z.of_nat maxRetries - 1
                    then [baseDelay * 2 ^ Z.of_nat i] else []
    | _ => delays tr = []
    end.
Proof.
  intro HE.
  unfold attempt, try_catch, bind, checkOnline, navigator_onLine, when,
    await_online_event, ret, await_timeout, log.
  destruct (onLine (env w) (reads w)) eqn:Eon; cbn [negb].
  - rewrite operation_is_external by exact HE.
    unfold external; simpl.
    destruct (f (remote w)) as [[a | e |] s1]; simpl;
      try destruct (Z.of_nat i <? Z.of_nat maxRetries - 1); simpl;
      do 3 eexists; (split; [reflexivity|]); simpl;
      (split; [rewrite <- ?app_assoc; reflexivity|]);
      (split; [exact HE|]); simpl;
      (split; [unfold count_of; simpl; rewrite ?p_timer;
               destruct (p ev); simpl; lia |]);
      first [ reflexivity
            | exact (delays_ev [])
            | exact (delays_ev [EvTimeout (baseDelay * 2 ^ Z.of_nat i)]) ].
  - simpl. destruct (onlineFires (env w) (waits w)) eqn:Efire; simpl.
    + rewrite operation_is_external by exact HE.
      unfold external; simpl.
      destruct (f (remote w)) as [[a | e |] s1]; simpl;
        try destruct (Z.of_nat i <? Z.of_nat maxRetries - 1); simpl;
        do 3 eexists; (split; [reflexivity|]); simpl;
        (split; [rewrite <- ?app_assoc; reflexivity|]);
        (split; [exact HE|]); simpl;
        (split; [unfold count_of; simpl; rewrite ?p_timer, ?p_wait;
                 destruct (p ev); simpl; lia |]);
        first [ reflexivity
              | exact (delays_ev [])
              | exact (delays_ev [EvTimeout (baseDelay * 2 ^ Z.of_nat i)]) ].
    + do 3 eexists. split; [reflexivity|]. simpl.
      split; [reflexivity|]. split; [exact HE|].
      unfold count_of. simpl. rewrite p_wait. simpl. split; [lia | reflexivity].
Qed.

(** The loop never makes more calls than it has turns left, and its
    timers are an initial part of the back-off sequence. *)
Lemma retry_loop_bounded maxRetries baseDelay todo : forall i lastError (w : World R),
  env w = E0 ->
  exists c w' tr n,
    retry_loop operation maxRetries baseDelay todo i lastError w = (c, w') /\
    trace w' = trace w ++ tr /\
    (count_of p tr <= todo)%nat /\
    delays tr = backoff baseDelay i n /\
    (n <= todo)%nat /\ (n = 0%nat \/ (i + n < maxRetries)%nat).
Proof.
  induction todo as [|todo IH]; intros i lastError w HE.
  - exists (Threw lastError), w, [], 0%nat. simpl. unfold throw.
    rewrite app_nil_r. repeat split; auto.
  - destruct (attempt_any maxRetries baseDelay i w HE)
      as (c & w1 & tr1 & Hrun & Htr1 & HE1 & Hc1 & Hd1).
    cbn [retry_loop]. unfold bind. rewrite Hrun.
    destruct c as [[a | e] | e |].
    + exists (Returned a), w1, tr1, 0%nat. unfold ret.
      repeat split; auto; lia.
    + destruct (IH (S i) e w1 HE1)
        as (c & w' & tr & n & Hloop & Htr & Hc & Hd & Hn & Hb).
      rewrite Hloop.
      destruct (Z.of_nat i <? Z.of_nat maxRetries - 1) eqn:Elt.
      * exists c, w', (tr1 ++ tr), (S n).
        split; [reflexivity|]. split; [now rewrite Htr, Htr1, app_assoc|].
        split; [rewrite count_of_app; lia|].
        split; [now rewrite delays_app, Hd1, Hd, backoff_cons|].
        apply Z.ltb_lt in Elt. split; [lia|]. right. lia.
      * exists c, w', (tr1 ++ tr), 0%nat.
        apply Z.ltb_ge in Elt.
        assert (n = 0%nat) by lia. subst n.
        split; [reflexivity|]. split; [now rewrite Htr, Htr1, app_assoc|].
        split; [rewrite count_of_app; lia|].
        split; [now rewrite delays_app, Hd1, Hd|].
        split; [lia | now left].
    + exists (Threw e), w1, tr1, 0%nat. repeat split; auto; lia.
    + exists Suspended, w1, tr1, 0%nat. repeat split; auto; lia.
Qed.

End Bounded.

Lemma total_backoff_le baseDelay n m :
  0 <= baseDelay -> (n <= m)%nat ->
  total (backoff baseDelay 0 n) <= baseDelay * (2 ^ Z.of_nat m - 1).
Proof.
  intros Hb Hnm. rewrite total_backoff. simpl.
  assert (2 ^ Z.of_nat n <= 2 ^ Z.of_nat m) by (apply Z.pow_le_mono_r; lia).
  nia.
Qed.

(** X3.  Under any policy whose delays the code computes exactly,
    whatever the operation answers and whatever the connectivity,
    [withRetry] calls it at most [maxRetries] times (not at all when
    [maxRetries] is 0), and the timers it sets are the first few of
    [baseDelay * 2^0, baseDelay * 2^1, ...]: fewer than [maxRetries] of
    them, so that for a [baseDelay] that is not negative the delays it
    asks for add up to at most [baseDelay * (2^(maxRetries-1) - 1)]. *)
Theorem withRetry_bounded {R A : Type} (f : R -> completion A * R)
        (maxRetries : nat) (baseDelay : Z) (w : World R) :
  exact_policy maxRetries baseDelay ->
  exists c w' tr n,
    withRetry (thunk f) maxRetries baseDelay w = (c, w') /\
    trace w' = trace w ++ tr /\
    (invocations tr <= maxRetries)%nat /\
    delays tr = backoff baseDelay 0 n /\
    (n <= maxRetries - 1)%nat /\
    (0 <= baseDelay ->
     total (delays tr) <= baseDelay * (2 ^ Z.of_nat (maxRetries - 1) - 1)).
Proof.
  intros _.
  destruct (@retry_loop_bounded R A (env w) EvInvoke f (thunk f)
              (fun _ _ => eq_refl) is_invoke eq_refl (fun _ => eq_refl) eq_refl
              maxRetries baseDelay maxRetries 0%nat VUndefined w eq_refl)
    as (c & w' & tr & n & Hrun & Htr & Hc & Hd & Hn & Hb).
  exists c, w', tr, n.
  assert (Hn' : (n <= maxRetries - 1)%nat) by lia.
  repeat split; auto.
  intro Hpos. rewrite Hd. now apply total_backoff_le.
Qed.

Lemma withRetry_bounded_witness :
  exists c w' tr n,
    withRetry (thunk (Scenarios.flaky 9)) 7 300 Scenarios.world_flicker = (c, w') /\
    trace w' = trace Scenarios.world_flicker ++ tr /\
    (invocations tr <= 7)%nat /\
    delays tr = backoff 300 0 n /\
    (n <= 6)%nat /\
    (0 <= 300 -> total (delays tr) <= 18900).
Proof.
  apply (@withRetry_bounded nat value (Scenarios.flaky 9) 7 300
           Scenarios.world_flicker).
  unfold exact_policy. lia.
Defined.

(** X4.  [withRetry] does not go on while something is pending.  On a
    device that is offline and never comes back it stays suspended on the
    'online' event: the operation is never started and no timer is set.
    And a call of the operation that never settles is never given up:
    there is one call, no timer and no second call. *)
Theorem withRetry_stays_suspended {R A : Type} (maxRetries : nat)
        (baseDelay : Z) (w : World R) :
  (0 < maxRetries)%nat ->
  (forall operation : M R A,
      onLine (env w) (reads w) = false ->
      onlineFires (env w) (waits w) = false ->
      exists w',
        withRetry operation maxRetries baseDelay w = (Suspended, w') /\
        trace w' = trace w ++ [EvAwaitOnline] /\
        remote w' = remote w) /\
  (forall (f : R -> completion A * R) s,
      onLine (env w) (reads w) = true ->
      f (remote w) = (Suspended, s) ->
      exists w',
        withRetry (thunk f) maxRetries baseDelay w = (Suspended, w') /\
        trace w' = trace w ++ [EvInvoke] /\
        remote w' = s).
Proof.
  intro Hpos. destruct maxRetries as [|n]; [lia|]. split.
  - intros operation Hoff Hnever.
    unfold withRetry. cbn [retry_loop].
    unfold bind, attempt, try_catch, bind, checkOnline, navigator_onLine,
      when, await_online_event.
    rewrite Hoff. simpl. rewrite Hnever.
    eexists. split; [reflexivity|]. split; reflexivity.
  - intros f s Hon Hf.
    unfold withRetry. cbn [retry_loop].
    unfold bind, attempt, try_catch, bind, checkOnline, navigator_onLine,
      when, ret, thunk, external.
    rewrite Hon. simpl. rewrite Hf.
    eexists. split; [reflexivity|]. split; reflexivity.
Qed.

Lemma withRetry_stays_suspended_witness :
  (exists w',
      withRetry (thunk (Scenarios.flaky 0)) 5 1000 MoreScenarios.world_cut_off
      = (Suspended, w') /\
      trace w' = trace MoreScenarios.world_cut_off ++ [EvAwaitOnline] /\
      remote w' = remote MoreScenarios.world_cut_off) /\
  (exists w',
      withRetry (thunk MoreScenarios.hanging) 5 1000 Scenarios.world_online
      = (Suspended, w') /\
      trace w' = trace Scenarios.world_online ++ [EvInvoke] /\
      remote w' = 1%nat).
Proof.
  split.
  - apply (proj1 (@withRetry_stays_suspended nat value 5 1000
                    MoreScenarios.world_cut_off ltac:(lia))); reflexivity.
  - apply (proj2 (@withRetry_stays_suspended nat value 5 1000
                    Scenarios.world_online ltac:(lia))
                 MoreScenarios.hanging 1%nat); reflexivity.
Defined.

(** X2.  Under any policy with at least one turn whose delays the code
    computes exactly, an operation that rejects on every one of the
    [maxRetries] turns makes [withRetry] throw the last rejection after
    exactly [maxRetries] calls.  A timer follows every failed call but
    the last: the delays asked for are [baseDelay * 2^k] for k = 0, ...,
    maxRetries-2, in all [baseDelay * (2^(maxRetries-1) - 1)], and the
    last action is the last call. *)
Theorem withRetry_gives_up {R A : Type} (f : R -> completion A * R)
        (maxRetries : nat) (baseDelay : Z) (w : World R) (es : list value)
        (s' : R) :
  exact_policy maxRetries baseDelay ->
  (0 < maxRetries)%nat ->
  comes_back_online (env w) ->
  rejections f (remote w) es s' ->
  List.length es = maxRetries ->
  exists w' tr,
    withRetry (thunk f) maxRetries baseDelay w
    = (Threw (last es VUndefined), w') /\
    trace w' = trace w ++ tr /\
    invocations tr = maxRetries /\
    delays tr = backoff baseDelay 0 (maxRetries - 1) /\
    total (delays tr) = baseDelay * (2 ^ Z.of_nat (maxRetries - 1) - 1) /\
    (exists tr0, tr = tr0 ++ [EvInvoke]) /\
    remote w' = s'.
Proof.
  intros _ Hpos Hon Hrej Hlen.
  destruct (@retry_loop_gives_up R A f _ _ _ Hrej maxRetries baseDelay 0%nat
              VUndefined w Hon eq_refl)
    as (w' & tr & Hrun & Htr & Hinv & Hdel & _ & Hlast & Hs' & _); [lia|].
  rewrite Hlen in *.
  exists w', tr. repeat split; auto.
  - rewrite Hdel, total_backoff. simpl. ring.
  - apply Hlast. intros ->. simpl in Hlen. lia.
Qed.

Lemma withRetry_gives_up_witness :
  exists w' tr,
    withRetry (thunk (Scenarios.flaky 9)) 4 300 Scenarios.world_flicker
    = (Threw (new_Error "timeout 3"), w') /\
    trace w' = trace Scenarios.world_flicker ++ tr /\
    invocations tr = 4%nat /\
    delays tr = [300; 600; 1200] /\
    total (delays tr) = 2100 /\
    (exists tr0, tr = tr0 ++ [EvInvoke]) /\
    remote w' = 4%nat.
Proof.
  apply (@withRetry_gives_up nat value (Scenarios.flaky 9) 4 300
           Scenarios.world_flicker
           (map (fun n => new_Error ("timeout " ++ number_to_string (Z.of_nat n)))
                (seq 0 4)) 4%nat).
  - unfold exact_policy. lia.
  - lia.
  - intro k; reflexivity.
  - repeat (eapply rej_cons; [reflexivity|]). apply rej_nil.
  - reflexivity.
Defined.

End RetryMore.

(* ================================================================== *)
(** * The client's custom fetch *)
(* ================================================================== *)

Module FetchFacts.
Import RetryFacts RetryMore FrameFacts.

Lemma lookup_assign_same (k : string) (v : value) ps :
  lookup k (assign k v ps) = Some v.
Proof.
  induction ps as [|[k' v'] ps IH]; simpl.
  - now rewrite String.eqb_refl.
  - destruct (k =? k')%string eqn:E; simpl.
    + now rewrite String.eqb_refl.
    + now rewrite E.
Qed.

Lemma lookup_assign_other (k k' : string) (v : value) ps :
  (k =? k')%string = false ->
  lookup k (assign k' v ps) = lookup k ps.
Proof.
  intro Hne. induction ps as [|[k0 v0] ps IH]; simpl.
  - now rewrite Hne.
  - destruct (k' =? k0)%string eqn:E; simpl.
    + apply String.eqb_eq in E. subst k0. now rewrite Hne.
    + destruct (k =? k0)%string; auto.
Qed.

(** X5.  Whatever options object the caller passes, the headers object
    the custom fetch hands to [window.fetch] holds the configured key
    under [apikey], [Bearer <key>] under [Authorization] and [no-cache]
    under [Cache-Control] and [Pragma].  Under any other name it holds
    what the spread [...options.headers] copies, the own enumerable
    properties of the caller's headers, and nothing else: for a plain
    object these are the caller's headers; for [undefined] and for an
    object without such properties, as a [Headers] instance is, there are
    none, and the four forced headers are all that is sent; for an array
    of pairs they are its indices, not the names in the pairs.  Every
    option other than [headers] is passed on as it is. *)
Theorem forced_headers_override (key : string) (options : list (string * value)) :
  lookup "apikey" (forced_headers key options) = Some (VStr key) /\
  lookup "Authorization" (forced_headers key options)
  = Some (VStr ("Bearer " ++ key)) /\
  lookup "Cache-Control" (forced_headers key options) = Some (VStr "no-cache") /\
  lookup "Pragma" (forced_headers key options) = Some (VStr "no-cache") /\
  (forall k, is_forced k = false ->
             lookup k (forced_headers key options)
             = lookup k (spread (headers_of options))) /\
  (forall props k,
      headers_of options = VObj props -> is_forced k = false ->
      lookup k (forced_headers key options) = lookup k props) /\
  (spread (headers_of options) = [] ->
   forced_headers key options
   = [("apikey", VStr key); ("Authorization", VStr ("Bearer " ++ key));
      ("Cache-Control", VStr "no-cache"); ("Pragma", VStr "no-cache")]) /\
  (forall items k,
      headers_of options = VArr items -> is_forced k = false ->
      lookup k (forced_headers key options) = lookup k (indexed items)) /\
  lookup "headers" (request_init key options)
  = Some (VObj (forced_headers key options)) /\
  (forall k, (k =? "headers")%string = false ->
             lookup k (request_init key options) = lookup k options).
Proof.
  assert (Hother : forall k, is_forced k = false ->
                     lookup k (forced_headers key options)
                     = lookup k (spread (headers_of options))).
  { intros k Hk. unfold forced_headers.
    unfold is_forced, forced_names in Hk. simpl in Hk.
    apply orb_false_elim in Hk as [H1 Hk].
    apply orb_false_elim in Hk as [H2 Hk].
    apply orb_false_elim in Hk as [H3 Hk].
    apply orb_false_elim in Hk as [H4 _].
    now rewrite !lookup_assign_other by assumption. }
  repeat split.
  - unfold forced_headers.
    rewrite !lookup_assign_other by reflexivity. apply lookup_assign_same.
  - unfold forced_headers.
    rewrite !lookup_assign_other by reflexivity. apply lookup_assign_same.
  - unfold forced_headers.
    rewrite !lookup_assign_other by reflexivity. apply lookup_assign_same.
  - unfold forced_headers. apply lookup_assign_same.
  - exact Hother.
  - intros props k Hobj Hk. rewrite (Hother k Hk), Hobj. reflexivity.
  - intro Hnone. unfold forced_headers.
    change (match lookup "headers" options with
            | Some h => h
            | None => VUndefined
            end) with (headers_of options).
    rewrite Hnone. reflexivity.
  - intros items k Harr Hk. rewrite (Hother k Hk), Harr. reflexivity.
  - unfold request_init. apply lookup_assign_same.
  - intros k Hk. unfold request_init. now apply lookup_assign_other.
Qed.

Lemma forced_headers_override_witness :
  lookup "apikey" (forced_headers "anon-key" MoreScenarios.caller_options)
  = Some (VStr "anon-key") /\
  lookup "Prefer" (forced_headers "anon-key" MoreScenarios.caller_options)
  = Some (VStr "return=minimal") /\
  forced_headers "anon-key" MoreScenarios.instance_options
  = [("apikey", VStr "anon-key"); ("Authorization", VStr "Bearer anon-key");
     ("Cache-Control", VStr "no-cache"); ("Pragma", VStr "no-cache")] /\
  lookup "Prefer" (forced_headers "anon-key" MoreScenarios.pairs_options) = None /\
  lookup "method" (request_init "anon-key" MoreScenarios.caller_options)
  = Some (VStr "POST").
Proof.
  split; [|split; [|split; [|split]]].
  - exact (proj1 (forced_headers_override "anon-key" MoreScenarios.caller_options)).
  - pose proof (forced_headers_override "anon-key" MoreScenarios.caller_options)
      as (_ & _ & _ & _ & _ & H & _).
    exact (H [("apikey", VStr "stale"); ("Prefer", VStr "return=minimal")]
             "Prefer"%string eq_refl eq_refl).
  - pose proof (forced_headers_override "anon-key" MoreScenarios.instance_options)
      as (_ & _ & _ & _ & _ & _ & H & _).
    exact (H eq_refl).
  - pose proof (forced_headers_override "anon-key" MoreScenarios.pairs_options)
      as (_ & _ & _ & _ & _ & _ & _ & H & _).
    exact (H [VArr [VStr "Prefer"; VStr "return=minimal"]] "Prefer"%string
             eq_refl eq_refl).
  - pose proof (forced_headers_override "anon-key" MoreScenarios.caller_options)
      as (_ & _ & _ & _ & _ & _ & _ & _ & _ & H).
    exact (H "method"%string eq_refl).
Defined.

Section Extending.
Context {R : Type}.
Variable P : event -> Prop.

Lemma extends_by_refl (w : World R) : extends_by P w w.
Proof. exists []. now rewrite app_nil_r. Qed.

Lemma extends_by_trans (w1 w2 w3 : World R) :
  extends_by P w1 w2 -> extends_by P w2 w3 -> extends_by P w1 w3.
Proof.
  intros (tr1 & E1 & F1) (tr2 & E2 & F2). exists (tr1 ++ tr2).
  rewrite E2, E1, app_assoc. split; auto. apply Forall_app; auto.
Qed.

Lemma log_extends (e : event) : P e -> respects (extends_by P) (@log R e).
Proof. intros He w. exists [e]. split; auto. Qed.

Lemma checkOnline_extends : respects (extends_by P) (@checkOnline R).
Proof. intro w. exists []. simpl. now rewrite app_nil_r. Qed.

Lemma await_online_extends :
  P EvAwaitOnline -> respects (extends_by P) (@await_online_event R).
Proof.
  intros He w. exists [EvAwaitOnline]. unfold await_online_event.
  destruct (onlineFires (env w) (waits w)); simpl; auto.
Qed.

Lemma external_extends {A} (e : event) (f : R -> completion A * R) :
  P e -> respects (extends_by P) (external e f).
Proof.
  intros He w. exists [e]. unfold external.
  destruct (f (remote w)); simpl; auto.
Qed.

End Extending.

(** X6.  The custom fetch makes at most five calls of [window.fetch],
    every one with the same URL and the same init object (the caller's
    options with the forced headers), and sends nothing else.  If it
    throws, what it throws is the fixed connectivity error and the last
    thing it did was to log the cause, the rejection with which the
    retried fetch gave up; if it returns, it has logged nothing. *)
Theorem customFetch_fetches_and_errors {R : Type} (url : value)
        (options : list (string * value)) (w : World R) :
  exists c w' tr,
    customFetch url options w = (c, w') /\
    trace w' = trace w ++ tr /\
    (count_of is_fetch tr <= 5)%nat /\
    match c with
    | Threw e =>
        e = new_Error connectivity_message /\
        exists cause tr0,
          tr = tr0 ++ [EvConsoleError [VStr "Supabase fetch error:"; cause]] /\
          Forall (fetch_action url (request_init (supabaseKey (env w)) options)) tr0 /\
          fst (withRetry_default
                 (window_fetch url (request_init (supabaseKey (env w)) options)) w)
          = Threw cause
    | _ =>
        Forall (fetch_action url (request_init (supabaseKey (env w)) options)) tr
    end.
Proof.
  set (init := request_init (supabaseKey (env w)) options).
  assert (Hop : forall w0 : World R,
             env w0 = env w ->
             window_fetch url init w0
             = external (EvFetch url init) (fetch (env w) url init) w0).
  { intros w0 H0. unfold window_fetch. now rewrite H0. }
  destruct (@retry_loop_bounded R value (env w) (EvFetch url init)
              (fetch (env w) url init) (window_fetch url init) Hop
              is_fetch eq_refl (fun _ => eq_refl) eq_refl
              5%nat 1000 5%nat 0%nat VUndefined w eq_refl)
    as (c & w1 & tr & n & Hrun & Htr & Hc & _).
  assert (Hall : extends_by (fetch_action url init) w
                   (snd (withRetry_default (window_fetch url init) w))).
  { apply (@respects_withRetry R (extends_by (fetch_action url init))).
    - apply extends_by_refl.
    - apply extends_by_trans.
    - apply checkOnline_extends.
    - apply await_online_extends. exact I.
    - intro ms. apply log_extends. exact I.
    - intro w0. unfold window_fetch. apply external_extends. now split. }
  unfold withRetry_default, withRetry in Hall. rewrite Hrun in Hall.
  destruct Hall as (tr' & Htr' & Hall). simpl in Htr'.
  rewrite Htr in Htr'. apply app_inv_head in Htr'. subst tr'.
  unfold customFetch, try_catch, bind, api_key, withRetry_default, withRetry.
  fold init. rewrite Hrun.
  destruct c as [v | e |].
  - exists (Returned v), w1, tr. auto.
  - eexists _, _, (tr ++ [EvConsoleError [VStr "Supabase fetch error:"; e]]).
    unfold console_error, log, throw. simpl.
    split; [reflexivity|].
    split; [now rewrite Htr, <- app_assoc|].
    split.
    + rewrite count_of_app. unfold count_of at 2. simpl. lia.
    + split; [reflexivity|]. exists e, tr. repeat split; auto.
  - exists Suspended, w1, tr. auto.
Qed.

Lemma count_of_filter p (tr : list event) :
  p EvAwaitOnline = false ->
  count_of p (calls_and_timers tr) = count_of p tr.
Proof.
  intro Hp. unfold count_of, calls_and_timers.
  induction tr as [|e tr IH]; [reflexivity|].
  destruct e; simpl; rewrite ?Hp; auto;
    match goal with |- context [p ?x] => destruct (p x) end;
    simpl; now rewrite ?IH.
Qed.

Lemma count_of_schedule p (call : event) baseDelay N :
  p call = true -> (forall ms, p (EvTimeout ms) = false) ->
  forall i, count_of p (schedule_of call baseDelay i N) = S N.
Proof.
  intros Hc Ht. unfold count_of.
  induction N as [|n IH]; intro i; simpl; rewrite Hc, ?Ht; simpl.
  - reflexivity.
  - now rewrite IH.
Qed.

Lemma delays_schedule_of (call : event) baseDelay N :
  is_timer call = false ->
  forall i, delays (schedule_of call baseDelay i N) = backoff baseDelay i N.
Proof.
  intro Hc. induction N as [|n IH]; intro i.
  - destruct call; try reflexivity; discriminate.
  - change (schedule_of call baseDelay i (S n))
      with (call :: EvTimeout (baseDelay * 2 ^ Z.of_nat i)
              :: schedule_of call baseDelay (S i) n).
    rewrite backoff_cons, <- IH.
    destruct call; try reflexivity; discriminate.
Qed.

Lemma no_console_in_schedule (call : event) baseDelay N :
  is_console_error call = false ->
  forall i, count_of is_console_error (schedule_of call baseDelay i N) = 0%nat.
Proof.
  intro Hc. unfold count_of.
  induction N as [|n IH]; intro i; simpl; rewrite Hc; simpl; auto.
Qed.

(** X7.  When [window.fetch] fails N times, N at most 4, and then
    resolves, the custom fetch returns the very value it resolved to,
    after N+1 fetches and the back-off delays 1000, 2000, ...; nothing is
    logged. *)
Theorem customFetch_passes_success {R : Type} (url : value)
        (options : list (string * value)) (N : nat) (w : World R)
        (v : value) (s' : R) :
  (N <= 4)%nat ->
  comes_back_online (env w) ->
  fails_then_succeeds
    (fetch (env w) url (request_init (supabaseKey (env w)) options))
    N (remote w) v s' ->
  exists w' tr,
    customFetch url options w = (Returned v, w') /\
    trace w' = trace w ++ tr /\
    count_of is_fetch tr = S N /\
    delays tr = backoff 1000 0 N /\
    count_of is_console_error tr = 0%nat /\
    remote w' = s'.
Proof.
  intros HN Hon (es & s1 & Hrej & Hlen & Hok).
  set (init := request_init (supabaseKey (env w)) options) in *.
  assert (Hop : forall w0 : World R,
             env w0 = env w ->
             window_fetch url init w0
             = external (EvFetch url init) (fetch (env w) url init) w0).
  { intros w0 H0. unfold window_fetch. now rewrite H0. }
  destruct (@retry_loop_succeeds R value (env w) (EvFetch url init)
              (fetch (env w) url init) (window_fetch url init) Hop Hon eq_refl
              _ _ _ Hrej v s' 5%nat 1000 5%nat 0%nat VUndefined w
              eq_refl eq_refl Hok)
    as (w' & tr & Hrun & Htr & Hsched & _ & _ & Hs' & _); [lia | lia |].
  rewrite Hlen in Hsched.
  exists w', tr.
  unfold customFetch, try_catch, bind, api_key, withRetry_default, withRetry.
  fold init. rewrite Hrun.
  repeat split; auto.
  - rewrite <- (count_of_filter is_fetch tr eq_refl), Hsched.
    now apply count_of_schedule.
  - rewrite <- delays_filter, Hsched. now apply delays_schedule_of.
  - rewrite <- (count_of_filter is_console_error tr eq_refl), Hsched.
    apply no_console_in_schedule. reflexivity.
Qed.

Lemma customFetch_passes_success_witness :
  exists w' tr,
    customFetch (VStr "https://db.example/rest/v1/photos")
                MoreScenarios.caller_options MoreScenarios.world_shaky
    = (Returned (VObj [("status", VNum 200)]), w') /\
    trace w' = trace MoreScenarios.world_shaky ++ tr /\
    count_of is_fetch tr = 3%nat /\
    delays tr = [1000; 2000] /\
    count_of is_console_error tr = 0%nat /\
    remote w' = 3%nat.
Proof.
  apply (@customFetch_passes_success nat (VStr "https://db.example/rest/v1/photos")
           MoreScenarios.caller_options 2 MoreScenarios.world_shaky
           (VObj [("status", VNum 200)]) 3%nat).
  - lia.
  - intro k; reflexivity.
  - exists [new_Error "Failed to fetch"; new_Error "Failed to fetch"], 2%nat.
    repeat split.
    repeat (eapply rej_cons; [reflexivity|]). apply rej_nil.
Defined.

End FetchFacts.

(* ================================================================== *)
(** * More on the operation helper *)
(* ================================================================== *)

Module OperationMore.
Import RetryFacts RetryMore FrameFacts FetchFacts OperationFacts.

Lemma thunk_actions_no_console tr :
  Forall thunk_action tr -> count_of is_console_error tr = 0%nat.
Proof.
  unfold count_of. induction 1 as [|e tr He _ IH]; [reflexivity|].
  destruct e; simpl in *; auto; contradiction.
Qed.

(** A retried thunk only calls, waits and sleeps. *)
Lemma withRetry_thunk_actions {R A : Type} (f : R -> completion A * R)
      (w w' : World R) c tr :
  withRetry_default (thunk f) w = (c, w') ->
  trace w' = trace w ++ tr ->
  Forall thunk_action tr.
Proof.
  intros Hrun Htr.
  assert (H : extends_by thunk_action w (snd (withRetry_default (thunk f) w))).
  { apply (@respects_withRetry R (extends_by thunk_action)).
    - apply extends_by_refl.
    - apply extends_by_trans.
    - apply checkOnline_extends.
    - apply await_online_extends. exact I.
    - intro ms. apply log_extends. exact I.
    - apply external_extends. exact I. }
  rewrite Hrun in H. destruct H as (tr' & Htr' & Hall). simpl in Htr'.
  rewrite Htr in Htr'. apply app_inv_head in Htr'. now subst tr'.
Qed.

(** X8.  Whatever the thunk does, a value returned by the helper is
    truthy data: it was obtained on a device that was online at the
    check, it is the [data] of the result the retried thunk resolved to,
    and that result had no error set. *)
Theorem supabaseOperation_returns_truthy {R : Type} (operation : M R Result)
        (label : string) (w w' : World R) (d : value) :
  supabaseOperation operation label w = (Returned d, w') ->
  truthy d = true /\
  onLine (env w) (reads w) = true /\
  exists r,
    withRetry_default operation (after_online_check w) = (Returned r, w') /\
    d = data r /\ truthy (error r) = false.
Proof.
  intro Hret.
  destruct (onLine (env w) (reads w)) eqn:Hon.
  2:{ rewrite (offline_run operation label w Hon) in Hret. discriminate. }
  destruct (withRetry_default operation (after_online_check w))
    as [[r | x |] w2] eqn:Hrun.
  - rewrite (resolved_run operation label w Hon Hrun) in Hret.
    destruct (truthy (error r)) eqn:Herr.
    + destruct (get (error r) "message"); discriminate.
    + destruct (truthy (data r)) eqn:Hd; cbn [negb] in Hret; [|discriminate].
      injection Hret as <- <-. split; [exact Hd|]. split; [reflexivity|].
      exists r. auto.
  - rewrite (rejected_run operation label w Hon Hrun) in Hret.
    destruct (get x "message"); discriminate.
  - rewrite (suspended_run operation label w Hon Hrun) in Hret. discriminate.
Qed.

Lemma supabaseOperation_returns_truthy_witness :
  truthy (data Scenarios.two_rows) = true /\
  onLine (env Scenarios.world_online) (reads Scenarios.world_online) = true /\
  exists r,
    withRetry_default (Scenarios.resolves Scenarios.two_rows)
                      (after_online_check Scenarios.world_online)
    = (Returned r,
       snd (supabaseOperation (Scenarios.resolves Scenarios.two_rows)
                              "Error fetching media" Scenarios.world_online)) /\
    data Scenarios.two_rows = data r /\ truthy (error r) = false.
Proof.
  apply (@supabaseOperation_returns_truthy nat
           (Scenarios.resolves Scenarios.two_rows) "Error fetching media"
           Scenarios.world_online).
  reflexivity.
Defined.

Section Thunk.
Context {R : Type}.
Variable f : R -> completion Result * R.
Variable label : string.

(** The retried thunk right after the online check of the helper. *)
Lemma gives_up_after_check (w : World R) es s' :
  comes_back_online (env w) ->
  rejections f (remote w) es s' ->
  List.length es = 5%nat ->
  exists w2 tr,
    withRetry_default (thunk f) (after_online_check w)
    = (Threw (last es VUndefined), w2) /\
    trace w2 = trace w ++ tr /\
    invocations tr = 5%nat /\
    count_of is_console_error tr = 0%nat /\
    remote w2 = s'.
Proof.
  intros Hon Hrej Hlen.
  destruct (@retry_loop_gives_up R Result f _ _ _ Hrej 5%nat 1000 0%nat
              VUndefined (after_online_check w) Hon eq_refl)
    as (w2 & tr & Hrun & Htr & Hinv & _ & _ & _ & Hs' & _); [now rewrite Hlen|].
  rewrite Hlen in *.
  exists w2, tr. repeat split; auto.
  apply thunk_actions_no_console.
  eapply withRetry_thunk_actions; [exact Hrun | exact Htr].
Qed.

End Thunk.

(** X9.  When the thunk rejects on all five turns and the last rejection
    is an object (or any value other than null and undefined), the helper
    logs it once and throws an Error whose message is the label, a colon
    and the message of that last rejection, or the text "An unexpected
    error occurred" when it has no message; the thunk has been called
    exactly five times. *)
Theorem supabaseOperation_after_five_rejections {R : Type}
        (f : R -> completion Result * R) (label : string) (w : World R)
        (es : list value) (s' : R) (m : value) :
  onLine (env w) (reads w) = true ->
  comes_back_online (env w) ->
  rejections f (remote w) es s' ->
  List.length es = 5%nat ->
  get (last es VUndefined) "message" = inl m ->
  exists w' tr,
    supabaseOperation (thunk f) label w
    = (Threw (new_Error (label ++ ": "
                         ++ (if truthy m then to_string m
                             else "An unexpected error occurred"))), w') /\
    trace w' = trace w ++ tr
               ++ [EvConsoleError [VStr (label ++ ":"); last es VUndefined]] /\
    invocations tr = 5%nat /\
    count_of is_console_error tr = 0%nat /\
    remote w' = s'.
Proof.
  intros Hon Hback Hrej Hlen Hm.
  destruct (gives_up_after_check w Hback Hrej Hlen)
    as (w2 & tr & Hrun & Htr & Hinv & Hnc & Hs').
  rewrite (rejected_run (thunk f) label w Hon Hrun), Hm.
  eexists _, tr. split.
  - unfold reported, or_else. destruct (truthy m); reflexivity.
  - simpl. rewrite Htr, <- app_assoc. auto.
Qed.

Lemma supabaseOperation_after_five_rejections_witness :
  exists w' tr,
    supabaseOperation (thunk MoreScenarios.rejecting) "Error fetching media"
                      Scenarios.world_online
    = (Threw (new_Error "Error fetching media: Failed to fetch"), w') /\
    trace w' = trace Scenarios.world_online ++ tr
               ++ [EvConsoleError [VStr "Error fetching media:";
                                   new_Error "Failed to fetch"]] /\
    invocations tr = 5%nat /\
    count_of is_console_error tr = 0%nat /\
    remote w' = 5%nat.
Proof.
  apply (@supabaseOperation_after_five_rejections nat MoreScenarios.rejecting
           "Error fetching media" Scenarios.world_online
           [new_Error "Failed to fetch"; new_Error "Failed to fetch";
            new_Error "Failed to fetch"; new_Error "Failed to fetch";
            new_Error "Failed to fetch"] 5%nat (VStr "Failed to fetch")).
  - reflexivity.
  - intro k; reflexivity.
  - repeat (eapply rej_cons; [reflexivity|]). apply rej_nil.
  - reflexivity.
  - reflexivity.
Defined.

(** X10.  When the thunk rejects on all five turns and the last
    rejection is [undefined] or [null], the [catch] block of the helper
    fails on its first statement, the read of [error.message]: the helper
    throws the TypeError of that read, without the label, and logs
    nothing. *)
Theorem supabaseOperation_nullish_rejection {R : Type}
        (f : R -> completion Result * R) (label : string) (w : World R)
        (es : list value) (s' : R) :
  onLine (env w) (reads w) = true ->
  comes_back_online (env w) ->
  rejections f (remote w) es s' ->
  List.length es = 5%nat ->
  nullish (last es VUndefined) = true ->
  exists w' tr,
    supabaseOperation (thunk f) label w
    = (Threw (TypeError_read (last es VUndefined) "message"), w') /\
    trace w' = trace w ++ tr /\
    invocations tr = 5%nat /\
    count_of is_console_error tr = 0%nat /\
    remote w' = s'.
Proof.
  intros Hon Hback Hrej Hlen Hnull.
  destruct (gives_up_after_check w Hback Hrej Hlen)
    as (w2 & tr & Hrun & Htr & Hinv & Hnc & Hs').
  rewrite (rejected_run (thunk f) label w Hon Hrun).
  exists w2, tr.
  destruct (last es VUndefined); try discriminate; simpl; auto.
Qed.

Lemma supabaseOperation_nullish_rejection_witness :
  exists w' tr,
    supabaseOperation (thunk MoreScenarios.rejecting_undefined)
                      "Error fetching media" Scenarios.world_online
    = (Threw (new_Error
                "Cannot read properties of undefined (reading 'message')"), w') /\
    trace w' = trace Scenarios.world_online ++ tr /\
    invocations tr = 5%nat /\
    count_of is_console_error tr = 0%nat /\
    remote w' = 5%nat.
Proof.
  apply (@supabaseOperation_nullish_rejection nat MoreScenarios.rejecting_undefined
           "Error fetching media" Scenarios.world_online
           [VUndefined; VUndefined; VUndefined; VUndefined; VUndefined] 5%nat).
  - reflexivity.
  - intro k; reflexivity.
  - repeat (eapply rej_cons; [reflexivity|]). apply rej_nil.
  - reflexivity.
  - reflexivity.
Defined.

(** X11.  Online, a thunk that rejects N times, N at most 4, and then
    resolves to a result without error and with truthy data makes the
    helper return that data after N+1 calls and the back-off delays
    1000, 2000, ...; nothing is logged. *)
Theorem supabaseOperation_recovers {R : Type}
        (f : R -> completion Result * R) (label : string) (N : nat)
        (w : World R) (r : Result) (s' : R) :
  (N <= 4)%nat ->
  onLine (env w) (reads w) = true ->
  comes_back_online (env w) ->
  fails_then_succeeds f N (remote w) r s' ->
  truthy (error r) = false ->
  truthy (data r) = true ->
  exists w' tr,
    supabaseOperation (thunk f) label w = (Returned (data r), w') /\
    trace w' = trace w ++ tr /\
    invocations tr = S N /\
    delays tr = backoff 1000 0 N /\
    count_of is_console_error tr = 0%nat /\
    remote w' = s'.
Proof.
  intros HN Hon Hback (es & s1 & Hrej & Hlen & Hok) Herr Hdata.
  destruct (@retry_loop_succeeds R Result (env w) EvInvoke f (thunk f)
              (fun _ _ => eq_refl) Hback eq_refl _ _ _ Hrej
              r s' 5%nat 1000 5%nat 0%nat VUndefined (after_online_check w)
              eq_refl eq_refl Hok)
    as (w' & tr & Hrun & Htr & Hsched & _ & _ & Hs' & _); [lia | lia |].
  rewrite Hlen in Hsched.
  rewrite (resolved_run (thunk f) label w Hon Hrun), Herr, Hdata. cbn [negb].
  exists w', tr. repeat split; auto.
  - rewrite <- invocations_filter, Hsched. apply invocations_schedule.
  - rewrite <- delays_filter, Hsched. apply delays_schedule.
  - apply thunk_actions_no_console.
    eapply withRetry_thunk_actions; [exact Hrun | exact Htr].
Qed.

Lemma supabaseOperation_recovers_witness :
  exists w' tr,
    supabaseOperation
      (thunk (fun n => if (n <? 1)%nat
                       then (Threw (new_Error "Failed to fetch"), S n)
                       else (Returned Scenarios.two_rows, S n)))
      "Error fetching media" Scenarios.world_online
    = (Returned (data Scenarios.two_rows), w') /\
    trace w' = trace Scenarios.world_online ++ tr /\
    invocations tr = 2%nat /\
    delays tr = [1000] /\
    count_of is_console_error tr = 0%nat /\
    remote w' = 2%nat.
Proof.
  apply (@supabaseOperation_recovers nat
           (fun n => if (n <? 1)%nat
                     then (Threw (new_Error "Failed to fetch"), S n)
                     else (Returned Scenarios.two_rows, S n))
           "Error fetching media" 1 Scenarios.world_online Scenarios.two_rows
           2%nat).
  - lia.
  - reflexivity.
  - intro k; reflexivity.
  - exists [new_Error "Failed to fetch"], 1%nat.
    repeat split. eapply rej_cons; [reflexivity | apply rej_nil].
  - reflexivity.
  - reflexivity.
Defined.

End OperationMore.

(* ================================================================== *)
(** * More on the session context *)
(* ================================================================== *)

Module SessionFacts.
Import AuthContext AuthProvider AuthFacts.

(** The session cells after one handler. *)
Lemma handle_auth {R : Type} (e : AuthEvent) (w : World R) :
  match e with
  | InitialSession s | StateChange _ s =>
      auth (snd (handle e w)) = mkAuth (user_of s) s false
  | SignOutCalled =>
      auth (snd (handle e w)) = auth w \/
      auth (snd (handle e w)) = mkAuth None None (loading (auth w))
  end.
Proof.
  destruct e as [s | name s |]; try reflexivity.
  unfold handle. rewrite signOut_run. cbv zeta.
  destruct (fst (serve (env w) RAuthSignOut (remote w))); simpl; auto.
Qed.

(** X12.  Starting from a state in which the cached user is the user of
    the cached session (as in the initial state, where both are null),
    this stays so after any sequence of session events and calls of
    [signOut], whatever the remote sign-out does. *)
Theorem user_follows_session {R : Type} (es : list AuthEvent) (w : World R) :
  consistent (auth w) -> consistent (auth (play es w)).
Proof.
  revert w. induction es as [|e es IH]; intros w Hc; [exact Hc|].
  simpl. apply IH.
  pose proof (handle_auth e w) as H.
  destruct e as [s | name s |].
  - rewrite H. reflexivity.
  - rewrite H. reflexivity.
  - destruct H as [H | H]; rewrite H; [exact Hc | reflexivity].
Qed.

Lemma user_follows_session_witness :
  consistent
    (auth (play [InitialSession None;
                 StateChange "SIGNED_IN"
                   (Some (mkSession "token-1" Scenarios.alice));
                 SignOutCalled;
                 StateChange "TOKEN_REFRESHED"
                   (Some (mkSession "token-2" Scenarios.alice))]
                (set_auth (mkAuth None None true) Scenarios.world_throwing))).
Proof.
  apply user_follows_session. reflexivity.
Defined.

(** X13.  The provider leaves the loading state for good: once [loading]
    is false no sequence of session events and sign-outs makes it true
    again, and any sequence that contains a session event ends with
    [loading] false, so that the children are rendered. *)
Theorem loading_ends_for_good {R : Type} (es : list AuthEvent) (w : World R) :
  (loading (auth w) = false -> loading (auth (play es w)) = false) /\
  (existsb carries_session es = true ->
   loading (auth (play es w)) = false /\
   renders_children (auth (play es w)) = true).
Proof.
  assert (Hkeep : forall es (w : World R),
             loading (auth w) = false -> loading (auth (play es w)) = false).
  { clear. induction es as [|e es IH]; intros w Hl; [exact Hl|].
    simpl. apply IH.
    pose proof (handle_auth e w) as H.
    destruct e as [s | name s |].
    - now rewrite H.
    - now rewrite H.
    - destruct H as [H | H]; rewrite H; exact Hl. }
  split; [apply Hkeep|].
  revert w. induction es as [|e es IH]; intros w He; [discriminate|].
  simpl in He. simpl play.
  destruct (carries_session e) eqn:Ee.
  - assert (Hl : loading (auth (snd (handle e w))) = false).
    { pose proof (handle_auth e w) as H.
      destruct e; [now rewrite H | now rewrite H | discriminate]. }
    unfold renders_children. rewrite (Hkeep es _ Hl). auto.
  - apply IH. exact He.
Qed.

Lemma loading_ends_for_good_witness :
  loading (auth (play [SignOutCalled; InitialSession None; SignOutCalled]
                      (set_auth (mkAuth None None true) Scenarios.world_erring)))
  = false /\
  renders_children
    (auth (play [SignOutCalled; InitialSession None; SignOutCalled]
                (set_auth (mkAuth None None true) Scenarios.world_erring)))
  = true.
Proof.
  apply (proj2 (loading_ends_for_good
                  [SignOutCalled; InitialSession None; SignOutCalled]
                  (set_auth (mkAuth None None true) Scenarios.world_erring))).
  reflexivity.
Defined.

(** X14.  A call of [signOut] sends the remote sign-out exactly once and
    nothing else, with no retry; it logs once when that call failed and
    not at all otherwise; and it touches neither the [loading] cell nor
    the cells of the gallery. *)
Theorem signOut_sends_once {R : Type} (w : World R) :
  requests (performed signOut w) = [RAuthSignOut] /\
  count_of is_console_error (performed signOut w)
  = match failed_with (fst (serve (env w) RAuthSignOut (remote w))) with
    | Some _ => 1%nat
    | None => 0%nat
    end /\
  loading (auth (snd (signOut w))) = loading (auth w) /\
  gallery (snd (signOut w)) = gallery w /\
  remote (snd (signOut w)) = snd (serve (env w) RAuthSignOut (remote w)).
Proof.
  pose proof (signOut_run w) as Hrun. cbv zeta in Hrun.
  destruct (serve (env w) RAuthSignOut (remote w)) as [[r | e |] s];
    cbn [fst snd failed_with] in *.
  - assert (Hp : performed signOut w
                 = [EvSent RAuthSignOut]
                     ++ (if truthy (error r)
                         then [EvConsoleError [VStr "Error signing out:"; error r]]
                         else [])).
    { apply @TraceFacts.performed_eq. now rewrite Hrun. }
    rewrite Hp, Hrun. destruct (truthy (error r)); repeat split.
  - assert (Hp : performed signOut w
                 = [EvSent RAuthSignOut;
                    EvConsoleError [VStr "Error signing out:"; e]]).
    { apply @TraceFacts.performed_eq. now rewrite Hrun. }
    rewrite Hp, Hrun. repeat split.
  - assert (Hp : performed signOut w = [EvSent RAuthSignOut]).
    { apply @TraceFacts.performed_eq. now rewrite Hrun. }
    rewrite Hp, Hrun. repeat split.
Qed.

End SessionFacts.

(* ================================================================== *)
(** * How much a handler can send *)
(* ================================================================== *)

Module BudgetFacts.
Import AuthContext Gallery RetryMore.

Section Budget.
Context {R : Type}.

Lemma sam_weaken {A} (n n' : nat) (m : M R A) :
  (n <= n')%nat -> sends_at_most n m -> sends_at_most n' m.
Proof.
  intros Hn Hm w. destruct (Hm w) as (tr & E & C). exists tr. split; auto. lia.
Qed.

Lemma sam_silent {A} (m : M R A) :
  (forall w, trace (snd (m w)) = trace w) -> sends_at_most 0 m.
Proof. intros H w. exists []. rewrite app_nil_r. split; auto. Qed.

Lemma sam_ret {A} (a : A) : sends_at_most 0 (@ret R A a).
Proof. now apply sam_silent. Qed.

Lemma sam_throw {A} (e : value) : sends_at_most 0 (@throw R A e).
Proof. now apply sam_silent. Qed.

Lemma sam_bind {A B} (n1 n2 : nat) (m : M R A) (k : A -> M R B) :
  sends_at_most n1 m -> (forall a, sends_at_most n2 (k a)) ->
  sends_at_most (n1 + n2) (bind m k).
Proof.
  intros Hm Hk w. destruct (Hm w) as (tr1 & E1 & C1).
  unfold bind. destruct (m w) as [[a | e |] w1]; simpl in *.
  - destruct (Hk a w1) as (tr2 & E2 & C2).
    exists (tr1 ++ tr2). rewrite E2, E1, app_assoc, count_of_app.
    split; auto. lia.
  - exists tr1. split; auto. lia.
  - exists tr1. split; auto. lia.
Qed.

Lemma sam_try_catch {A} (n1 n2 : nat) (m : M R A) (h : value -> M R A) :
  sends_at_most n1 m -> (forall e, sends_at_most n2 (h e)) ->
  sends_at_most (n1 + n2) (try_catch m h).
Proof.
  intros Hm Hh w. destruct (Hm w) as (tr1 & E1 & C1).
  unfold try_catch. destruct (m w) as [[a | e |] w1]; simpl in *.
  - exists tr1. split; auto. lia.
  - destruct (Hh e w1) as (tr2 & E2 & C2).
    exists (tr1 ++ tr2). rewrite E2, E1, app_assoc, count_of_app.
    split; auto. lia.
  - exists tr1. split; auto. lia.
Qed.

Lemma sam_try_finally {A} (n : nat) (m : M R A) (f : M R unit) :
  sends_at_most n m -> sends_at_most 0 f -> sends_at_most n (try_finally m f).
Proof.
  intros Hm Hf w. destruct (Hm w) as (tr1 & E1 & C1).
  unfold try_finally. destruct (m w) as [[a | e |] w1]; simpl in *.
  - destruct (@sam_bind unit A 0 0 f (fun _ => ret a) Hf (fun _ => sam_ret a) w1)
      as (tr2 & E2 & C2).
    exists (tr1 ++ tr2). rewrite E2, E1, app_assoc, count_of_app.
    split; auto. simpl in C2. lia.
  - destruct (@sam_bind unit A 0 0 f (fun _ => throw e) Hf (fun _ => sam_throw e) w1)
      as (tr2 & E2 & C2).
    exists (tr1 ++ tr2). rewrite E2, E1, app_assoc, count_of_app.
    split; auto. simpl in C2. lia.
  - exists tr1. split; auto.
Qed.

Lemma sam_when (n : nat) (c : bool) (m : M R unit) :
  sends_at_most n m -> sends_at_most n (when c m).
Proof.
  intro Hm. destruct c; simpl; auto.
  apply (@sam_weaken unit 0 n); [lia | apply sam_ret].
Qed.

Lemma sam_spawn (n : nat) (m : M R unit) :
  sends_at_most n m -> sends_at_most n (spawn m).
Proof.
  intros Hm w. destruct (Hm w) as (tr1 & E1 & C1).
  unfold spawn. destruct (m w) as [[a | e |] w1]; simpl in *.
  - now exists tr1.
  - exists (tr1 ++ [EvUnhandledRejection e]).
    rewrite E1, app_assoc, count_of_app. split; auto.
    unfold count_of at 2. simpl. lia.
  - now exists tr1.
Qed.

Lemma sam_log (e : event) : is_sent e = false -> sends_at_most 0 (@log R e).
Proof.
  intros He w. exists [e]. split; auto. unfold count_of. simpl. now rewrite He.
Qed.

Lemma sam_read (v : value) (k : string) : sends_at_most 0 (@read R v k).
Proof. unfold read. destruct (get v k); [apply sam_ret | apply sam_throw]. Qed.

Lemma sam_send (r : Request) : sends_at_most 1 (@send R r).
Proof.
  intro w. exists [EvSent r]. unfold send, external.
  destruct (serve (env w) r (remote w)); simpl. split; auto.
Qed.

Lemma sam_update_gallery f : sends_at_most 0 (@update_gallery R f).
Proof. now apply sam_silent. Qed.

Lemma sam_await_online : sends_at_most 0 (@await_online_event R).
Proof.
  intro w. exists [EvAwaitOnline]. unfold await_online_event.
  destruct (onlineFires (env w) (waits w)); simpl; split; auto.
Qed.

Lemma sam_attempt {A} (n : nat) (operation : M R A) maxRetries baseDelay i :
  sends_at_most n operation ->
  sends_at_most n (attempt operation maxRetries baseDelay i).
Proof.
  intro Hop. unfold attempt.
  apply (@sam_weaken _ (0 + (0 + (n + 0)) + 0)); [lia|].
  apply sam_try_catch.
  - apply sam_bind; [now apply sam_silent | intro online].
    apply sam_bind; [apply sam_when, sam_await_online | intros _].
    apply sam_bind; [exact Hop | intro a; apply sam_ret].
  - intro e. apply (@sam_bind unit _ 0 0); [|intros _; apply sam_ret].
    apply sam_when. now apply sam_log.
Qed.

(** A loop with [todo] turns left sends at most [todo] times what one
    call of the operation sends. *)
Lemma sam_retry_loop {A} (n : nat) (operation : M R A) maxRetries baseDelay todo :
  sends_at_most n operation ->
  forall i lastError,
    sends_at_most (todo * n)
      (retry_loop operation maxRetries baseDelay todo i lastError).
Proof.
  intro Hop. induction todo as [|todo IH]; intros i lastError.
  - apply sam_throw.
  - cbn [retry_loop]. change (S todo * n)%nat with (n + todo * n)%nat.
    apply sam_bind; [now apply sam_attempt | intros [a | e]].
    + apply (@sam_weaken _ 0); [lia | apply sam_ret].
    + apply IH.
Qed.

Lemma sam_supabaseOperation (n : nat) (operation : M R Result) (label : string) :
  sends_at_most n operation ->
  sends_at_most (5 * n) (supabaseOperation operation label).
Proof.
  intro Hop. unfold supabaseOperation.
  apply (@sam_weaken _ (0 + (5 * n + 0 + 0))); [lia|].
  apply sam_bind; [now apply sam_silent | intro online].
  destruct (negb online).
  { apply (@sam_weaken _ 0); [lia | apply sam_throw]. }
  apply sam_try_catch.
  - apply sam_bind; [now apply sam_retry_loop | intro r].
    destruct (truthy (error r)).
    + apply (@sam_bind unit _ 0 0); [now apply sam_log | intros _; apply sam_throw].
    + destruct (negb (truthy (data r))); [apply sam_throw | apply sam_ret].
  - intro e. apply (@sam_bind _ _ 0 0); [apply sam_read | intro m].
    apply (@sam_bind unit _ 0 0); [now apply sam_log | intros _; apply sam_throw].
Qed.

Lemma sam_fetchMedia (c : Closure) : sends_at_most 5 (@fetchMedia R c).
Proof.
  unfold fetchMedia. destruct (c_user c) as [u|].
  2:{ apply (@sam_weaken _ 0); [lia | apply sam_ret]. }
  apply (@sam_weaken _ (5 * 1 + 0 + 0)); [lia|].
  apply sam_try_catch.
  - apply sam_bind; [|intro d; apply sam_update_gallery].
    apply sam_supabaseOperation, sam_send.
  - intro e. apply (@sam_bind unit _ 0 0); [now apply sam_log | intros _; apply sam_throw].
Qed.

Lemma sam_fetchFolders (c : Closure) : sends_at_most 5 (@fetchFolders R c).
Proof.
  unfold fetchFolders. destruct (c_user c) as [u|].
  2:{ apply (@sam_weaken _ 0); [lia | apply sam_ret]. }
  apply (@sam_weaken _ (5 * 1 + 0 + 0)); [lia|].
  apply sam_try_catch.
  - apply sam_bind; [|intro d; apply sam_update_gallery].
    apply sam_supabaseOperation, sam_send.
  - intro e. apply (@sam_bind unit _ 0 0); [now apply sam_log | intros _; apply sam_throw].
Qed.

Lemma sam_fail_when (r : Result) :
  sends_at_most 0 (@when R (truthy (error r)) (throw (error r))).
Proof. apply sam_when, sam_throw. Qed.

Lemma sam_handler (label msg : string) (e : value) :
  sends_at_most 0 (console_error (R := R) [VStr label; e] ;;; alert msg).
Proof.
  apply (@sam_bind unit _ 0 0); [now apply sam_log | intros _; now apply sam_log].
Qed.

End Budget.

(** X15.  No handler sends more than a fixed number of requests through
    the client, whatever the service answers: a refresh of the media or
    of the folders at most 5 (the turns of the retry loop), a sign-out
    at most 1, the creation of a folder at most 6, an upload,
    the deletion of a folder and the deletion of a media item at most 7
    each (their own two requests and the refresh that follows). *)
Theorem request_budgets {R : Type} (c : Closure) :
  sends_at_most 5 (@fetchMedia R c) /\
  sends_at_most 5 (@fetchFolders R c) /\
  sends_at_most 1 (@signOut R) /\
  (forall answer, sends_at_most 6 (@createFolder R c answer)) /\
  (forall file random, sends_at_most 7 (@handleFileUpload R c file random)) /\
  (forall folderId answer, sends_at_most 7 (@deleteFolder R c folderId answer)) /\
  (forall item answer, sends_at_most 7 (@deleteMedia R c item answer)).
Proof.
  split; [apply sam_fetchMedia|]. split; [apply sam_fetchFolders|].
  split; [|split; [|split; [|split]]].
  - unfold signOut. apply (@sam_weaken _ _ (1 + (0 + (0 + 0)) + 0)); [lia|].
    apply sam_try_catch.
    + apply sam_bind; [apply sam_send | intro r].
      apply sam_bind; [apply sam_fail_when | intros _].
      apply sam_bind; [now apply sam_silent | intros _; now apply sam_silent].
    + intro e. apply (@sam_bind _ unit _ 0 0); [now apply sam_log | intros _].
      apply (@sam_bind _ unit _ 0 0); [now apply sam_silent | intros _; now apply sam_silent].
  - intro answer. unfold createFolder. destruct (c_user c) as [u|].
    2:{ apply (@sam_weaken _ _ 0); [lia | now apply sam_log]. }
    apply (@sam_weaken _ _ (0 + 6)); [lia|].
    apply sam_bind; [|intro name].
    { unfold prompt. apply (@sam_bind _ unit _ 0 0); [now apply sam_log | intros _; apply sam_ret]. }
    destruct (negb (truthy name)).
    { apply (@sam_weaken _ _ 0); [lia | apply sam_ret]. }
    apply (@sam_weaken _ _ (1 + (0 + (5 + 0)) + 0)); [lia|].
    apply sam_try_catch; [|intro e; apply sam_handler].
    apply sam_bind; [apply sam_send | intro r].
    apply sam_bind; [apply sam_fail_when | intros _].
    apply sam_bind; [apply sam_spawn, sam_fetchFolders | intros _].
    apply sam_update_gallery.
  - intros file random. unfold handleFileUpload.
    destruct file as [file|], (c_user c) as [u|];
      try (apply (@sam_weaken _ _ 0); [lia | first [now apply sam_log | apply sam_ret]]).
    match goal with |- context [if ?b then alert _ else _] => destruct b end.
    { apply (@sam_weaken _ _ 0); [lia | now apply sam_log]. }
    apply (@sam_weaken _ _ (0 + (0 + 7))); [lia|].
    apply sam_bind; [apply sam_update_gallery | intros _].
    apply sam_bind; [apply sam_update_gallery | intros _].
    apply sam_try_finally.
    + apply (@sam_weaken _ _ (1 + (0 + (0 + (1 + (0 + 5)))) + 0)); [lia|].
      apply sam_try_catch; [|intro e; apply sam_handler].
      apply sam_bind; [apply sam_send | intro up].
      apply sam_bind; [apply sam_fail_when | intros _].
      apply sam_bind; [apply sam_read | intro path].
      apply sam_bind; [apply sam_send | intro ins].
      apply sam_bind; [apply sam_fail_when | intros _].
      apply sam_spawn, sam_fetchMedia.
    + apply (@sam_bind _ unit _ 0 0); [apply sam_update_gallery | intros _].
      apply (@sam_bind _ unit _ 0 0); [apply sam_update_gallery | intros _].
      apply sam_update_gallery.
  - intros folderId answer. unfold deleteFolder. destruct (c_user c) as [u|].
    2:{ apply (@sam_weaken _ _ 0); [lia | apply sam_ret]. }
    apply (@sam_weaken _ _ (0 + 7)); [lia|].
    apply sam_bind; [|intro ok].
    { unfold confirm. apply (@sam_bind _ unit _ 0 0); [now apply sam_log | intros _; apply sam_ret]. }
    destruct (negb ok).
    { apply (@sam_weaken _ _ 0); [lia | apply sam_ret]. }
    apply (@sam_weaken _ _ (1 + (0 + (1 + (0 + (5 + 0)))) + 0)); [lia|].
    apply sam_try_catch; [|intro e; apply sam_handler].
    apply sam_bind; [apply sam_send | intro photos].
    apply sam_bind; [apply sam_fail_when | intros _].
    apply sam_bind; [apply sam_send | intro folder].
    apply sam_bind; [apply sam_fail_when | intros _].
    apply sam_bind; [apply sam_spawn, sam_fetchFolders | intros _].
    apply sam_when, sam_update_gallery.
  - intros item answer. unfold deleteMedia.
    apply (@sam_weaken _ _ (0 + 7)); [lia|].
    apply sam_bind; [now apply sam_log | intros _].
    destruct (c_user c) as [u|].
    2:{ apply (@sam_weaken _ _ 0); [lia | apply sam_ret]. }
    destruct (c_isDeletingMedia c).
    { apply (@sam_weaken _ _ 0); [lia | apply sam_ret]. }
    apply (@sam_weaken _ _ (0 + 7)); [lia|].
    apply sam_bind; [|intro ok].
    { unfold confirm. apply (@sam_bind _ unit _ 0 0); [now apply sam_log | intros _; apply sam_ret]. }
    destruct (negb ok).
    { apply (@sam_weaken _ _ 0); [lia | apply sam_ret]. }
    apply (@sam_weaken _ _ (0 + 7)); [lia|].
    apply sam_bind; [apply sam_update_gallery | intros _].
    apply sam_try_finally; [|apply sam_update_gallery].
    apply (@sam_weaken _ _ (0 + (1 + (0 + (0 + (1 + (0 + (0 + 5)))))) + 0)); [lia|].
    apply sam_try_catch; [|intro e; apply sam_handler].
    apply sam_bind; [apply sam_read | intro url].
    apply sam_bind; [apply sam_send | intro st].
    apply sam_bind; [apply sam_fail_when | intros _].
    apply sam_bind; [apply sam_read | intro item_id].
    apply sam_bind; [apply sam_send | intro db].
    apply sam_bind; [apply sam_fail_when | intros _].
    apply sam_bind; [apply sam_update_gallery | intros _].
    apply sam_fetchMedia.
Qed.

End BudgetFacts.

(* ================================================================== *)
(** * More on the gallery: what is written, and where *)
(* ================================================================== *)

Module GalleryMore.
Import Gallery TraceFacts GalleryFacts FrameFacts OperationFacts.

(** ** The extension of a file name *)

Lemma has_dot_app (a b : string) :
  has_dot (a ++ b) = has_dot a || has_dot b.
Proof.
  induction a as [|c a IH]; simpl; [reflexivity|].
  rewrite IH. now rewrite orb_assoc.
Qed.

Lemma last_segment_no_dot (s : string) :
  has_dot s = false -> forall acc, last_segment s acc = (acc ++ s)%string.
Proof.
  induction s as [|c s IH]; intros H acc; simpl in *.
  - now rewrite append_empty_r.
  - apply orb_false_elim in H as [Hc Hs]. rewrite Hc, (IH Hs).
    now rewrite append_assoc.
Qed.

Lemma last_segment_after_dot (ext : string) :
  has_dot ext = false ->
  forall base acc, last_segment (base ++ "." ++ ext) acc = ext.
Proof.
  intros Hext. induction base as [|c base IH]; intro acc; simpl.
  - now rewrite (last_segment_no_dot _ Hext).
  - destruct (Ascii.eqb c "."); apply IH.
Qed.

Lemma last_segment_dot_free (s : string) :
  forall acc, has_dot acc = false -> has_dot (last_segment s acc) = false.
Proof.
  induction s as [|c s IH]; intros acc Hacc; simpl; [exact Hacc|].
  destruct (Ascii.eqb c ".") eqn:Ec.
  - now apply IH.
  - apply IH. rewrite has_dot_app, Hacc. simpl. now rewrite Ec.
Qed.

(** X16.  The extension taken from a file name, [name.split('.').pop()],
    is the text after the last dot: for a name [base.ext] with no dot in
    [ext] it is [ext]; a name without any dot is taken whole; and the
    result never contains a dot. *)
Theorem extension_of_name (name : string) :
  (forall base ext, name = (base ++ "." ++ ext)%string -> has_dot ext = false ->
                    split_dot_pop name = ext) /\
  (has_dot name = false -> split_dot_pop name = name) /\
  has_dot (split_dot_pop name) = false.
Proof.
  unfold split_dot_pop. repeat split.
  - intros base ext -> Hext. now apply last_segment_after_dot.
  - intro H. now rewrite (last_segment_no_dot _ H).
  - now apply last_segment_dot_free.
Qed.

Lemma extension_of_name_witness :
  split_dot_pop "holiday.final.mp4" = "mp4"%string /\
  split_dot_pop "README" = "README"%string.
Proof.
  split.
  - apply (proj1 (extension_of_name "holiday.final.mp4") "holiday.final" "mp4");
      reflexivity.
  - apply (proj1 (proj2 (extension_of_name "README"))). reflexivity.
Defined.

(** ** What the writing handlers can send *)

Section Writers.
Context {R : Type}.

Lemma rs_handler (Q : Request -> Prop) (label msg : string) (e : value) :
  requests_satisfy Q (console_error (R := R) [VStr label; e] ;;; alert msg).
Proof. apply rs_bind; now (try intros _; apply rs_log). Qed.

Lemma rs_handleFileUpload (c : Closure) (u : User) (file : File) (random : string) :
  c_user c = Some u ->
  requests_satisfy
    (fun r => r = upload_request u file random \/
              (exists path, r = insert_request u (c_currentFolder c) file path) \/
              r = media_listing (id u) (c_currentFolder c))
    (@handleFileUpload R c (Some file) random).
Proof.
  intro Hu. unfold handleFileUpload. rewrite Hu.
  match goal with |- context [if ?b then alert _ else _] => destruct b end.
  { now apply rs_log. }
  apply rs_bind; [apply rs_update_gallery | intros _].
  apply rs_bind; [apply rs_update_gallery | intros _].
  apply rs_try_finally.
  - apply rs_try_catch; [|intro e; apply rs_handler].
    apply rs_bind; [apply rs_send; now left | intro up].
    apply rs_bind; [apply rs_fail_when | intros _].
    apply rs_bind; [apply rs_read | intro path].
    apply rs_bind; [apply rs_send; right; left; now exists path | intro ins].
    apply rs_bind; [apply rs_fail_when | intros _].
    apply rs_spawn, rs_fetchMedia_any.
    intros u' Hu'. right; right. congruence.
  - apply rs_bind; [apply rs_update_gallery | intros _].
    apply rs_bind; [apply rs_update_gallery | intros _].
    apply rs_update_gallery.
Qed.

Lemma rs_after_prompt {A} (Q : Request -> Prop) (msg : string) (answer : value)
      (k : value -> M R A) :
  requests_satisfy Q (k answer) ->
  requests_satisfy Q (bind (prompt msg answer) k).
Proof.
  intros Hk w.
  destruct (Hk (snd (log (EvPrompt msg answer) w))) as (tr & E & F).
  exists (EvPrompt msg answer :: tr). split.
  - unfold bind, prompt, bind, log, ret in *. simpl in *.
    rewrite E, <- app_assoc. reflexivity.
  - constructor; [exact I | exact F].
Qed.

Lemma rs_createFolder (c : Closure) (u : User) (answer : value) :
  c_user c = Some u ->
  requests_satisfy
    (fun r => r = create_folder_request u answer \/ r = folder_listing (id u))
    (@createFolder R c answer).
Proof.
  intro Hu. unfold createFolder. rewrite Hu.
  apply rs_after_prompt.
  destruct (negb (truthy answer)); [apply rs_ret|].
  apply rs_try_catch; [|intro e; apply rs_handler].
  apply rs_bind; [apply rs_send; now left | intro r].
  apply rs_bind; [apply rs_fail_when | intros _].
  apply rs_bind; [|intros _; apply rs_update_gallery].
  apply rs_spawn, rs_fetchFolders_any.
  intros u' Hu'. right. congruence.
Qed.

End Writers.

(** X17.  Every row the client inserts names the current user as its
    owner: the rows [handleFileUpload] inserts go to [photos] with
    [uploaded_by] set to the user's id, the rows [createFolder] inserts
    go to [folders] with [user_id] set to it. *)
Theorem inserted_rows_belong_to_user {R : Type} (c : Closure) (u : User)
        (w : World R) :
  c_user c = Some u ->
  (forall file random q rows row,
      In (EvSent (RQuery q)) (performed (handleFileUpload c (Some file) random) w) ->
      q_verb q = VInsert rows -> In row rows ->
      q_table q = "photos"%string /\
      get row (owner_column (q_table q)) = inl (VStr (id u))) /\
  (forall answer q rows row,
      In (EvSent (RQuery q)) (performed (createFolder c answer) w) ->
      q_verb q = VInsert rows -> In row rows ->
      q_table q = "folders"%string /\
      get row (owner_column (q_table q)) = inl (VStr (id u))).
Proof.
  intro Hu. split.
  - intros file random q rows row Hin Hv Hrow.
    destruct (@performed_in _ _ _ _ w _ (rs_handleFileUpload c file random Hu) Hin)
      as [H | [(path & H) | H]]; try discriminate; injection H as ->;
      simpl in Hv; try discriminate.
    injection Hv as <-. destruct Hrow as [<- | []]. now split.
  - intros answer q rows row Hin Hv Hrow.
    destruct (@performed_in _ _ _ _ w _ (rs_createFolder c answer Hu) Hin)
      as [H | H]; injection H as ->; simpl in Hv; try discriminate.
    injection Hv as <-. destruct Hrow as [<- | []]. now split.
Qed.

Lemma inserted_rows_belong_to_user_witness :
  q_table (mkQuery "photos"
             (VInsert [VObj [("url", VStr "u1/0.731.mp4"); ("folder_id", VNull);
                             ("uploaded_by", VStr "u1");
                             ("media_type", VStr "video")]]) [] [])
  = "photos"%string /\
  get (VObj [("url", VStr "u1/0.731.mp4"); ("folder_id", VNull);
             ("uploaded_by", VStr "u1"); ("media_type", VStr "video")])
      (owner_column "photos")
  = inl (VStr "u1").
Proof.
  apply (proj1 (@inserted_rows_belong_to_user nat Scenarios.at_root
                  Scenarios.alice Scenarios.world_storing eq_refl)
               Scenarios.video_40MB "0.731"%string
               (mkQuery "photos"
                  (VInsert [VObj [("url", VStr "u1/0.731.mp4"); ("folder_id", VNull);
                                  ("uploaded_by", VStr "u1");
                                  ("media_type", VStr "video")]]) [] [])
               [VObj [("url", VStr "u1/0.731.mp4"); ("folder_id", VNull);
                      ("uploaded_by", VStr "u1"); ("media_type", VStr "video")]]).
  - vm_compute. right. left. reflexivity.
  - reflexivity.
  - now left.
Defined.

(** X18.  Whatever the service answers, [handleFileUpload] never sends a
    delete, neither of a row nor of a stored object, and any upload it
    sends puts the chosen file into the bucket [photos] under the user's
    own prefix, at [<user id>/<random>.<extension>]. *)
Theorem uploads_stay_under_user_prefix {R : Type} (c : Closure) (u : User)
        (file : File) (random : string) (w : World R) (r : Request) :
  c_user c = Some u ->
  In (EvSent r) (performed (handleFileUpload c (Some file) random) w) ->
  is_delete r = false /\
  (forall bucket path f,
      r = RStorageUpload bucket path f ->
      bucket = "photos"%string /\ f = file /\
      path = (id u ++ "/" ++ random ++ "." ++ split_dot_pop (file_name file))%string /\
      String.prefix (id u ++ "/") path = true).
Proof.
  intros Hu Hin.
  destruct (@performed_in _ _ _ _ w _ (rs_handleFileUpload c file random Hu) Hin)
    as [-> | [(path & ->) | ->]]; (split; [reflexivity|]);
    intros bucket p f H; try discriminate.
  injection H as <- <- <-. repeat split.
  exact (eq_trans
           (f_equal (String.prefix (id u ++ "/"))
                    (eq_sym (append_assoc (id u) "/"
                               (random ++ "." ++ split_dot_pop (file_name file)))))
           (prefix_append _ _)).
Qed.

Lemma uploads_stay_under_user_prefix_witness :
  is_delete (RStorageUpload "photos" "u1/0.731.mp4" Scenarios.video_40MB) = false /\
  (forall bucket path f,
      RStorageUpload "photos" "u1/0.731.mp4" Scenarios.video_40MB
      = RStorageUpload bucket path f ->
      bucket = "photos"%string /\ f = Scenarios.video_40MB /\
      path = ("u1" ++ "/" ++ "0.731" ++ "."
              ++ split_dot_pop (file_name Scenarios.video_40MB))%string /\
      String.prefix ("u1" ++ "/") path = true).
Proof.
  apply (@uploads_stay_under_user_prefix nat Scenarios.at_root Scenarios.alice
           Scenarios.video_40MB "0.731" Scenarios.world_storing).
  - reflexivity.
  - vm_compute. left. reflexivity.
Defined.

(** ** Creating a folder *)

(** X19.  [createFolder] does nothing on the service without a signed-in
    user and a name: for a guest it only navigates to the login page,
    without asking for a name; when the prompt is cancelled or left empty
    it stops after the prompt.  In both cases nothing is sent and no cell
    of the gallery changes. *)
Theorem createFolder_without_name {R : Type} (c : Closure) (answer : value)
        (w : World R) :
  (c_user c = None ->
   performed (createFolder c answer) w = [EvNavigate "/login"] /\
   gallery (snd (createFolder c answer w)) = gallery w /\
   remote (snd (createFolder c answer w)) = remote w) /\
  (c_user c <> None -> truthy answer = false ->
   performed (createFolder c answer) w = [EvPrompt "Enter folder name:" answer] /\
   gallery (snd (createFolder c answer w)) = gallery w /\
   remote (snd (createFolder c answer w)) = remote w).
Proof.
  split.
  - intro Hu. unfold createFolder. rewrite Hu. repeat split.
    apply @performed_eq. reflexivity.
  - intros Hu Hempty. unfold createFolder.
    destruct (c_user c) as [u|]; [|now elim Hu].
    assert (H : runs (name <- prompt "Enter folder name:" answer ;;
                      if negb (truthy name) then ret tt
                      else
                        try_catch
                          (r <- send (R := R)
                                  (RQuery (from "folders"
                                           |> insert [VObj [("name", name);
                                                            ("user_id", VStr (id u))]])) ;;
                           when (truthy (error r)) (throw (error r)) ;;;
                           spawn (fetchFolders c) ;;;
                           setIsMobileMenuOpen false)
                          (fun error =>
                             console_error [VStr "Error creating folder:"; error] ;;;
                             alert "Error creating folder"))
                     w (Returned tt)
                     (snd (log (EvPrompt "Enter folder name:" answer) w))
                     [EvPrompt "Enter folder name:" answer]).
    { eapply runs_trace_eq.
      - eapply runs_bind; [apply runs_prompt|].
        cbv beta. rewrite Hempty. cbn [negb]. apply runs_ret.
      - reflexivity. }
    destruct (runs_performed H) as [Hp Hw]. rewrite Hp, Hw. repeat split.
Qed.

Lemma createFolder_without_name_witness :
  performed (createFolder Scenarios.at_root (VStr "")) Scenarios.world_alice
  = [EvPrompt "Enter folder name:" (VStr "")] /\
  gallery (snd (createFolder Scenarios.at_root (VStr "") Scenarios.world_alice))
  = gallery Scenarios.world_alice /\
  remote (snd (createFolder Scenarios.at_root (VStr "") Scenarios.world_alice))
  = remote Scenarios.world_alice.
Proof.
  apply (proj2 (@createFolder_without_name nat Scenarios.at_root (VStr "")
                  Scenarios.world_alice)).
  - discriminate.
  - reflexivity.
Defined.

(** X20.  With a user and a name, [createFolder] sends one insert of the
    row [{ name, user_id }].  If that fails it logs, alerts and stops: the
    folder list is not refreshed and no cell of the gallery changes, the
    mobile menu stays as it was.  If it succeeds, the only requests that
    follow are listings of the user's folders, and the mobile menu is
    closed. *)
Theorem createFolder_outcomes {R : Type} (c : Closure) (u : User)
        (answer : value) (w : World R) :
  c_user c = Some u ->
  truthy answer = true ->
  (forall cause,
      failed_with (fst (serve (env w) (create_folder_request u answer) (remote w)))
      = Some cause ->
      performed (createFolder c answer) w
      = [EvPrompt "Enter folder name:" answer;
         EvSent (create_folder_request u answer);
         EvConsoleError [VStr "Error creating folder:"; cause];
         EvAlert "Error creating folder"] /\
      gallery (snd (createFolder c answer w)) = gallery w /\
      remote (snd (createFolder c answer w))
      = snd (serve (env w) (create_folder_request u answer) (remote w))) /\
  (forall r,
      fst (serve (env w) (create_folder_request u answer) (remote w)) = Returned r ->
      truthy (error r) = false ->
      exists tr,
        performed (createFolder c answer) w
        = EvPrompt "Enter folder name:" answer
            :: EvSent (create_folder_request u answer) :: tr /\
        Forall (on_requests (fun x => x = folder_listing (id u))) tr /\
        inserts (performed (createFolder c answer) w) = 1%nat /\
        isMobileMenuOpen (gallery (snd (createFolder c answer w))) = false).
Proof.
  intros Hu Hname. split.
  - intros cause Hfail. unfold createFolder. rewrite Hu.
    match goal with
    | |- context [performed ?m w] => eassert (H : runs m w (Returned tt) _ _)
    end.
    { eapply runs_bind; [apply runs_prompt|].
      cbv beta. rewrite Hname. cbn [negb].
      eapply runs_try_catch; [|apply runs_handler].
      apply (@runs_send_failed R (create_folder_request u answer)
               (snd (log (EvPrompt "Enter folder name:" answer) w)) cause).
      exact Hfail. }
    destruct (runs_performed H) as [Hp Hw]. rewrite Hp, Hw. repeat split.
  - intros r Hres Herr. unfold createFolder. rewrite Hu.
    destruct (@runs_spawn R _ (fetchFolders c)
                (mkWorld (env w)
                   (snd (serve (env w) (create_folder_request u answer) (remote w)))
                   (reads w) (waits w) (auth w) (gallery w)
                   ((trace w ++ [EvPrompt "Enter folder name:" answer])
                    ++ [EvSent (create_folder_request u answer)]))
                (rs_fetchFolders c Hu))
      as (w3 & tr & Hspawn & Hall & _).
    match goal with
    | |- context [performed ?m w] => eassert (H : runs m w (Returned tt) _ _)
    end.
    { eapply runs_bind; [apply runs_prompt|].
      cbv beta. rewrite Hname. cbn [negb].
      apply runs_try_returned.
      apply (@runs_send_ok R (create_folder_request u answer)
               (snd (log (EvPrompt "Enter folder name:" answer) w)) r);
        [exact Hres | exact Herr |].
      eapply runs_bind; [exact Hspawn|].
      apply runs_silent; reflexivity. }
    destruct (runs_performed H) as [Hp Hw].
    exists tr. rewrite Hp, Hw. simpl. rewrite app_nil_r.
    repeat split; auto.
    unfold inserts. simpl. f_equal.
    clear - Hall. induction Hall as [|e tr He _ IH]; [reflexivity|].
    destruct e; simpl in *; auto. subst. simpl. exact IH.
Qed.

Lemma createFolder_outcomes_witness :
  exists tr,
    performed (createFolder Scenarios.at_root (VStr "Holidays")) Scenarios.world_alice
    = EvPrompt "Enter folder name:" (VStr "Holidays")
        :: EvSent (create_folder_request Scenarios.alice (VStr "Holidays")) :: tr /\
    Forall (on_requests (fun x => x = folder_listing "u1")) tr /\
    inserts (performed (createFolder Scenarios.at_root (VStr "Holidays"))
                       Scenarios.world_alice) = 1%nat /\
    isMobileMenuOpen
      (gallery (snd (createFolder Scenarios.at_root (VStr "Holidays")
                       Scenarios.world_alice))) = false.
Proof.
  apply (proj2 (@createFolder_outcomes nat Scenarios.at_root Scenarios.alice
                  (VStr "Holidays") Scenarios.world_alice eq_refl eq_refl)
               (mkResult (VArr []) VNull)); reflexivity.
Defined.

(** ** Handlers never reject *)

Section Settling.
Context {R : Type}.





Lemma nr_try_catch {A} (m : M R A) (h : value -> M R A) :
  (forall e, never_rejects (h e)) -> never_rejects (try_catch m h).
Proof.
  intros Hh w e. unfold try_catch.
  destruct (m w) as [[a | x |] w1]; [discriminate | apply Hh | discriminate].
Qed.


Lemma nr_handler (label msg : string) (e : value) :
  never_rejects (console_error (R := R) [VStr label; e] ;;; alert msg).
Proof. intros w x. discriminate. Qed.



(** A guarded block whose [try ... catch] never rejects either returns,
    after the [finally] block has run, or stays pending, and then the
    [finally] block has not run. *)
Lemma settles {A} (m : M R A) (f : M R unit) (w : World R) :
  never_rejects m ->
  (exists a w1, m w = (Returned a, w1) /\
                try_finally m f w = (f ;;; ret a) w1) \/
  (exists w1, m w = (Suspended, w1) /\ try_finally m f w = (Suspended, w1)).
Proof.
  intro Hm. specialize (Hm w). unfold try_finally.
  destruct (m w) as [[a | x |] w1]; cbn [fst] in *.
  - left. now exists a, w1.
  - now elim (Hm x).
  - right. now exists w1.
Qed.

End Settling.

(** ** The listings *)

Section Listings.
Context {R : Type}.

Lemma helper_returns_truthy (operation : M R Result) (label : string)
      (w w' : World R) (d : value) :
  supabaseOperation operation label w = (Returned d, w') -> truthy d = true.
Proof.
  intro Hret.
  destruct (onLine (env w) (reads w)) eqn:Hon.
  2:{ rewrite (offline_run operation label w Hon) in Hret. discriminate. }
  destruct (withRetry_default operation (after_online_check w))
    as [[r | x |] w2] eqn:Hrun.
  - rewrite (resolved_run operation label w Hon Hrun) in Hret.
    destruct (truthy (error r)).
    + destruct (get (error r) "message"); discriminate.
    + destruct (truthy (data r)) eqn:Hd; cbn [negb] in Hret; [|discriminate].
      now injection Hret as <- _.
  - rewrite (rejected_run operation label w Hon Hrun) in Hret.
    destruct (get x "message"); discriminate.
  - rewrite (suspended_run operation label w Hon Hrun) in Hret. discriminate.
Qed.

(** A listing through the helper, followed by the setter of its cell. *)
Lemma listing_run (r : Request) (label tag : string)
      (set : value -> M R unit) (w : World R) :
  (forall d w1, set d w1 = (Returned tt, snd (set d w1))) ->
  (forall d w1 w2, gallery w1 = gallery w2 ->
                   gallery (snd (set d w1)) = gallery (snd (set d w2))) ->
  match
    try_catch (data <- supabaseOperation (send r) label ;; set data)
              (fun error => console_error [VStr tag; error] ;;; throw error) w
  with
  | (Returned _, w') =>
      exists d w1,
        supabaseOperation (send r) label w = (Returned d, w1) /\
        w' = snd (set d w1) /\
        truthy d = true /\ gallery w' = gallery (snd (set d w))
  | (_, w') => gallery w' = gallery w
  end.
Proof.
  intros Hset Hsame.
  pose proof (helper_keeps_gallery r label w) as Hkeep.
  unfold same_gallery in Hkeep.
  unfold try_catch, bind.
  destruct (supabaseOperation (send r) label w) as [[d | e |] w1] eqn:Hop;
    cbn [snd] in Hkeep.
  - rewrite Hset. exists d, w1. repeat split.
    + exact (helper_returns_truthy _ _ _ Hop).
    + apply Hsame. exact Hkeep.
  - exact Hkeep.
  - exact Hkeep.
Qed.

Lemma media_query (c : Closure) (u : User) :
  RQuery (if truthy (nullable (c_currentFolder c))
          then from "photos" |> select "*" |> eq_ "uploaded_by" (VStr (id u))
               |> order "created_at" false
               |> eq_ "folder_id" (nullable (c_currentFolder c))
          else from "photos" |> select "*" |> eq_ "uploaded_by" (VStr (id u))
               |> order "created_at" false
               |> filter_ "folder_id" "is" VNull)
  = media_listing (id u) (c_currentFolder c).
Proof.
  unfold media_listing, folder_condition.
  destruct (c_currentFolder c) as [f|]; simpl; [|reflexivity].
  destruct (f =? "")%string; reflexivity.
Qed.

Lemma folders_query (u : User) :
  RQuery (from "folders" |> select "*" |> eq_ "user_id" (VStr (id u))
          |> order "created_at" false)
  = folder_listing (id u).
Proof. reflexivity. Qed.

End Listings.

(** X22.  A listing only ever replaces its own cell, and only with
    truthy data: when [fetchMedia] returns for a signed-in user, the
    helper has returned truthy data for the listing of the user's media
    and the gallery is the old one with [media] set to that data; when
    it rejects or stays pending, and for a guest, the gallery is
    untouched, so the items shown stay on screen.  The same holds for
    [fetchFolders] and [folders]. *)
Theorem listings_replace_their_cell {R : Type} (c : Closure) (w : World R) :
  match fetchMedia c w with
  | (Returned _, w') =>
      (c_user c = None /\ w' = w) \/
      (exists d, truthy d = true /\ gallery w' = gallery (snd (setMedia d w)) /\
                 exists u w1,
                   c_user c = Some u /\
                   supabaseOperation
                     (send (media_listing (id u) (c_currentFolder c)))
                     "Error fetching media" w = (Returned d, w1) /\
                   w' = snd (setMedia d w1))
  | (_, w') => gallery w' = gallery w
  end /\
  match fetchFolders c w with
  | (Returned _, w') =>
      (c_user c = None /\ w' = w) \/
      (exists d, truthy d = true /\ gallery w' = gallery (snd (setFolders d w)) /\
                 exists u w1,
                   c_user c = Some u /\
                   supabaseOperation (send (folder_listing (id u)))
                                     "Error fetching folders" w = (Returned d, w1) /\
                   w' = snd (setFolders d w1))
  | (_, w') => gallery w' = gallery w
  end.
Proof.
  split.
  - unfold fetchMedia. destruct (c_user c) as [u|] eqn:Hu; [|now left].
    cbv zeta.
    pose proof (@listing_run R (media_listing (id u) (c_currentFolder c))
                  "Error fetching media" "Error fetching media:" setMedia w
                  (fun _ _ => eq_refl)) as H.
    rewrite <- (media_query c u) in H.
    match type of H with
    | _ -> match ?x with _ => _ end =>
        destruct x as [[[] | e |] w']
    end.
    + right.
      destruct H as (d & w1 & Hop & Hw & Hd & Hg);
        [intros d w1 w2 E; simpl; now rewrite E|].
      exists d. split; [exact Hd|]. split; [exact Hg|].
      exists u, w1. rewrite <- (media_query c u). auto.
    + apply H. intros d w1 w2 E. simpl. now rewrite E.
    + apply H. intros d w1 w2 E. simpl. now rewrite E.
  - unfold fetchFolders. destruct (c_user c) as [u|] eqn:Hu; [|now left].
    pose proof (@listing_run R (folder_listing (id u))
                  "Error fetching folders" "Error fetching folders:" setFolders w
                  (fun _ _ => eq_refl)) as H.
    rewrite <- (folders_query u) in H.
    match type of H with
    | _ -> match ?x with _ => _ end =>
        destruct x as [[[] | e |] w']
    end.
    + right.
      destruct H as (d & w1 & Hop & Hw & Hd & Hg);
        [intros d w1 w2 E; simpl; now rewrite E|].
      exists d. split; [exact Hd|]. split; [exact Hg|].
      exists u, w1. rewrite <- (folders_query u). auto.
    + apply H. intros d w1 w2 E. simpl. now rewrite E.
    + apply H. intros d w1 w2 E. simpl. now rewrite E.
Qed.

(** X23.  On a device that reports to be offline, a listing for a
    signed-in user sends nothing: it logs the offline error under its own
    label and rejects with that error, which carries no label. *)
Theorem listings_fail_offline {R : Type} (c : Closure) (u : User) (w : World R) :
  c_user c = Some u ->
  onLine (env w) (reads w) = false ->
  (fst (fetchMedia c w) = Threw (new_Error offline_message) /\
   performed (fetchMedia c) w
   = [EvConsoleError [VStr "Error fetching media:"; new_Error offline_message]] /\
   gallery (snd (fetchMedia c w)) = gallery w /\
   remote (snd (fetchMedia c w)) = remote w) /\
  (fst (fetchFolders c w) = Threw (new_Error offline_message) /\
   performed (fetchFolders c) w
   = [EvConsoleError [VStr "Error fetching folders:"; new_Error offline_message]] /\
   gallery (snd (fetchFolders c w)) = gallery w /\
   remote (snd (fetchFolders c w)) = remote w).
Proof.
  intros Hu Hoff. split.
  - unfold fetchMedia. rewrite Hu. cbv zeta.
    match goal with
    | |- context [supabaseOperation ?op ?l] =>
        pose proof (offline_run op l w Hoff) as Hop
    end.
    match goal with
    | |- context [try_catch ?m ?h] =>
        assert (E : try_catch m h w
                    = (Threw (new_Error offline_message),
                       snd (console_error
                              [VStr "Error fetching media:";
                               new_Error offline_message]
                              (after_online_check w))))
          by (unfold try_catch, bind at 1; rewrite Hop; reflexivity)
    end.
    repeat split; try (rewrite E; reflexivity).
    apply @performed_eq. rewrite E. reflexivity.
  - unfold fetchFolders. rewrite Hu.
    match goal with
    | |- context [supabaseOperation ?op ?l] =>
        pose proof (offline_run op l w Hoff) as Hop
    end.
    match goal with
    | |- context [try_catch ?m ?h] =>
        assert (E : try_catch m h w
                    = (Threw (new_Error offline_message),
                       snd (console_error
                              [VStr "Error fetching folders:";
                               new_Error offline_message]
                              (after_online_check w))))
          by (unfold try_catch, bind at 1; rewrite Hop; reflexivity)
    end.
    repeat split; try (rewrite E; reflexivity).
    apply @performed_eq. rewrite E. reflexivity.
Qed.

Lemma listings_fail_offline_witness :
  (fst (fetchMedia Scenarios.in_f1 MoreScenarios.world_shown_offline)
   = Threw (new_Error offline_message) /\
   performed (fetchMedia Scenarios.in_f1) MoreScenarios.world_shown_offline
   = [EvConsoleError [VStr "Error fetching media:"; new_Error offline_message]] /\
   gallery (snd (fetchMedia Scenarios.in_f1 MoreScenarios.world_shown_offline))
   = gallery MoreScenarios.world_shown_offline /\
   remote (snd (fetchMedia Scenarios.in_f1 MoreScenarios.world_shown_offline))
   = remote MoreScenarios.world_shown_offline) /\
  (fst (fetchFolders Scenarios.in_f1 MoreScenarios.world_shown_offline)
   = Threw (new_Error offline_message) /\
   performed (fetchFolders Scenarios.in_f1) MoreScenarios.world_shown_offline
   = [EvConsoleError [VStr "Error fetching folders:"; new_Error offline_message]] /\
   gallery (snd (fetchFolders Scenarios.in_f1 MoreScenarios.world_shown_offline))
   = gallery MoreScenarios.world_shown_offline /\
   remote (snd (fetchFolders Scenarios.in_f1 MoreScenarios.world_shown_offline))
   = remote MoreScenarios.world_shown_offline).
Proof.
  apply (@listings_fail_offline nat Scenarios.in_f1 Scenarios.alice
           MoreScenarios.world_shown_offline); reflexivity.
Defined.

(** ** Cells that a computation leaves alone *)

Section CellFrame.
Context {R X : Type}.
Variable cell : GalleryState -> X.
Local Abbreviation keeps := (respects (same_cell (R := R) cell)).

Lemma keeps_ret {A} (a : A) : keeps (ret a).
Proof. intro w. reflexivity. Qed.

Lemma keeps_throw {A} (e : value) : keeps (@throw R A e).
Proof. intro w. reflexivity. Qed.

Lemma keeps_log (e : event) : keeps (log e).
Proof. intro w. reflexivity. Qed.

Lemma keeps_read (v : value) (k : string) : keeps (read v k).
Proof. unfold read. destruct (get v k); intro w; reflexivity. Qed.

Lemma keeps_bind {A B} (m : M R A) (k : A -> M R B) :
  keeps m -> (forall a, keeps (k a)) -> keeps (bind m k).
Proof.
  intros Hm Hk. apply respects_bind; auto. apply same_cell_trans.
Qed.

Lemma keeps_try_catch {A} (m : M R A) (h : value -> M R A) :
  keeps m -> (forall e, keeps (h e)) -> keeps (try_catch m h).
Proof.
  intros Hm Hh. apply respects_try_catch; auto. apply same_cell_trans.
Qed.

Lemma keeps_when (b : bool) (m : M R unit) : keeps m -> keeps (when b m).
Proof. destruct b; simpl; auto. apply keeps_ret. Qed.

Lemma keeps_spawn (m : M R unit) : keeps m -> keeps (spawn m).
Proof.
  intros Hm w. specialize (Hm w). unfold spawn.
  destruct (m w) as [[a | e |] w1]; exact Hm.
Qed.

Lemma keeps_send (r : Request) : keeps (send r).
Proof.
  intro w. unfold same_cell. now rewrite (send_keeps_gallery r w).
Qed.

Lemma keeps_fail_when (r : Result) :
  keeps (when (truthy (error r)) (throw (error r))).
Proof. apply keeps_when, keeps_throw. Qed.

Lemma keeps_handler (label msg : string) (e : value) :
  keeps (console_error [VStr label; e] ;;; alert msg).
Proof. intro w. reflexivity. Qed.

Lemma keeps_helper (r : Request) (label : string) :
  keeps (supabaseOperation (send r) label).
Proof.
  intro w. unfold same_cell. now rewrite (helper_keeps_gallery r label w).
Qed.

Lemma keeps_fetchMedia (c : Closure) :
  (forall d, keeps (setMedia d)) -> keeps (fetchMedia c).
Proof.
  intro Hset. unfold fetchMedia. destruct (c_user c) as [u|]; [|apply keeps_ret].
  cbv zeta. apply keeps_try_catch.
  - apply keeps_bind; [apply keeps_helper | exact Hset].
  - intro e. apply keeps_bind; [apply keeps_log | intros _; apply keeps_throw].
Qed.

Lemma keeps_fetchFolders (c : Closure) :
  (forall d, keeps (setFolders d)) -> keeps (fetchFolders c).
Proof.
  intro Hset. unfold fetchFolders. destruct (c_user c) as [u|]; [|apply keeps_ret].
  apply keeps_try_catch.
  - apply keeps_bind; [apply keeps_helper | exact Hset].
  - intro e. apply keeps_bind; [apply keeps_log | intros _; apply keeps_throw].
Qed.

End CellFrame.

(** ** What a run goes on to do *)

Section Ending.
Context {R : Type}.
Variable Q : Request -> Prop.
Variable P : GalleryState -> Prop.

Lemma ew_trace_eq {A} (m : M R A) (w : World R) done done' :
  ends_with Q P m w done -> done = done' -> ends_with Q P m w done'.
Proof. now intros H <-. Qed.

Lemma ew_any {A} (m : M R A) (w : World R) :
  requests_satisfy Q m -> P (gallery (snd (m w))) -> ends_with Q P m w [].
Proof.
  intros Hm HP. destruct (Hm w) as (tr & E & F).
  exists (fst (m w)), (snd (m w)), tr. repeat split; auto.
  apply surjective_pairing.
Qed.

Lemma ew_bind {A B} (m : M R A) (k : A -> M R B) w a w1 tr1 done :
  runs m w (Returned a) w1 tr1 ->
  ends_with Q P (k a) w1 done ->
  ends_with Q P (bind m k) w (tr1 ++ done).
Proof.
  intros Hm (c & w' & tr & Hk & F & HP).
  exists c, w', tr. repeat split; auto.
  - unfold bind. rewrite (proj1 Hm). apply Hk.
  - rewrite (proj2 Hk), (proj2 Hm). now rewrite <- !app_assoc.
Qed.

Lemma ew_send_ok (r : Request) (w : World R) res (k : Result -> M R unit) done :
  fst (serve (env w) r (remote w)) = Returned res ->
  truthy (error res) = false ->
  ends_with Q P (k res)
    (mkWorld (env w) (snd (serve (env w) r (remote w))) (reads w) (waits w)
             (auth w) (gallery w) (trace w ++ [EvSent r])) done ->
  ends_with Q P
    (x <- send r ;; when (truthy (error x)) (throw (error x)) ;;; k x)
    w (EvSent r :: done).
Proof.
  intros Hres Herr (c & w' & tr & Hk & F & HP).
  exists c, w', tr. repeat split; auto.
  - apply (@runs_send_ok R r w res k c w' (done ++ tr) Hres Herr Hk).
  - apply (@runs_send_ok R r w res k c w' (done ++ tr) Hres Herr Hk).
Qed.

(** The [catch] blocks of the handlers: log and alert. *)
Lemma ew_try_catch (m : M R unit) (label msg : string) w done :
  ends_with Q P m w done ->
  ends_with Q P
    (try_catch m (fun e => console_error [VStr label; e] ;;; alert msg)) w done.
Proof.
  intros ([[] | e |] & w' & tr & Hm & F & HP).
  - exists (Returned tt), w', tr. repeat split; auto.
    + unfold try_catch. now rewrite (proj1 Hm).
    + apply Hm.
  - exists (Returned tt),
      (snd (alert msg (snd (console_error [VStr label; e] w')))),
      (tr ++ [EvConsoleError [VStr label; e]; EvAlert msg]).
    repeat split; auto.
    + unfold try_catch. now rewrite (proj1 Hm).
    + simpl. rewrite (proj2 Hm). now rewrite <- !app_assoc.
    + apply Forall_app. split; [exact F|]. repeat constructor.
  - exists Suspended, w', tr. repeat split; auto.
    + unfold try_catch. now rewrite (proj1 Hm).
    + apply Hm.
Qed.

(** A [finally] block that resets cells. *)
Lemma ew_try_finally (m : M R unit) (g : GalleryState -> GalleryState) w done :
  ends_with Q P m w done ->
  (forall x, P x -> P (g x)) ->
  ends_with Q P (try_finally m (update_gallery g)) w done.
Proof.
  intros ([[] | e |] & w' & tr & Hm & F & HP) Hg.
  - exists (Returned tt), (snd (update_gallery g w')), tr. repeat split; auto.
    + unfold try_finally. now rewrite (proj1 Hm).
    + simpl. apply Hm.
    + simpl. now apply Hg.
  - exists (Threw e), (snd (update_gallery g w')), tr. repeat split; auto.
    + unfold try_finally. now rewrite (proj1 Hm).
    + simpl. apply Hm.
    + simpl. now apply Hg.
  - exists Suspended, w', tr. repeat split; auto.
    + unfold try_finally. now rewrite (proj1 Hm).
    + apply Hm.
Qed.

Lemma ew_performed {A} (m : M R A) w done :
  ends_with Q P m w done ->
  exists tr, performed m w = done ++ tr /\ Forall (on_requests Q) tr /\
             P (gallery (snd (m w))).
Proof.
  intros (c & w' & tr & Hm & F & HP). exists tr.
  destruct (runs_performed Hm) as [Hp Hw]. rewrite Hp, Hw. auto.
Qed.

End Ending.

(** ** Deleting one item *)

Section Removing.
Context {R : Type}.

(** The [try ... catch] of [deleteMedia]. *)
Local Abbreviation removal c item :=
  (try_catch
     (url <- read (R := R) item "url" ;;
      st <- send (RStorageRemove "photos" [url]) ;;
      when (truthy (error st)) (throw (error st)) ;;;
      item_id <- read item "id" ;;
      db <- send (RQuery (from "photos" |> delete |> eq_ "id" item_id)) ;;
      when (truthy (error db)) (throw (error db)) ;;;
      setSelectedMedia VNull ;;;
      fetchMedia c)
     (fun error =>
        console_error [VStr "Error deleting media:"; error] ;;;
        alert "Error deleting media")).

(** The world in which that block starts. *)
Local Abbreviation deleting w :=
  (snd ((log (R := R) EvStopPropagation ;;;
         confirm confirm_delete_media true ;;;
         setIsDeletingMedia true) w)).

Lemma deleteMedia_confirmed (c : Closure) (u : User) (item : value) (w : World R) :
  c_user c = Some u -> c_isDeletingMedia c = false ->
  deleteMedia c item true w
  = try_finally (removal c item) (setIsDeletingMedia false) (deleting w).
Proof. intros Hu Hb. unfold deleteMedia. rewrite Hu, Hb. reflexivity. Qed.

Lemma removal_never_rejects (c : Closure) (item : value) :
  never_rejects (removal c item).
Proof. apply nr_try_catch. intro e. apply nr_handler. Qed.

Lemma removal_keeps_flag (c : Closure) (item : value) :
  respects (same_cell isDeletingMedia) (removal c item).
Proof.
  apply keeps_try_catch; [|intro e; apply keeps_handler].
  apply keeps_bind; [apply keeps_read | intro url].
  apply keeps_bind; [apply keeps_send | intro st].
  apply keeps_bind; [apply keeps_fail_when | intros _].
  apply keeps_bind; [apply keeps_read | intro item_id].
  apply keeps_bind; [apply keeps_send | intro db].
  apply keeps_bind; [apply keeps_fail_when | intros _].
  apply keeps_bind; [intro w; reflexivity | intros _].
  apply keeps_fetchMedia. intros d w. reflexivity.
Qed.

(** The run of [deleteMedia] once the user has confirmed, given how far
    the body gets. *)
Lemma deleteMedia_ends (Q : Request -> Prop) (P : GalleryState -> Prop)
      (c : Closure) (u : User) (item : value) (w : World R) done :
  c_user c = Some u -> c_isDeletingMedia c = false ->
  (forall x b, P x ->
     P (mkGallery (media x) (folders x) (isUploading x) (uploadProgress x)
                  (currentFolder x) (selectedMedia x) b (isMobileMenuOpen x))) ->
  ends_with Q P
    (url <- read (R := R) item "url" ;;
     st <- send (RStorageRemove "photos" [url]) ;;
     when (truthy (error st)) (throw (error st)) ;;;
     item_id <- read item "id" ;;
     db <- send (RQuery (from "photos" |> delete |> eq_ "id" item_id)) ;;
     when (truthy (error db)) (throw (error db)) ;;;
     setSelectedMedia VNull ;;;
     fetchMedia c)
    (deleting w) done ->
  ends_with Q P (deleteMedia c item true) w
    (EvStopPropagation :: EvConfirm confirm_delete_media true :: done).
Proof.
  intros Hu Hb HP Hbody. unfold deleteMedia. rewrite Hu, Hb.
  eapply ew_trace_eq.
  - eapply ew_bind; [apply runs_log|]. cbv beta.
    eapply ew_bind; [apply runs_confirm|]. cbv beta. cbn [negb].
    eapply ew_bind; [apply runs_silent; reflexivity|]. cbv beta.
    apply ew_try_finally; [|intros x Hx; now apply HP].
    apply ew_try_catch. exact Hbody.
  - reflexivity.
Qed.

End Removing.

(** X24.  [deleteMedia] always stops the click from propagating first.
    For a guest, and while another deletion is in progress, it does
    nothing else; when the user declines the confirmation it stops after
    the dialog.  In these cases nothing is sent and no cell changes. *)
Theorem deleteMedia_guards {R : Type} (c : Closure) (item : value)
        (answer : bool) (w : World R) :
  starts_with EvStopPropagation (deleteMedia c item answer) w /\
  (c_user c = None \/ c_isDeletingMedia c = true ->
   performed (deleteMedia c item answer) w = [EvStopPropagation] /\
   gallery (snd (deleteMedia c item answer w)) = gallery w /\
   remote (snd (deleteMedia c item answer w)) = remote w) /\
  (answer = false ->
   requests (performed (deleteMedia c item answer) w) = [] /\
   gallery (snd (deleteMedia c item answer w)) = gallery w /\
   remote (snd (deleteMedia c item answer w)) = remote w /\
   (c_user c <> None -> c_isDeletingMedia c = false ->
    performed (deleteMedia c item answer) w
    = [EvStopPropagation; EvConfirm confirm_delete_media false])).
Proof.
  assert (Hquiet : c_user c = None \/ c_isDeletingMedia c = true ->
                   deleteMedia c item answer w = log EvStopPropagation w).
  { intros [Hu | Hb]; unfold deleteMedia.
    - rewrite Hu. reflexivity.
    - rewrite Hb. destruct (c_user c); reflexivity. }
  assert (Hdeclined : c_user c <> None -> c_isDeletingMedia c = false ->
                      deleteMedia c item false w
                      = (Returned tt,
                         snd (confirm confirm_delete_media false
                                      (snd (log EvStopPropagation w))))).
  { intros Hu Hb. unfold deleteMedia. rewrite Hb.
    destruct (c_user c); [reflexivity | now elim Hu]. }
  split; [|split].
  - unfold deleteMedia. apply starts_bind.
    + exists []. apply @performed_eq. reflexivity.
    + intros _. unfold appends.
      destruct (c_user c) as [u|]; [|apply rs_ret].
      destruct (c_isDeletingMedia c); [apply rs_ret|].
      apply rs_bind; [apply rs_confirm | intro ok].
      destruct (negb ok); [apply rs_ret|].
      apply rs_bind; [apply rs_update_gallery | intros _].
      apply rs_try_finally; [|apply rs_update_gallery].
      apply rs_try_catch.
      * apply rs_bind; [apply rs_read | intro url].
        apply rs_bind; [apply rs_send; exact I | intro st].
        apply rs_bind; [apply rs_fail_when | intros _].
        apply rs_bind; [apply rs_read | intro v].
        apply rs_bind; [apply rs_send; exact I | intro db].
        apply rs_bind; [apply rs_fail_when | intros _].
        apply rs_bind; [apply rs_update_gallery | intros _].
        apply rs_fetchMedia_any. intros; exact I.
      * intro e. apply rs_bind; now (try intros _; apply rs_log).
  - intro H.
    assert (Hp : performed (deleteMedia c item answer) w = [EvStopPropagation])
      by (apply @performed_eq; rewrite (Hquiet H); reflexivity).
    rewrite Hp, (Hquiet H). repeat split.
  - intros ->.
    destruct (c_user c) as [u|] eqn:Hu.
    + destruct (c_isDeletingMedia c) eqn:Hb.
      * assert (Hp : performed (deleteMedia c item false) w = [EvStopPropagation])
          by (apply @performed_eq; rewrite (Hquiet (or_intror eq_refl));
              reflexivity).
        rewrite Hp, (Hquiet (or_intror eq_refl)). repeat split.
        intros _ H. discriminate.
      * assert (Hsome : Some u <> None) by discriminate.
        assert (Hp : performed (deleteMedia c item false) w
                     = [EvStopPropagation;
                        EvConfirm confirm_delete_media false]).
        { apply @performed_eq. rewrite (Hdeclined Hsome eq_refl).
          simpl. now rewrite <- app_assoc. }
        rewrite Hp, (Hdeclined Hsome eq_refl). repeat split.
    + assert (Hp : performed (deleteMedia c item false) w = [EvStopPropagation])
        by (apply @performed_eq; rewrite (Hquiet (or_introl eq_refl));
            reflexivity).
      rewrite Hp, (Hquiet (or_introl eq_refl)). repeat split.
      intro H. now elim H.
Qed.

Lemma deleteMedia_guards_witness :
  performed (deleteMedia Scenarios.at_root MoreScenarios.item_m1 false)
            Scenarios.world_alice
  = [EvStopPropagation; EvConfirm confirm_delete_media false].
Proof.
  apply (proj2 (proj2 (proj2
           (proj2 (proj2 (@deleteMedia_guards nat Scenarios.at_root
                            MoreScenarios.item_m1 false Scenarios.world_alice))
                  eq_refl)))).
  - discriminate.
  - reflexivity.
Defined.

(** ** Runs of the guarded blocks *)

Section Guarded.
Context {R : Type}.

(** The [try ... catch] of [deleteMedia]. *)
Local Abbreviation removal c item :=
  (try_catch
     (url <- read (R := R) item "url" ;;
      st <- send (RStorageRemove "photos" [url]) ;;
      when (truthy (error st)) (throw (error st)) ;;;
      item_id <- read item "id" ;;
      db <- send (RQuery (from "photos" |> delete |> eq_ "id" item_id)) ;;
      when (truthy (error db)) (throw (error db)) ;;;
      setSelectedMedia VNull ;;;
      fetchMedia c)
     (fun error =>
        console_error [VStr "Error deleting media:"; error] ;;;
        alert "Error deleting media")).

Local Abbreviation deleting w :=
  (snd ((log (R := R) EvStopPropagation ;;;
         confirm confirm_delete_media true ;;;
         setIsDeletingMedia true) w)).

Lemma deleteMedia_run (c : Closure) (u : User) (item : value)
      (w w1 : World R) tr :
  c_user c = Some u -> c_isDeletingMedia c = false ->
  runs (removal c item) (deleting w) (Returned tt) w1 tr ->
  runs (deleteMedia c item true) w (Returned tt)
       (snd (setIsDeletingMedia false w1))
       (EvStopPropagation :: EvConfirm confirm_delete_media true :: tr).
Proof.
  intros Hu Hb Hrun. unfold deleteMedia. rewrite Hu, Hb.
  eapply runs_trace_eq.
  - eapply runs_bind; [apply runs_log|]. cbv beta.
    eapply runs_bind; [apply runs_confirm|]. cbv beta. cbn [negb].
    eapply runs_bind; [apply runs_silent; reflexivity|]. cbv beta.
    eapply runs_finally; [exact Hrun|].
    apply runs_silent; reflexivity.
  - simpl. now rewrite app_nil_r.
Qed.

Lemma deleteMedia_flag (c : Closure) (u : User) (item : value) (w : World R) :
  c_user c = Some u -> c_isDeletingMedia c = false ->
  (fst (deleteMedia c item true w) = Returned tt /\
   isDeletingMedia (gallery (snd (deleteMedia c item true w))) = false) \/
  (fst (deleteMedia c item true w) = Suspended /\
   isDeletingMedia (gallery (snd (deleteMedia c item true w))) = true).
Proof.
  intros Hu Hb. rewrite (@deleteMedia_confirmed R c u item w Hu Hb).
  destruct (@settles R unit (removal c item) (setIsDeletingMedia false)
                     (deleting w) (removal_never_rejects c item))
    as [(a & w1 & Hm & ->) | (w1 & Hm & ->)].
  - left. destruct a. split; reflexivity.
  - right. split; [reflexivity|].
    pose proof (removal_keeps_flag c item (deleting w)) as K.
    rewrite Hm in K. exact K.
Qed.

(** The [try ... catch] of [handleFileUpload] and the world in which it
    starts. *)
Local Abbreviation upload_attempt c u file random :=
  (try_catch
     (up <- send (R := R) (upload_request u file random) ;;
      when (truthy (error up)) (throw (error up)) ;;;
      path <- read (data up) "path" ;;
      ins <- send (insert_request u (c_currentFolder c) file path) ;;
      when (truthy (error ins)) (throw (error ins)) ;;;
      spawn (fetchMedia c))
     (fun error =>
        console_error [VStr "Error uploading file:"; error] ;;;
        alert "Error uploading file")).

Local Abbreviation uploading w :=
  (snd ((setIsUploading (R := R) true ;;; setUploadProgress 0) w)).

Local Abbreviation upload_reset :=
  (setIsUploading (R := R) false ;;; setUploadProgress 0 ;;;
   setIsMobileMenuOpen false).

Lemma upload_guarded (c : Closure) (u : User) (file : File) (random : string)
      (w : World R) :
  c_user c = Some u ->
  file_size file <= size_limit file ->
  handleFileUpload c (Some file) random w
  = try_finally (upload_attempt c u file random) upload_reset (uploading w).
Proof.
  intros Hu Hok. unfold handleFileUpload. rewrite Hu.
  change (if startsWith (file_type file) "video/"
          then 50 * 1024 * 1024 else 5 * 1024 * 1024) with (size_limit file).
  replace (size_limit file <? file_size file) with false
    by (symmetry; apply Z.ltb_ge; exact Hok).
  reflexivity.
Qed.

Lemma upload_keeps_flag (c : Closure) (u : User) (file : File) (random : string) :
  respects (same_cell isUploading) (upload_attempt c u file random).
Proof.
  apply keeps_try_catch; [|intro e; apply keeps_handler].
  apply keeps_bind; [apply keeps_send | intro up].
  apply keeps_bind; [apply keeps_fail_when | intros _].
  apply keeps_bind; [apply keeps_read | intro path].
  apply keeps_bind; [apply keeps_send | intro ins].
  apply keeps_bind; [apply keeps_fail_when | intros _].
  apply keeps_spawn, keeps_fetchMedia. intros d w. reflexivity.
Qed.

Lemma upload_flag (c : Closure) (u : User) (file : File) (random : string)
      (w : World R) :
  c_user c = Some u ->
  file_size file <= size_limit file ->
  (fst (handleFileUpload c (Some file) random w) = Returned tt /\
   isUploading (gallery (snd (handleFileUpload c (Some file) random w))) = false /\
   uploadProgress (gallery (snd (handleFileUpload c (Some file) random w))) = 0 /\
   isMobileMenuOpen (gallery (snd (handleFileUpload c (Some file) random w)))
   = false) \/
  (fst (handleFileUpload c (Some file) random w) = Suspended /\
   isUploading (gallery (snd (handleFileUpload c (Some file) random w))) = true).
Proof.
  intros Hu Hok. rewrite (@upload_guarded c u file random w Hu Hok).
  assert (Hnr : never_rejects (upload_attempt c u file random))
    by (apply nr_try_catch; intro e; apply nr_handler).
  destruct (@settles R unit (upload_attempt c u file random) upload_reset
                     (uploading w) Hnr)
    as [(a & w1 & Hm & ->) | (w1 & Hm & ->)].
  - left. destruct a. repeat split; reflexivity.
  - right. split; [reflexivity|].
    pose proof (upload_keeps_flag c u file random (uploading w)) as K.
    rewrite Hm in K. exact K.
Qed.

(** The [try ... catch] of [deleteFolder]. *)
Lemma deleteFolder_run {Q P} (c : Closure) (u : User) (folderId : string)
      (w : World R) done :
  c_user c = Some u ->
  ends_with Q P
    (photos <- send (R := R) (delete_children folderId) ;;
     when (truthy (error photos)) (throw (error photos)) ;;;
     folder <- send (delete_folder_row folderId) ;;
     when (truthy (error folder)) (throw (error folder)) ;;;
     spawn (fetchFolders c) ;;;
     when (match c_currentFolder c with
           | Some f => (f =? folderId)%string
           | None => false
           end)
          (setCurrentFolder None))
    (snd (confirm confirm_delete_folder true w)) done ->
  ends_with Q P (deleteFolder c folderId true) w
            (EvConfirm confirm_delete_folder true :: done).
Proof.
  intros Hu Hbody. unfold deleteFolder. rewrite Hu.
  eapply ew_trace_eq.
  - eapply ew_bind; [apply runs_confirm|]. cbv beta. cbn [negb].
    apply ew_try_catch. exact Hbody.
  - reflexivity.
Qed.

Lemma spawn_returns (m : M R unit) (w : World R) :
  fst (spawn m w) = Returned tt /\
  gallery (snd (spawn m w)) = gallery (snd (m w)).
Proof. unfold spawn. destruct (m w) as [[[] | e |] w1]; split; reflexivity. Qed.

End Guarded.

(** X25.  The busy flags follow the run.  Once the user has confirmed,
    [deleteMedia] either returns with [isDeletingMedia] back to false, or
    stays pending (on a call, or on the wait for the 'online' event) with
    the flag still true.  An upload of a file within its limit either
    returns with [isUploading] false, the progress at 0 and the mobile
    menu closed, or stays pending with [isUploading] still true. *)
Theorem busy_flags_follow_the_run {R : Type} (c : Closure) (u : User)
        (w : World R) :
  c_user c = Some u ->
  (forall item,
      c_isDeletingMedia c = false ->
      (fst (deleteMedia c item true w) = Returned tt /\
       isDeletingMedia (gallery (snd (deleteMedia c item true w))) = false) \/
      (fst (deleteMedia c item true w) = Suspended /\
       isDeletingMedia (gallery (snd (deleteMedia c item true w))) = true)) /\
  (forall file random,
      file_size file <= size_limit file ->
      (fst (handleFileUpload c (Some file) random w) = Returned tt /\
       isUploading (gallery (snd (handleFileUpload c (Some file) random w)))
       = false /\
       uploadProgress (gallery (snd (handleFileUpload c (Some file) random w)))
       = 0 /\
       isMobileMenuOpen (gallery (snd (handleFileUpload c (Some file) random w)))
       = false) \/
      (fst (handleFileUpload c (Some file) random w) = Suspended /\
       isUploading (gallery (snd (handleFileUpload c (Some file) random w)))
       = true)).
Proof.
  intro Hu. split.
  - intros item Hb. exact (@deleteMedia_flag R c u item w Hu Hb).
  - intros file random Hok. exact (@upload_flag R c u file random w Hu Hok).
Qed.

Lemma busy_flags_follow_the_run_witness :
  (fst (deleteMedia Scenarios.at_root MoreScenarios.item_m1 true
          MoreScenarios.world_pending) = Suspended /\
   isDeletingMedia
     (gallery (snd (deleteMedia Scenarios.at_root MoreScenarios.item_m1 true
                      MoreScenarios.world_pending))) = true) /\
  (fst (handleFileUpload Scenarios.at_root (Some Scenarios.video_40MB) "0.731"
          Scenarios.world_storing) = Returned tt /\
   isUploading
     (gallery (snd (handleFileUpload Scenarios.at_root (Some Scenarios.video_40MB)
                      "0.731" Scenarios.world_storing))) = false).
Proof.
  split.
  - destruct (proj1 (@busy_flags_follow_the_run nat Scenarios.at_root
                       Scenarios.alice MoreScenarios.world_pending eq_refl)
                    MoreScenarios.item_m1 eq_refl) as [[H _] | H].
    + discriminate H.
    + exact H.
  - destruct (proj2 (@busy_flags_follow_the_run nat Scenarios.at_root
                       Scenarios.alice Scenarios.world_storing eq_refl)
                    Scenarios.video_40MB "0.731"%string
                    ltac:(vm_compute; discriminate)) as [(H1 & H2 & _) | [H _]].
    + split; [exact H1 | exact H2].
    + discriminate H.
Defined.

(** X26.  [deleteMedia] removes the stored object before it deletes the
    row.  If the removal fails it alerts and the row is not touched.  If
    the removal succeeds and the deletion of the row fails it alerts
    after these two requests: the object is gone, the row remains and the
    item stays selected.  If both succeed, the selection is cleared and
    the only requests that follow are listings of the user's media in the
    folder of the render. *)
Theorem deleteMedia_steps {R : Type} (c : Closure) (u : User)
        (item url item_id : value) (w : World R) :
  c_user c = Some u ->
  c_isDeletingMedia c = false ->
  get item "url" = inl url ->
  get item "id" = inl item_id ->
  (forall cause,
      failed_with (fst (serve (env w) (remove_object url) (remote w))) = Some cause ->
      performed (deleteMedia c item true) w
      = [EvStopPropagation; EvConfirm confirm_delete_media true;
         EvSent (remove_object url);
         EvConsoleError [VStr "Error deleting media:"; cause];
         EvAlert "Error deleting media"] /\
      remote (snd (deleteMedia c item true w))
      = snd (serve (env w) (remove_object url) (remote w))) /\
  (forall st,
      fst (serve (env w) (remove_object url) (remote w)) = Returned st ->
      truthy (error st) = false ->
      (forall cause,
          failed_with
            (fst (serve (env w) (delete_media_row item_id)
                        (snd (serve (env w) (remove_object url) (remote w)))))
          = Some cause ->
          performed (deleteMedia c item true) w
          = [EvStopPropagation; EvConfirm confirm_delete_media true;
             EvSent (remove_object url);
             EvSent (delete_media_row item_id);
             EvConsoleError [VStr "Error deleting media:"; cause];
             EvAlert "Error deleting media"] /\
          selectedMedia (gallery (snd (deleteMedia c item true w)))
          = selectedMedia (gallery w)) /\
      (forall db,
          fst (serve (env w) (delete_media_row item_id)
                     (snd (serve (env w) (remove_object url) (remote w))))
          = Returned db ->
          truthy (error db) = false ->
          exists tr,
            performed (deleteMedia c item true) w
            = EvStopPropagation :: EvConfirm confirm_delete_media true
                :: EvSent (remove_object url)
                :: EvSent (delete_media_row item_id) :: tr /\
            Forall (on_requests
                      (fun r => r = media_listing (id u) (c_currentFolder c))) tr /\
            selectedMedia (gallery (snd (deleteMedia c item true w))) = VNull)).
Proof.
  intros Hu Hb Hurl Hid. split.
  - intros cause Hfail.
    eassert (H : runs (deleteMedia c item true) w (Returned tt) _ _).
    { eapply (@deleteMedia_run R c u item w _ _ Hu Hb).
      eapply runs_try_catch; [|apply runs_handler].
      unfold read. rewrite Hurl.
      eapply runs_bind; [apply runs_ret|]. cbv beta.
      apply runs_send_failed. exact Hfail. }
    destruct (runs_performed H) as [Hp Hw]. rewrite Hp, Hw. split; reflexivity.
  - intros st Hst Herr. split.
    + intros cause Hfail.
      eassert (H : runs (deleteMedia c item true) w (Returned tt) _ _).
      { eapply (@deleteMedia_run R c u item w _ _ Hu Hb).
        eapply runs_try_catch; [|apply runs_handler].
        unfold read. rewrite Hurl, Hid.
        eapply runs_bind; [apply runs_ret|]. cbv beta.
        eapply runs_send_ok; [exact Hst | exact Herr |].
        eapply runs_bind; [apply runs_ret|]. cbv beta.
        apply runs_send_failed. exact Hfail. }
      destruct (runs_performed H) as [Hp Hw]. rewrite Hp, Hw. split; reflexivity.
    + intros db Hdb Herr2.
      destruct (@ew_performed R
                  (fun r => r = media_listing (id u) (c_currentFolder c))
                  (fun g => selectedMedia g = VNull) unit
                  (deleteMedia c item true) w
                  [EvStopPropagation; EvConfirm confirm_delete_media true;
                   EvSent (remove_object url); EvSent (delete_media_row item_id)])
        as (tr & Hp & Hall & Hsel).
      * eapply (@deleteMedia_ends R _ _ c u item w _ Hu Hb);
          [intros x b Hx; exact Hx|].
        unfold read. rewrite Hurl, Hid.
        eapply ew_trace_eq.
        -- eapply ew_bind; [apply runs_ret|]. cbv beta.
           eapply ew_send_ok; [exact Hst | exact Herr |].
           eapply ew_bind; [apply runs_ret|]. cbv beta.
           eapply ew_send_ok; [exact Hdb | exact Herr2 |].
           eapply ew_bind; [apply runs_silent; reflexivity|]. cbv beta.
           apply ew_any; [apply rs_fetchMedia; exact Hu|].
           etransitivity;
             [apply (@keeps_fetchMedia R _ selectedMedia c
                       (fun d w0 => eq_refl))
             | reflexivity].
        -- reflexivity.
      * exists tr. auto.
Qed.

Lemma deleteMedia_steps_witness :
  performed (deleteMedia Scenarios.at_root MoreScenarios.item_m1 true)
            (Scenarios.world_store true)
  = [EvStopPropagation; EvConfirm confirm_delete_media true;
     EvSent (remove_object (VStr "u1/0.1.png"));
     EvSent (delete_media_row (VStr "m1"));
     EvConsoleError [VStr "Error deleting media:";
                     new_Error "upstream request timeout"];
     EvAlert "Error deleting media"] /\
  selectedMedia (gallery (snd (deleteMedia Scenarios.at_root MoreScenarios.item_m1
                                 true (Scenarios.world_store true))))
  = selectedMedia (gallery (Scenarios.world_store true)).
Proof.
  apply (proj1 (proj2 (@deleteMedia_steps Scenarios.Store Scenarios.at_root
                         Scenarios.alice MoreScenarios.item_m1
                         (VStr "u1/0.1.png") (VStr "m1")
                         (Scenarios.world_store true)
                         eq_refl eq_refl eq_refl eq_refl)
                      (mkResult (VArr []) VNull) eq_refl eq_refl)).
  reflexivity.
Defined.

(** X27.  [deleteFolder] does nothing at all for a guest, not even a
    navigation to the login page, and stops after the dialog when the
    user declines: nothing is sent and no cell changes. *)
Theorem deleteFolder_guards {R : Type} (c : Closure) (folderId : string)
        (answer : bool) (w : World R) :
  (c_user c = None -> deleteFolder c folderId answer w = (Returned tt, w)) /\
  (c_user c <> None -> answer = false ->
   performed (deleteFolder c folderId answer) w
   = [EvConfirm confirm_delete_folder false] /\
   gallery (snd (deleteFolder c folderId answer w)) = gallery w /\
   remote (snd (deleteFolder c folderId answer w)) = remote w).
Proof.
  split.
  - intro Hu. unfold deleteFolder. now rewrite Hu.
  - intros Hu ->.
    assert (E : deleteFolder c folderId false w
                = (Returned tt, snd (confirm confirm_delete_folder false w))).
    { unfold deleteFolder. destruct (c_user c); [reflexivity | now elim Hu]. }
    assert (Hp : performed (deleteFolder c folderId false) w
                 = [EvConfirm confirm_delete_folder false])
      by (apply @performed_eq; rewrite E; reflexivity).
    rewrite Hp, E. repeat split.
Qed.

Lemma deleteFolder_guards_witness :
  performed (deleteFolder Scenarios.in_f1 "f1" false) (Scenarios.world_store false)
  = [EvConfirm confirm_delete_folder false] /\
  gallery (snd (deleteFolder Scenarios.in_f1 "f1" false (Scenarios.world_store false)))
  = gallery (Scenarios.world_store false) /\
  remote (snd (deleteFolder Scenarios.in_f1 "f1" false (Scenarios.world_store false)))
  = remote (Scenarios.world_store false).
Proof.
  apply (proj2 (@deleteFolder_guards Scenarios.Store Scenarios.in_f1 "f1" false
                  (Scenarios.world_store false))).
  - discriminate.
  - reflexivity.
Defined.

(** X28.  Once the media rows of a folder are deleted: if the deletion of
    the folder row fails, [deleteFolder] alerts after these two requests
    and no cell of the gallery changes.  If it succeeds, the only
    requests that follow are listings of the user's folders, and the
    gallery leaves the folder exactly when the deleted folder is the one
    that was open in the render of the handler. *)
Theorem deleteFolder_outcomes {R : Type} (c : Closure) (u : User)
        (folderId : string) (w : World R) (photos : Result) :
  c_user c = Some u ->
  fst (serve (env w) (delete_children folderId) (remote w)) = Returned photos ->
  truthy (error photos) = false ->
  (forall cause,
      failed_with
        (fst (serve (env w) (delete_folder_row folderId)
                    (snd (serve (env w) (delete_children folderId) (remote w)))))
      = Some cause ->
      performed (deleteFolder c folderId true) w
      = [EvConfirm confirm_delete_folder true;
         EvSent (delete_children folderId);
         EvSent (delete_folder_row folderId);
         EvConsoleError [VStr "Error deleting folder:"; cause];
         EvAlert "Error deleting folder"] /\
      gallery (snd (deleteFolder c folderId true w)) = gallery w) /\
  (forall folder,
      fst (serve (env w) (delete_folder_row folderId)
                 (snd (serve (env w) (delete_children folderId) (remote w))))
      = Returned folder ->
      truthy (error folder) = false ->
      exists tr,
        performed (deleteFolder c folderId true) w
        = EvConfirm confirm_delete_folder true
            :: EvSent (delete_children folderId)
            :: EvSent (delete_folder_row folderId) :: tr /\
        Forall (on_requests (fun r => r = folder_listing (id u))) tr /\
        currentFolder (gallery (snd (deleteFolder c folderId true w)))
        = if match c_currentFolder c with
             | Some f => (f =? folderId)%string
             | None => false
             end
          then None else currentFolder (gallery w)).
Proof.
  intros Hu Hphotos Herr. split.
  - intros cause Hfail.
    eassert (H : runs (deleteFolder c folderId true) w (Returned tt) _ _).
    { unfold deleteFolder. rewrite Hu.
      eapply runs_bind; [apply runs_confirm|]. cbv beta. cbn [negb].
      eapply runs_try_catch; [|apply runs_handler].
      eapply (@runs_send_ok R (delete_children folderId)); [exact Hphotos | exact Herr |].
      apply (@runs_send_failed R (delete_folder_row folderId)). exact Hfail. }
    destruct (runs_performed H) as [Hp Hw]. rewrite Hp, Hw. split; reflexivity.
  - intros folder Hfolder Herr2.
    destruct (@ew_performed R
                (fun r => r = folder_listing (id u))
                (fun g => currentFolder g
                          = if match c_currentFolder c with
                               | Some f => (f =? folderId)%string
                               | None => false
                               end
                            then None else currentFolder (gallery w))
                unit (deleteFolder c folderId true) w
                [EvConfirm confirm_delete_folder true;
                 EvSent (delete_children folderId);
                 EvSent (delete_folder_row folderId)])
      as (tr & Hp & Hall & Hcell).
    + eapply (@deleteFolder_run R _ _ c u folderId w _ Hu).
      eapply ew_trace_eq.
      * eapply (@ew_send_ok R _ _ (delete_children folderId));
          [exact Hphotos | exact Herr |].
        eapply (@ew_send_ok R _ _ (delete_folder_row folderId));
          [exact Hfolder | exact Herr2 |].
        apply ew_any.
        -- apply rs_bind; [apply rs_spawn, rs_fetchFolders; exact Hu | intros _].
           apply rs_when, rs_update_gallery.
        -- match goal with
           | |- context [bind (spawn ?m) ?k ?W] =>
               pose proof (spawn_returns m W) as [Hret Hgal];
               pose proof (@keeps_fetchFolders R _ currentFolder c
                             (fun d w0 => eq_refl) W) as Hkeep;
               unfold bind;
               destruct (spawn m W) as [x w1]
           end.
           cbn [fst snd] in Hret, Hgal. subst x.
           unfold same_cell in Hkeep. rewrite <- Hgal in Hkeep.
           destruct (match c_currentFolder c with
                     | Some f => (f =? folderId)%string
                     | None => false
                     end); simpl; [reflexivity | exact Hkeep].
      * reflexivity.
    + exists tr. auto.
Qed.

Lemma deleteFolder_outcomes_witness :
  performed (deleteFolder Scenarios.in_f1 "f1" true) MoreScenarios.world_locked
  = [EvConfirm confirm_delete_folder true;
     EvSent (delete_children "f1");
     EvSent (delete_folder_row "f1");
     EvConsoleError [VStr "Error deleting folder:";
                     new_Error "permission denied for table folders"];
     EvAlert "Error deleting folder"] /\
  gallery (snd (deleteFolder Scenarios.in_f1 "f1" true MoreScenarios.world_locked))
  = gallery MoreScenarios.world_locked.
Proof.
  apply (proj1 (@deleteFolder_outcomes nat Scenarios.in_f1 Scenarios.alice "f1"
                  MoreScenarios.world_locked (mkResult (VArr []) VNull)
                  eq_refl eq_refl eq_refl)).
  reflexivity.
Defined.

(** ** The refresh at the end of a handler *)

Section Refreshing.
Context {R : Type}.





End Refreshing.



End GalleryMore.
